(** * VendaBoost utilities: session deduplicator and icon generator

    A shallow embedding of
      - [src/data/sessions/session_deduplicator.py]  (module [Dedup]) and
      - [src/extension/session-capture-extension/generate_icons.py]
        (module [Icons]),
    with the Python value semantics both rely on in module [Py].

    Library calls whose behaviour is fixed outside the repository
    ([datetime.fromisoformat], the local time zone, font loading) are
    section variables; everything the scripts themselves do is a
    definition that computes. *)

From Stdlib Require Import ZArith QArith List String Ascii Bool Lia Permutation.
Import ListNotations.

Local Open Scope string_scope.
Local Open Scope list_scope.
Local Open Scope Z_scope.

Local Set Warnings "-register-all".

(* ===================================================================== *)
(** * Python values, truthiness and dictionary keys                       *)
(* ===================================================================== *)

Module Py.

(** A Python [float] as [json.load] produces it: NaN (the one object
    the decoder has for it), an infinity, or a finite number, kept as the
    rational it denotes.  The deduplicator
    never computes with these numbers; it only tests them for truth and
    uses them as dictionary keys, and both depend on the value alone. *)
Inductive pyfloat : Type :=
| FNan
| FInf (negative : bool)
| FFin (q : Q).

(** What [json.load] returns. An object is kept as its list of members;
    [dict.get] reads the first binding of a key. *)
Inductive json : Type :=
| JNull
| JBool (b : bool)
| JInt (z : Z)
| JFloat (f : pyfloat)
| JStr (s : string)
| JArr (items : list json)
| JObj (members : list (string * json)).

(** The exceptions the scripts can meet, all of them caught by
    [except Exception]. *)
Inductive exn : Type :=
| JSONDecodeError
| OSError
| UnicodeDecodeError
| RecursionError
| OverflowError
| AttributeError
| TypeError
| ValueError
| IndexError.

(** [bool(v)]: the test behind [or], [not] and [if]. *)
Definition truthy (v : json) : bool :=
  match v with
  | JNull => false
  | JBool b => b
  | JInt z => negb (z =? 0)%Z
  | JFloat FNan => true
  | JFloat (FInf _) => true
  | JFloat (FFin q) => negb (Qeq_bool q 0)
  | JStr s => negb (s =? "")%string
  | JArr items => match items with [] => false | _ => true end
  | JObj members => match members with [] => false | _ => true end
  end.

(** [a or b]: the first operand when it is truthy, else the second. *)
Definition py_or (a b : json) : json := if truthy a then a else b.

(** [dict.get(key)] on the members of an object: [None] when absent. *)
Fixpoint lookup (key : string) (members : list (string * json)) : option json :=
  match members with
  | [] => None
  | (k, v) :: rest => if (k =? key)%string then Some v else lookup key rest
  end.

Definition dict_get (members : list (string * json)) (key : string) : json :=
  match lookup key members with
  | Some v => v
  | None => JNull
  end.

(** [data.get(key)]: only a dict has the method. *)
Definition get (data : json) (key : string) : exn + json :=
  match data with
  | JObj members => inr (dict_get members key)
  | _ => inl AttributeError
  end.

(** Lists and dicts cannot be dictionary keys. *)
Definition hashable (v : json) : bool :=
  match v with
  | JArr _ | JObj _ => false
  | _ => true
  end.

(** The number a key stands for: [True] is [1], [False] is [0]. *)
Definition numeric (v : json) : option pyfloat :=
  match v with
  | JBool b => Some (FFin (if b then 1%Q else 0%Q))
  | JInt z => Some (FFin (inject_Z z))
  | JFloat f => Some f
  | _ => None
  end.

(** Two floats as dictionary keys.  [json.load] maps every [NaN]
    literal to the one object [json.decoder.NaN], and a dict takes a key
    that is the very same object as found before it asks for [==]: so
    the NaN of one file is the key of the NaN of another. *)
Definition float_eqb (a b : pyfloat) : bool :=
  match a, b with
  | FFin p, FFin q => Qeq_bool p q
  | FInf s, FInf t => Bool.eqb s t
  | FNan, FNan => true
  | _, _ => false
  end.

(** The test a dict applies to two keys that [json.load] produced:
    strings by content, numbers by value across [bool], [int] and
    [float], NaN by identity. *)
Definition key_eqb (a b : json) : bool :=
  match a, b with
  | JStr s, JStr t => (s =? t)%string
  | JNull, JNull => true
  | _, _ =>
      match numeric a, numeric b with
      | Some x, Some y => float_eqb x y
      | _, _ => false
      end
  end.

(** ** Strings *)

Definition dot : ascii := "."%char.
Definition zed : ascii := "Z"%char.

(** [c in s] *)
Fixpoint contains (c : ascii) (s : string) : bool :=
  match s with
  | EmptyString => false
  | String a rest => if Ascii.eqb a c then true else contains c rest
  end.

(** [s.split(c)] for a one-character separator. *)
Fixpoint split (c : ascii) (s : string) : list string :=
  match s with
  | EmptyString => [EmptyString]
  | String a rest =>
      if Ascii.eqb a c then EmptyString :: split c rest
      else match split c rest with
           | [] => [String a EmptyString]
           | part :: parts => String a part :: parts
           end
  end.

(** [s.rstrip(c)] for a one-character set. *)
Fixpoint rstrip (c : ascii) (s : string) : string :=
  match s with
  | EmptyString => EmptyString
  | String a rest =>
      match rstrip c rest with
      | EmptyString => if Ascii.eqb a c then EmptyString else String a EmptyString
      | kept => String a kept
      end
  end.

(** [s[:n]] *)
Definition take (n : nat) (s : string) : string := substring 0 n s.

(** [s.replace(c, t)] for a one-character pattern. *)
Fixpoint replace (c : ascii) (t : string) (s : string) : string :=
  match s with
  | EmptyString => EmptyString
  | String a rest =>
      if Ascii.eqb a c then (t ++ replace c t rest)%string
      else String a (replace c t rest)
  end.

(** [s.endswith(suffix)] *)
Definition endswith (s suffix : string) : bool :=
  let n := String.length s in
  let m := String.length suffix in
  (m <=? n)%nat && (substring (n - m) m s =? suffix)%string.

(** ** [datetime] *)

(** A [datetime] as far as ordering sees it: whether it carries a time
    zone, and its position on its own time line in microseconds (wall
    clock for a naive value, UTC instant for an aware one). *)
Record datetime : Type := mkDatetime { tz_aware : bool; ticks : Z }.

(** [a < b]: naive and aware values do not compare. *)
Definition dt_lt (a b : datetime) : exn + bool :=
  if Bool.eqb (tz_aware a) (tz_aware b) then inr (ticks a <? ticks b)
  else inl TypeError.

End Py.

(* ===================================================================== *)
(** * The session deduplicator                                            *)
(* ===================================================================== *)

Module Dedup.
Import Py.

(** ** The directory of session files *)

(** What [open] followed by [json.load] yields for a file.
    [Malformed] is text that is not JSON.  [Unreadable e] is every other
    failure, with the exception it raises: [OSError] for a file that
    cannot be opened, [UnicodeDecodeError] for bytes that are not UTF-8,
    [ValueError] for an integer of too many digits, [RecursionError] for
    nesting too deep. *)
Inductive loaded : Type :=
| Unreadable (e : exn)       (* [open] or [json.load] raises [e] *)
| Malformed                  (* [json.load] raises [JSONDecodeError] *)
| Document (data : json).

(** A directory entry: its name (the path inside [sessions_dir]), what
    reading it gives, its modification time in microseconds, and whether
    the system lets it be removed. *)
Record file : Type := mkFile {
  name : string;
  load : loaded;
  mtime : Z;
  unlinkable : bool
}.

(** [sessions_dir] on disk, in the order [glob] lists it; [None] when the
    directory does not exist. *)
Definition state : Type := option (list file).

(** ** What a run leaves behind besides the directory *)

Inductive level : Type := INFO | WARNING | ERROR.

(** One constructor per [self.logger] call of the source. *)
Inductive message : Type :=
| MsgNoSessionId (file_name : string)
| MsgDecodeError (file_name : string)
| MsgProcessError (file_name : string) (e : exn)
| MsgDirMissing
| MsgNoFiles
| MsgAnalysing (count : nat)
| MsgKeeping (session_id : json) (file_name : string)
| MsgRemoved (file_name : string) (timestamp : datetime)
| MsgRemoveError (file_name : string) (e : exn)
| MsgSummaryHeader
| MsgSummaryUnique (unique_sessions : nat)
| MsgSummaryRemoved (total_removed : nat)
| MsgSummaryFooter
| MsgNoDuplicates (unique_sessions : nat)
| MsgDedupError (e : exn)
| MsgMonitoringStarted (interval_minutes : Z)
| MsgMonitoredDirectory
| MsgPressCtrlC
| MsgInitialCheck
| MsgPeriodicCheck
| MsgStopping
| MsgSingleRun
| MsgFinished.

(** Log records and the system calls made on individual files. *)
Inductive event : Type :=
| Log (lv : level) (msg : message)
| Open (path : string)
| Stat (path : string)
| Unlink (path : string).

(** ** Computations: directory state, exceptions, emitted events *)

Definition M (A : Type) : Type := state -> (exn + A) * state * list event.

Definition ret {A} (a : A) : M A := fun s => (inr a, s, []).

Definition raise {A} (e : exn) : M A := fun s => (inl e, s, []).

Definition bind {A B} (m : M A) (k : A -> M B) : M B :=
  fun s =>
    match m s with
    | (inl e, s1, evs1) => (inl e, s1, evs1)
    | (inr a, s1, evs1) =>
        match k a s1 with
        | (r, s2, evs2) => (r, s2, evs1 ++ evs2)
        end
    end.

(** [try: m  except ... as e: handler e] *)
Definition try_except {A} (m : M A) (handler : exn -> M A) : M A :=
  fun s =>
    match m s with
    | (inl e, s1, evs1) =>
        match handler e s1 with
        | (r, s2, evs2) => (r, s2, evs1 ++ evs2)
        end
    | (inr a, s1, evs1) => (inr a, s1, evs1)
    end.

Definition lift {A} (r : exn + A) : M A :=
  match r with
  | inl e => raise e
  | inr a => ret a
  end.

Definition emit (ev : event) : M unit := fun s => (inr tt, s, [ev]).

Definition log (lv : level) (msg : message) : M unit := emit (Log lv msg).

Declare Scope dedup_scope.
Delimit Scope dedup_scope with dedup.
Notation "x <- m ;; k" := (bind m (fun x => k))
  (at level 61, m at next level, right associativity) : dedup_scope.
Notation "m ;; k" := (bind m (fun _ => k))
  (at level 61, right associativity) : dedup_scope.
Local Open Scope dedup_scope.

(** ** File system calls *)

Definition has_name (path : string) (f : file) : bool := (name f =? path)%string.

Definition find_file (path : string) (s : state) : option file :=
  match s with
  | Some entries => find (has_name path) entries
  | None => None
  end.

(** [self.sessions_dir.exists()] *)
Definition dir_exists : M bool :=
  fun s => (inr (match s with Some _ => true | None => false end), s, []).

(** [self.sessions_dir.glob('*.json')], as names. *)
Definition glob_json : M (list string) :=
  fun s =>
    (inr (match s with
          | Some entries =>
              filter (fun n => endswith n ".json") (map name entries)
          | None => []
          end), s, []).

(** [with open(file_path, 'r', encoding='utf-8') as f: json.load(f)] *)
Definition open_json (path : string) : M json :=
  fun s =>
    match find_file path s with
    | Some f =>
        match load f with
        | Document data => (inr data, s, [Open path])
        | Malformed => (inl JSONDecodeError, s, [Open path])
        | Unreadable e => (inl e, s, [Open path])
        end
    | None => (inl OSError, s, [Open path])
    end.

(** [file_path.stat().st_mtime] *)
Definition stat_mtime (path : string) : M Z :=
  fun s =>
    match find_file path s with
    | Some f => (inr (mtime f), s, [Stat path])
    | None => (inl OSError, s, [Stat path])
    end.

(** [file_path.unlink()] *)
Definition unlink (path : string) : M unit :=
  fun s =>
    match s, find_file path s with
    | Some entries, Some f =>
        if unlinkable f
        then (inr tt, Some (filter (fun g => negb (has_name path g)) entries),
              [Unlink path])
        else (inl OSError, s, [Unlink path])
    | _, _ => (inl OSError, s, [Unlink path])
    end.

(** ** The tool *)

Section Deduplicator.

(** [datetime.fromisoformat]: [None] stands for its [ValueError]. *)
Variable fromisoformat : string -> option datetime.

(** The local wall-clock reading of a modification time, or what
    [datetime.fromtimestamp] raises for it: [ValueError] for a year
    outside 1..9999, [OverflowError] or [OSError] where the platform's
    [localtime] gives up. *)
Variable localtime : Z -> exn + Z.

(** [datetime.fromtimestamp(t)]: a naive local time. *)
Definition fromtimestamp (t : Z) : exn + datetime :=
  match localtime t with
  | inr wall => inr {| tz_aware := false; ticks := wall |}
  | inl e => inl e
  end.

(** [self.excluded_files] *)
Definition excluded_files : list string :=
  ["current-session.json"; "active-session-config.json"].

Definition excluded (file_name : string) : bool :=
  existsb (String.eqb file_name) excluded_files.

(** The right operand of [or] is evaluated only when the left one is
    falsy. *)
Definition or_get (left : json) (data : json) (key : string) : exn + json :=
  if truthy left then inr left else get data key.

(** Lines 66-71: the session identifier. *)
Definition session_id_of (data : json) : exn + json :=
  match get data "activeSessionId" with
  | inl e => inl e
  | inr a =>
      match or_get a data "sessionId" with
      | inl e => inl e
      | inr b =>
          match or_get b data "id" with
          | inl e => inl e
          | inr c => or_get c data "accountId"
          end
      end
  end.

(** Lines 74-78: the timestamp field. *)
Definition timestamp_str_of (data : json) : exn + json :=
  match get data "updatedAt" with
  | inl e => inl e
  | inr a =>
      match or_get a data "timestamp" with
      | inl e => inl e
      | inr b => or_get b data "createdAt"
      end
  end.

(** Lines 87-90 on a string: keep at most six fractional digits. *)
Definition normalize_fraction (timestamp_str : string) : exn + string :=
  if contains dot timestamp_str then
    match split dot timestamp_str with
    | [base; frac] =>
        let frac := (take 6 (rstrip zed frac) ++ "Z")%string in
        inr (base ++ "." ++ frac)%string
    | _ => inl ValueError               (* base, frac = ... does not unpack *)
    end
  else inr timestamp_str.

(** Lines 86-92 on a truthy [timestamp_str].  A number has no [in], a
    list or dict has neither [split] nor [replace]. *)
Definition parse_timestamp (timestamp_str : json) : exn + datetime :=
  match timestamp_str with
  | JStr text =>
      match normalize_fraction text with
      | inl e => inl e
      | inr text =>
          match fromisoformat (replace zed "+00:00" text) with
          | Some timestamp => inr timestamp
          | None => inl ValueError
          end
      end
  | JArr _ | JObj _ => inl AttributeError
  | _ => inl TypeError
  end.

(** [get_session_info]: [(session_id, timestamp)], or [(None, None)]. *)
Definition get_session_info (file_path : string) : M (option (json * datetime)) :=
  try_except
    (data <- open_json file_path ;;
     session_id <- lift (session_id_of data) ;;
     timestamp_str <- lift (timestamp_str_of data) ;;
     if negb (truthy session_id) then
       log WARNING (MsgNoSessionId file_path) ;;
       ret None
     else
       timestamp <-
         (if truthy timestamp_str then lift (parse_timestamp timestamp_str)
          else t <- stat_mtime file_path ;; lift (fromtimestamp t)) ;;
       ret (Some (session_id, timestamp)))
    (fun e =>
       match e with
       | JSONDecodeError => log ERROR (MsgDecodeError file_path)
       | _ => log ERROR (MsgProcessError file_path e)
       end ;;
       ret None).

(** ** Grouping *)

(** [session_map]: a dict in insertion order, from identifier to the
    files carrying it, each with its timestamp, in discovery order. *)
Definition entry : Type := (string * datetime)%type.
Definition session_map : Type := list (json * list entry).

(** [session_map[key].append(e)] on a [defaultdict(list)] whose key is
    hashable. *)
Fixpoint append_to (key : json) (e : entry) (m : session_map) : session_map :=
  match m with
  | [] => [(key, [e])]
  | (k, files) :: rest =>
      if key_eqb k key then (k, files ++ [e]) :: rest
      else (k, files) :: append_to key e rest
  end.

Definition map_append (key : json) (e : entry) (m : session_map) : exn + session_map :=
  if hashable key then inr (append_to key e m) else inl TypeError.

(** Lines 127-131. *)
Fixpoint collect (json_files : list string) (m : session_map) : M session_map :=
  match json_files with
  | [] => ret m
  | file_path :: rest =>
      info <- get_session_info file_path ;;
      m <- match info with
           | Some (session_id, timestamp) =>
               if truthy session_id
               then lift (map_append session_id (file_path, timestamp) m)
               else ret m
           | None => ret m
           end ;;
      collect rest m
  end.

(** ** Keeping the newest *)

(** [files.sort(key=lambda x: x[1], reverse=True)]: a stable sort, newest
    first, comparing timestamps with [<] alone. *)
Fixpoint insert_newest_first (x : entry) (sorted : list entry) : exn + list entry :=
  match sorted with
  | [] => inr [x]
  | y :: rest =>
      match dt_lt (snd x) (snd y) with
      | inl e => inl e
      | inr true =>
          match insert_newest_first x rest with
          | inl e => inl e
          | inr placed => inr (y :: placed)
          end
      | inr false => inr (x :: sorted)
      end
  end.

Fixpoint sort_newest_first (files : list entry) : exn + list entry :=
  match files with
  | [] => inr []
  | x :: rest =>
      match sort_newest_first rest with
      | inl e => inl e
      | inr sorted => insert_newest_first x sorted
      end
  end.

(** Lines 144-150. *)
Fixpoint remove_files (others : list entry) (total_removed : nat) : M nat :=
  match others with
  | [] => ret total_removed
  | (file_path, timestamp) :: rest =>
      total_removed <-
        try_except
          (unlink file_path ;;
           log INFO (MsgRemoved file_path timestamp) ;;
           ret (S total_removed))
          (fun e =>
             log ERROR (MsgRemoveError file_path e) ;;
             ret total_removed) ;;
      remove_files rest total_removed
  end.

(** Lines 135-150. *)
Fixpoint dedup_groups (items : session_map) (total_removed : nat) : M nat :=
  match items with
  | [] => ret total_removed
  | (session_id, files) :: rest =>
      total_removed <-
        (if (1 <? List.length files)%nat then
           sorted <- lift (sort_newest_first files) ;;
           match sorted with
           | newest :: others =>
               log INFO (MsgKeeping session_id (fst newest)) ;;
               remove_files others total_removed
           | [] => raise IndexError
           end
         else ret total_removed) ;;
      dedup_groups rest total_removed
  end.

(** Lines 152-160. *)
Definition report (unique_sessions total_removed : nat) : M unit :=
  if (0 <? total_removed)%nat then
    log INFO MsgSummaryHeader ;;
    log INFO (MsgSummaryUnique unique_sessions) ;;
    log INFO (MsgSummaryRemoved total_removed) ;;
    log INFO MsgSummaryFooter
  else
    log INFO (MsgNoDuplicates unique_sessions).

(** Lines 117-118. *)
Definition list_json_files : M (list string) :=
  found <- glob_json ;;
  ret (filter (fun n => negb (excluded n)) found).

(** The body of the [try] of [scan_and_deduplicate]. *)
Definition scan_body : M unit :=
  present <- dir_exists ;;
  if negb present then
    log ERROR MsgDirMissing
  else
    json_files <- list_json_files ;;
    match json_files with
    | [] => log INFO MsgNoFiles
    | _ =>
        log INFO (MsgAnalysing (List.length json_files)) ;;
        session_map <- collect json_files [] ;;
        total_removed <- dedup_groups session_map 0 ;;
        report (List.length session_map) total_removed
    end.

(** [scan_and_deduplicate]: whatever the body raises is logged. *)
Definition scan_and_deduplicate : M unit :=
  try_except scan_body (fun e => log ERROR (MsgDedupError e)).

(** ** The periodic loop *)

(** Signals are taken to arrive while the program sleeps, which is where
    the loop spends its time; a signal in the middle of a scan is
    outside this model. *)

(** The deduplicator object while it runs: its stop flag, the directory
    it watches, what it has logged and done, and how many one-second
    sleeps it has completed. *)
Record process : Type := mkProcess {
  running : bool;
  sessions : state;
  trace : list event;
  slept : nat
}.

Inductive signal : Type := SIGINT | SIGTERM.

(** What leaves a [try ... except Exception] untouched. *)
Inductive interrupt : Type :=
| SystemExit (code : Z)
| KeyboardInterrupt.

(** How a run of the program ends; [Sleeping] is a loop still going when
    the observation stops. *)
Inductive outcome : Type :=
| Finished (p : process)
| Exited (code : Z) (p : process)
| Sleeping (p : process).

(** A handler either returns, perhaps after changing the program's
    state, or raises. *)
Definition handler : Type := signal -> process -> (interrupt + process).

(** [signal_handler(signum, frame)]: [sys.exit(0)]. *)
Definition signal_handler : handler :=
  fun signum frame => inl (SystemExit 0).

(** For comparison, the handler a stop flag calls for: it clears the
    flag and returns. *)
Definition flag_handler : handler :=
  fun signum frame =>
    inr {| running := false; sessions := sessions frame;
           trace := trace frame; slept := slept frame |}.

(** [signal.default_int_handler], which SIGINT runs where [main] has not
    replaced it: it raises [KeyboardInterrupt]. *)
Definition default_int_handler : handler :=
  fun signum frame => inl KeyboardInterrupt.

Definition say (lv : level) (msg : message) (p : process) : process :=
  {| running := running p; sessions := sessions p;
     trace := trace p ++ [Log lv msg]; slept := slept p |}.

(** [self.scan_and_deduplicate()] inside the running program. *)
Definition scan (p : process) : process :=
  match scan_and_deduplicate (sessions p) with
  | (_, s, evs) =>
      {| running := running p; sessions := s;
         trace := trace p ++ evs; slept := slept p |}
  end.

(** [stop] *)
Definition stop (p : process) : process :=
  say INFO MsgStopping
      {| running := false; sessions := sessions p;
         trace := trace p; slept := slept p |}.

(** [time.sleep(1)].  [arrivals k] is the signal, if any, delivered
    during the sleep that follows [k] completed ones.  The installed
    handler runs at once; when it raises, the sleep is abandoned, when it
    returns, the sleep runs to its end. *)
Definition sleep_one_second (installed : handler) (arrivals : nat -> option signal)
    (p : process) : (interrupt * process) + process :=
  let rested q :=
    {| running := running q; sessions := sessions q;
       trace := trace q; slept := S (slept q) |} in
  match arrivals (slept p) with
  | Some signum =>
      match installed signum p with
      | inl e => inl (e, p)
      | inr q => inr (rested q)
      end
  | None => inr (rested p)
  end.

(** Lines 185-188: [for _ in range(interval_seconds)]. *)
Fixpoint wait (installed : handler) (arrivals : nat -> option signal)
    (seconds : nat) (p : process) : (interrupt * process) + process :=
  match seconds with
  | O => inr p
  | S seconds =>
      if negb (running p) then inr p
      else
        match sleep_one_second installed arrivals p with
        | inl stopped => inl stopped
        | inr q => wait installed arrivals seconds q
        end
  end.

(** Lines 182-196: the [while self.running] loop, observed for at most
    [rounds] iterations. *)
Fixpoint periodic_loop (installed : handler) (arrivals : nat -> option signal)
    (interval_seconds : nat) (rounds : nat) (p : process) : outcome :=
  match rounds with
  | O => Sleeping p
  | S rounds =>
      if negb (running p) then Finished p
      else
        match wait installed arrivals interval_seconds p with
        | inl (KeyboardInterrupt, q) => Finished (stop q)
        | inl (SystemExit code, q) => Exited code q
        | inr q =>
            let q := if running q then scan (say INFO MsgPeriodicCheck q) else q in
            periodic_loop installed arrivals interval_seconds rounds q
        end
  end.

(** [run_periodic_check] *)
Definition run_periodic_check (installed : handler) (arrivals : nat -> option signal)
    (interval_minutes : Z) (rounds : nat) (p : process) : outcome :=
  let interval_seconds := interval_minutes * 60 in
  let p := say INFO (MsgMonitoringStarted interval_minutes) p in
  let p := say INFO MsgMonitoredDirectory p in
  let p := say INFO MsgPressCtrlC p in
  let p := say INFO MsgInitialCheck p in
  let p := scan p in
  periodic_loop installed arrivals (Z.to_nat interval_seconds) rounds p.

(** [SessionDeduplicator(sessions_dir)]: the flag starts set. *)
Definition init (sessions_dir : state) : process :=
  {| running := true; sessions := sessions_dir; trace := []; slept := O |}.

(** [main]: both signals get [signal_handler]; then one scan with
    [--once], the loop without.  A normal return is followed by the
    closing log line. *)
Definition main (once : bool) (interval : Z) (directory : state)
    (arrivals : nat -> option signal) (rounds : nat) : outcome :=
  let deduplicator := init directory in
  if once then
    Finished (say INFO MsgFinished (scan (say INFO MsgSingleRun deduplicator)))
  else
    match run_periodic_check signal_handler arrivals interval rounds deduplicator with
    | Finished p => Finished (say INFO MsgFinished p)
    | Exited code p => Exited code p
    | Sleeping p => Sleeping p
    end.

(** ** Vocabulary for the statements *)

(** The files a scan looks at: [*.json] names outside the exclusion
    set, in listing order. *)
Definition candidates (entries : list file) : list string :=
  filter (fun n => negb (excluded n))
         (filter (fun n => endswith n ".json") (map name entries)).

Definition candidates_of (s : state) : list string :=
  match s with
  | Some entries => candidates entries
  | None => []
  end.

(** What [get_session_info] returns for a path. *)
Definition info_at (s : state) (file_path : string) : option (json * datetime) :=
  match get_session_info file_path s with
  | (inr info, _, _) => info
  | (inl _, _, _) => None
  end.

(** What [get_session_info] logs and does for a path. *)
Definition info_events (s : state) (file_path : string) : list event :=
  snd (get_session_info file_path s).

(** The files of a listing that resolve, each with its identifier. *)
Definition resolved (s : state) (json_files : list string) : list (json * entry) :=
  flat_map (fun n => match info_at s n with
                     | Some (session_id, timestamp) => [(session_id, (n, timestamp))]
                     | None => []
                     end) json_files.

(** The [session_map] after appending a run of resolved files. *)
Definition group (l : list (json * entry)) (m : session_map) : session_map :=
  fold_left (fun m x => append_to (fst x) (snd x) m) l m.

(** The identifier groups a scan of [s] computes (lines 127-131). *)
Definition session_groups (s : state) : session_map :=
  match collect (candidates_of s) [] s with
  | (inr m, _, _) => m
  | (inl _, _, _) => []
  end.

(** The record the two [except] clauses of [get_session_info] write for
    an exception. *)
Definition error_record (file_name : string) (e : exn) : message :=
  match e with
  | JSONDecodeError => MsgDecodeError file_name
  | _ => MsgProcessError file_name e
  end.

(** Every way [get_session_info] can go, as a relation between the file
    found at the path, the result and the events. *)
Inductive session_info (p : string) :
  option file -> option (json * datetime) -> list event -> Prop :=
| SI_missing :
    session_info p None None [Open p; Log ERROR (MsgProcessError p OSError)]
| SI_unreadable f e :
    load f = Unreadable e ->
    session_info p (Some f) None [Open p; Log ERROR (error_record p e)]
| SI_malformed f :
    load f = Malformed ->
    session_info p (Some f) None [Open p; Log ERROR (MsgDecodeError p)]
| SI_not_object f data :
    load f = Document data ->
    session_id_of data = inl AttributeError ->
    session_info p (Some f) None [Open p; Log ERROR (MsgProcessError p AttributeError)]
| SI_no_id f data session_id timestamp_str :
    load f = Document data ->
    session_id_of data = inr session_id ->
    timestamp_str_of data = inr timestamp_str ->
    truthy session_id = false ->
    session_info p (Some f) None [Open p; Log WARNING (MsgNoSessionId p)]
| SI_bad_timestamp f data session_id timestamp_str e :
    load f = Document data ->
    session_id_of data = inr session_id ->
    timestamp_str_of data = inr timestamp_str ->
    truthy session_id = true ->
    truthy timestamp_str = true ->
    parse_timestamp timestamp_str = inl e ->
    session_info p (Some f) None [Open p; Log ERROR (MsgProcessError p e)]
| SI_timestamp f data session_id timestamp_str timestamp :
    load f = Document data ->
    session_id_of data = inr session_id ->
    timestamp_str_of data = inr timestamp_str ->
    truthy session_id = true ->
    truthy timestamp_str = true ->
    parse_timestamp timestamp_str = inr timestamp ->
    session_info p (Some f) (Some (session_id, timestamp)) [Open p]
| SI_mtime f data session_id timestamp_str timestamp :
    load f = Document data ->
    session_id_of data = inr session_id ->
    timestamp_str_of data = inr timestamp_str ->
    truthy session_id = true ->
    truthy timestamp_str = false ->
    fromtimestamp (mtime f) = inr timestamp ->
    session_info p (Some f) (Some (session_id, timestamp)) [Open p; Stat p]
| SI_bad_mtime f data session_id timestamp_str e :
    load f = Document data ->
    session_id_of data = inr session_id ->
    timestamp_str_of data = inr timestamp_str ->
    truthy session_id = true ->
    truthy timestamp_str = false ->
    fromtimestamp (mtime f) = inl e ->
    session_info p (Some f) None [Open p; Stat p; Log ERROR (error_record p e)].

(** How far the reading loop of lines 127-131 gets: it stops after the
    first file whose identifier cannot be a dictionary key. *)
Fixpoint read_prefix (s : state) (json_files : list string) : list string :=
  match json_files with
  | [] => []
  | file_path :: rest =>
      match info_at s file_path with
      | Some (session_id, _) =>
          if hashable session_id then file_path :: read_prefix s rest
          else [file_path]
      | None => file_path :: read_prefix s rest
      end
  end.

(** The second of two scans in a row. *)
Definition rescan (s : state) : (exn + unit) * state * list event :=
  scan_and_deduplicate (snd (fst (scan_and_deduplicate s))).

End Deduplicator.

(** The priority lists of lines 66-78. *)
Definition id_fields : list string :=
  ["activeSessionId"; "sessionId"; "id"; "accountId"].

Definition timestamp_fields : list string :=
  ["updatedAt"; "timestamp"; "createdAt"].

(** "First match wins" read as presence: the value of the first listed
    field that the document has. *)
Fixpoint first_present (members : list (string * json)) (fields : list string)
    : option json :=
  match fields with
  | [] => None
  | field :: rest =>
      match lookup field members with
      | Some v => Some v
      | None => first_present members rest
      end
  end.

(** The file an event touches, if any. *)
Definition touched (ev : event) : option string :=
  match ev with
  | Open p | Stat p | Unlink p => Some p
  | Log _ _ => None
  end.

Definition is_unlink (ev : event) : bool :=
  match ev with
  | Unlink _ => true
  | _ => false
  end.

Definition is_error (ev : event) : bool :=
  match ev with
  | Log ERROR _ => true
  | _ => false
  end.

(** A scan that was aborted, or a deletion that failed. *)
Definition is_failure (ev : event) : bool :=
  match ev with
  | Log ERROR (MsgRemoveError _ _) => true
  | Log ERROR (MsgDedupError _) => true
  | _ => false
  end.

(** The scan ran to its final report and every deletion succeeded. *)
Definition completed_successfully (evs : list event) : bool :=
  forallb (fun ev => negb (is_failure ev)) evs.

(** No record at level [ERROR] at all. *)
Definition reports_no_errors (evs : list event) : bool :=
  forallb (fun ev => negb (is_error ev)) evs.

Definition names (s : state) : list string :=
  match s with
  | Some entries => map name entries
  | None => []
  end.

(** The file is (still) in the directory. *)
Definition present (path : string) (s : state) : Prop := In path (names s).

Definition mentioned (path : string) (removed : list string) : bool :=
  existsb (String.eqb path) removed.

(** The directory without the files of the given names. *)
Definition remove_names (removed : list string) (s : state) : state :=
  option_map (filter (fun f => negb (mentioned (name f) removed))) s.

(** All file names held in a [session_map]. *)
Definition member_names (m : session_map) : list string :=
  flat_map (fun g => map fst (snd g)) m.

(** The files a group loses: everything after the first of the sorted
    list, when the group has more than one member. *)
Definition victims_of (files : list entry) : list string :=
  if (1 <? List.length files)%nat then
    match sort_newest_first files with
    | inr (_ :: others) => map fst others
    | _ => []
    end
  else [].

(** [newest] is the member with the latest timestamp, the first found
    among equals: whatever was found before it is strictly older, and
    nothing found after it is newer. *)
Definition latest_of (files : list entry) (newest : entry) : Prop :=
  exists before after,
    files = before ++ newest :: after /\
    Forall (fun x => dt_lt (snd x) (snd newest) = inr true) before /\
    Forall (fun x => dt_lt (snd newest) (snd x) = inr false) after.

Definition all_victims (m : session_map) : list string :=
  flat_map (fun g => victims_of (snd g)) m.

(** No two groups of a [session_map] have equal keys. *)
Fixpoint distinct_keys (m : session_map) : Prop :=
  match m with
  | [] => True
  | (k, _) :: rest =>
      (forall g, In g rest -> key_eqb k (fst g) = false) /\ distinct_keys rest
  end.

(** An event of the reading phase: it removes nothing, is no failure of
    the scan, and touches only the files listed. *)
Definition quiet_about (allowed : list string) (ev : event) : Prop :=
  is_unlink ev = false /\ is_failure ev = false /\
  forall n, touched ev = Some n -> In n allowed.

Definition within (allowed : list string) (ev : event) : Prop :=
  forall n, touched ev = Some n -> In n allowed.

(** What the deletion phase emits: log records and [unlink] calls. *)
Definition deleting (allowed : list string) (ev : event) : Prop :=
  (forall p, ev <> Open p) /\ within allowed ev.

Definition calm (ev : event) : Prop := is_unlink ev = false /\ is_failure ev = false.

(** Every member came from a resolved file whose identifier equals the
    key of its group, or is that key itself in a group of one. *)
Definition sound (l : list (json * entry)) (m : session_map) : Prop :=
  forall k files e, In (k, files) m -> In e files ->
    exists sid, In (sid, e) l /\
                (key_eqb k sid = true \/ (files = [e] /\ sid = k)).

(** A group the scan could sort, when it had to. *)
Definition sortable (g : json * list entry) : Prop :=
  (1 < List.length (snd g))%nat ->
  exists newest others, sort_newest_first (snd g) = inr (newest :: others).

(** The paths opened, in the order of the calls. *)
Definition opened (evs : list event) : list string :=
  flat_map (fun ev => match ev with Open p => [p] | _ => [] end) evs.

(** The scan was cut short by an exception. *)
Definition aborted (evs : list event) : bool :=
  existsb (fun ev => match ev with
                     | Log ERROR (MsgDedupError _) => true
                     | _ => false
                     end) evs.

(** Whether [unlink] goes through for a path of the listing. *)
Definition can_unlink (entries : list file) (path : string) : bool :=
  match find (has_name path) entries with
  | Some f => unlinkable f
  | None => false
  end.

(** All timestamps of a group are naive, or all are aware. *)
Definition uniform (files : list entry) : Prop :=
  forall x y, In x files -> In y files -> tz_aware (snd x) = tz_aware (snd y).

(** ** Sample data *)

(** A [fromisoformat] that knows three instants, and a machine whose
    local time is UTC: [datetime.fromtimestamp] raises [ValueError]
    outside the years 1 to 9999. *)
Definition sample_fromisoformat (text : string) : option datetime :=
  if (text =? "2024-01-01T00:00:00+00:00")%string
  then Some {| tz_aware := true; ticks := 1704067200000000 |}
  else if (text =? "2024-01-02T00:00:00+00:00")%string
  then Some {| tz_aware := true; ticks := 1704153600000000 |}
  else if (text =? "2024-01-03T00:00:00")%string
  then Some {| tz_aware := false; ticks := 1704240000000000 |}
  else None.

Definition sample_localtime (t : Z) : exn + Z :=
  if (-62135596800000000 <=? t) && (t <? 253402300800000000) then inr t
  else inl ValueError.

Definition session_document (session_id timestamp : string) : loaded :=
  Document (JObj [("sessionId", JStr session_id); ("updatedAt", JStr timestamp)]).

(** Two versions of session "x", an unparsable file, an excluded file
    that also carries "x", and a session without any timestamp. *)
Definition sample_directory : list file :=
  [ {| name := "a.json"; load := session_document "x" "2024-01-01T00:00:00Z";
       mtime := 1704070000000000; unlinkable := true |};
    {| name := "b.json"; load := session_document "x" "2024-01-02T00:00:00Z";
       mtime := 1704160000000000; unlinkable := true |};
    {| name := "broken.json"; load := Malformed;
       mtime := 1704160000000000; unlinkable := true |};
    {| name := "current-session.json";
       load := session_document "x" "2024-01-01T00:00:00Z";
       mtime := 1704070000000000; unlinkable := true |};
    {| name := "plain.json"; load := Document (JObj [("id", JStr "y")]);
       mtime := 1704250000000000; unlinkable := true |} ].

(** Two versions of session "x": one stamped in UTC, one without any
    timestamp field. *)
Definition mixed_directory : list file :=
  [ {| name := "a.json"; load := session_document "x" "2024-01-01T00:00:00Z";
       mtime := 1704070000000000; unlinkable := true |};
    {| name := "c.json"; load := Document (JObj [("sessionId", JStr "x")]);
       mtime := 1704250000000000; unlinkable := true |} ].

Definition broken_directory : list file :=
  [ {| name := "broken.json"; load := Malformed;
       mtime := 1704160000000000; unlinkable := true |} ].

(** An empty first field in front of a filled second one. *)
Definition shadowed_members : list (string * json) :=
  [("activeSessionId", JStr ""); ("sessionId", JStr "abc")].

Definition no_signal (k : nat) : option signal := None.

(** A signal during the third one-second sleep. *)
Definition third_second (k : nat) : option signal :=
  if (k =? 2)%nat then Some SIGTERM else None.

(** Ctrl-C during the third one-second sleep. *)
Definition ctrl_c_third_second (k : nat) : option signal :=
  if (k =? 2)%nat then Some SIGINT else None.

(** Three versions of session "x", the oldest of them protected against
    removal; a file that is not [*.json]; a file stamped with a number
    of seconds; and a file whose timestamp has two dots. *)
Definition crowded_directory : list file :=
  [ {| name := "a.json"; load := session_document "x" "2024-01-01T00:00:00Z";
       mtime := 1704070000000000; unlinkable := true |};
    {| name := "b.json"; load := session_document "x" "2024-01-02T00:00:00Z";
       mtime := 1704160000000000; unlinkable := true |};
    {| name := "locked.json"; load := session_document "x" "2024-01-01T00:00:00Z";
       mtime := 1704070000000000; unlinkable := false |};
    {| name := "notes.txt"; load := session_document "x" "2024-01-01T00:00:00Z";
       mtime := 1704070000000000; unlinkable := true |};
    {| name := "epoch.json";
       load := Document (JObj [("sessionId", JStr "x"); ("timestamp", JInt 1704067200)]);
       mtime := 1704070000000000; unlinkable := true |};
    {| name := "dots.json";
       load := Document (JObj [("sessionId", JStr "x");
                               ("updatedAt", JStr "2024.01.01T00:00:00Z")]);
       mtime := 1704070000000000; unlinkable := true |} ].

(** The versions of session "x" found there, as a scan reads them. *)
Definition crowded_versions : list entry :=
  [ ("a.json", {| tz_aware := true; ticks := 1704067200000000 |});
    ("b.json", {| tz_aware := true; ticks := 1704153600000000 |});
    ("locked.json", {| tz_aware := true; ticks := 1704067200000000 |}) ].

(** A session without timestamp fields whose modification time is the
    first instant of the year 10000. *)
Definition late_directory : list file :=
  [ {| name := "late.json"; load := Document (JObj [("id", JStr "z")]);
       mtime := 253402300800000000; unlinkable := true |} ].

(** A session whose identifier is a list, in front of a regular one. *)
Definition listed_directory : list file :=
  [ {| name := "l.json"; load := Document (JObj [("sessionId", JArr [JStr "x"])]);
       mtime := 1704070000000000; unlinkable := true |};
    {| name := "a.json"; load := session_document "x" "2024-01-01T00:00:00Z";
       mtime := 1704070000000000; unlinkable := true |} ].

(** The same account number written as an integer and as a float. *)
Definition numeric_directory : list file :=
  [ {| name := "one.json"; load := Document (JObj [("accountId", JInt 1)]);
       mtime := 1704070000000000; unlinkable := true |};
    {| name := "uno.json"; load := Document (JObj [("accountId", JFloat (FFin 1))]);
       mtime := 1704160000000000; unlinkable := true |} ].

(** Two files whose identifier is the literal NaN. *)
Definition nan_directory : list file :=
  [ {| name := "n1.json"; load := Document (JObj [("id", JFloat FNan)]);
       mtime := 1704070000000000; unlinkable := true |};
    {| name := "n2.json"; load := Document (JObj [("id", JFloat FNan)]);
       mtime := 1704160000000000; unlinkable := true |} ].

(** A scan of a directory on the sample machine. *)
Definition sample_scan (entries : list file) : (exn + unit) * state * list event :=
  scan_and_deduplicate sample_fromisoformat sample_localtime (Some entries).

End Dedup.

(* ===================================================================== *)
(** * The icon generator                                                  *)
(* ===================================================================== *)

Module Icons.

(** [size / 128], [y / size] and the like are true divisions; they are
    carried out here on rationals.  [int] rounds toward zero. *)
Definition py_int (q : Q) : Z := Z.quot (Qnum q) (Z.pos (Qden q)).

Definition rgba : Type := (Z * Z * Z * Z)%type.

Inductive font : Type :=
| TrueType (font_file : string) (font_size : Z)
| DefaultFont.

(** The calls made on [draw], with the arguments they receive. *)
Inductive shape : Type :=
| Rectangle (x0 y0 x1 y1 : Z) (fill : rgba)
| Ellipse (x0 y0 x1 y1 : Z) (outline : rgba) (line_width : Z)
| Text (x y : Z) (text : string) (fill : rgba) (face : font).

(** An image: its pixel dimensions and what has been drawn on the
    transparent canvas, first call first. *)
Record image : Type := mkImage {
  width : Z;
  height : Z;
  drawn : list shape
}.

(** One [img.save(filename, format)]. *)
Record saved : Type := mkSaved {
  filename : string;
  format : string;
  picture : image
}.

Definition is_text (sh : shape) : bool :=
  match sh with
  | Text _ _ _ _ _ => true
  | _ => false
  end.

Definition has_label (img : image) : bool := existsb is_text (drawn img).

Definition white : rgba := (255, 255, 255, 255).

(** [Image.new('RGBA', (size, size), (0, 0, 0, 0))] *)
Definition new_image (size : Z) : image :=
  {| width := size; height := size; drawn := [] |}.

Definition draw (sh : shape) (img : image) : image :=
  {| width := width img; height := height img; drawn := drawn img ++ [sh] |}.

(** [range(size)] *)
Definition range (size : Z) : list Z := map Z.of_nat (seq 0 (Z.to_nat size)).

Section IconGenerator.

(** [ImageFont.truetype(name, size)] finds the font file or raises. *)
Variable truetype_found : string -> bool.

(** [ImageFont.load_default()] returns a font or raises. *)
Variable default_font_loads : bool.

(** [draw.textbbox((0, 0), text, font=font)], [None] when it raises. *)
Variable textbbox : font -> string -> option (Z * Z * Z * Z).

(** Whether [draw.text] with this font goes through. *)
Variable text_draws : font -> string -> bool.

Definition truetype (font_file : string) (font_size : Z) : option font :=
  if truetype_found font_file then Some (TrueType font_file font_size) else None.

Definition load_default : option font :=
  if default_font_loads then Some DefaultFont else None.

(** Lines 16-21: one rectangle per row. *)
Definition gradient_row (size y : Z) : shape :=
  let r := py_int (102 + (118 - 102) * inject_Z y / inject_Z size)%Q in
  let g := py_int (126 - (126 - 75) * inject_Z y / inject_Z size)%Q in
  let b := py_int (234 - (234 - 162) * inject_Z y / inject_Z size)%Q in
  Rectangle 0 y size (y + 1) (r, g, b, 255).

Definition draw_gradient (size : Z) (img : image) : image :=
  fold_left (fun img y => draw (gradient_row size y) img) (range size) img.

(** Lines 24-61: the key. *)
Definition draw_key (size : Z) (img : image) : image :=
  let center_x := size / 2 in
  let center_y := size / 2 in
  let scale := (inject_Z size / 128)%Q in
  let circle_radius := py_int (20 * scale)%Q in
  let circle_width := py_int (4 * scale)%Q in
  let img :=
    draw (Ellipse (center_x - circle_radius)
                  (center_y - circle_radius - py_int (10 * scale)%Q)
                  (center_x + circle_radius)
                  (center_y + circle_radius - py_int (10 * scale)%Q)
                  white circle_width) img in
  let shaft_width := py_int (8 * scale)%Q in
  let shaft_length := py_int (30 * scale)%Q in
  let img :=
    draw (Rectangle (center_x - shaft_width / 2)
                    (center_y - py_int (10 * scale)%Q)
                    (center_x + shaft_width / 2)
                    (center_y + shaft_length)
                    white) img in
  let teeth_width := py_int (4 * scale)%Q in
  let teeth_positions :=
    [center_y + shaft_length - py_int (10 * scale)%Q;
     center_y + shaft_length - py_int (5 * scale)%Q] in
  fold_left
    (fun img pos =>
       draw (Rectangle (center_x + shaft_width / 2) pos
                       (center_x + shaft_width / 2 + teeth_width)
                       (pos + py_int (3 * scale)%Q)
                       white) img)
    teeth_positions img.

(** Lines 69-78: the nested font fallbacks. *)
Definition choose_font (font_size : Z) : option font :=
  match truetype "arial.ttf" font_size with
  | Some face => Some face
  | None =>
      match truetype "Arial.ttf" font_size with
      | Some face => Some face
      | None => load_default
      end
  end.

(** Lines 66-87, the body of the outer [try]: [None] when anything in
    it raises. *)
Definition label (size : Z) : option shape :=
  let center_x := size / 2 in
  let center_y := size / 2 in
  let scale := (inject_Z size / 128)%Q in
  let font_size := py_int (14 * scale)%Q in
  match choose_font font_size with
  | None => None
  | Some face =>
      let text := "S" in
      match textbbox face text with
      | None => None
      | Some (bbox0, bbox1, bbox2, bbox3) =>
          let text_width := bbox2 - bbox0 in
          let text_height := bbox3 - bbox1 in
          let text_x := center_x - text_width / 2 in
          let text_y := center_y - py_int (10 * scale)%Q - text_height / 2 in
          if text_draws face text
          then Some (Text text_x text_y text (102, 126, 234, 255) face)
          else None
      end
  end.

(** Lines 64-89: [except: pass] leaves the image as it was. *)
Definition draw_label (size : Z) (img : image) : image :=
  if 48 <=? size then
    match label size with
    | Some sh => draw sh img
    | None => img
    end
  else img.

(** [create_icon(size, filename)]: the file it saves. *)
Definition create_icon (size : Z) (filename : string) : saved :=
  let img := new_image size in
  let img := draw_gradient size img in
  let img := draw_key size img in
  let img := draw_label size img in
  {| filename := filename; format := "PNG"; picture := img |}.

Definition icons : list (Z * string) :=
  [(16, "icon16.png"); (48, "icon48.png"); (128, "icon128.png")].

(** [main]: the files saved, in order. *)
Definition main : list saved :=
  map (fun icon => create_icon (fst icon) (snd icon)) icons.

(** The icon as it is drawn before any text is attempted. *)
Definition unlabelled (size : Z) : image :=
  draw_key size (draw_gradient size (new_image size)).

End IconGenerator.

(** Drawing never resizes the canvas. *)
Definition same_size (a b : image) : Prop := width a = width b /\ height a = height b.

(** A system without any usable font. *)
Definition no_truetype (font_file : string) : bool := false.
Definition no_textbbox (face : font) (text : string) : option (Z * Z * Z * Z) := None.
Definition no_text (face : font) (text : string) : bool := false.

(** A rectangle or ellipse whose corners are in order and on the
    canvas. *)
Definition within_canvas (size : Z) (sh : shape) : bool :=
  match sh with
  | Rectangle x0 y0 x1 y1 _ | Ellipse x0 y0 x1 y1 _ _ =>
      (0 <=? x0) && (x0 <=? x1) && (x1 <=? size) &&
      (0 <=? y0) && (y0 <=? y1) && (y1 <=? size)
  | Text _ _ _ _ _ => true
  end.

End Icons.

(* ===================================================================== *)
(** * Facts about dictionary keys                                         *)
(* ===================================================================== *)

Module PyFacts.
Import Py.

Lemma Qeq_bool_sym p q : Qeq_bool p q = Qeq_bool q p.
Proof.
  destruct (Qeq_bool p q) eqn:E, (Qeq_bool q p) eqn:F; try reflexivity.
  - apply Qeq_bool_iff in E. symmetry in E. apply Qeq_bool_iff in E. congruence.
  - apply Qeq_bool_iff in F. symmetry in F. apply Qeq_bool_iff in F. congruence.
Qed.

Lemma float_eqb_sym a b : float_eqb a b = float_eqb b a.
Proof.
  destruct a as [|s|p], b as [|t|q]; simpl; try reflexivity.
  - destruct s, t; reflexivity.
  - apply Qeq_bool_sym.
Qed.

Lemma float_eqb_trans a b c :
  float_eqb a b = true -> float_eqb b c = true -> float_eqb a c = true.
Proof.
  destruct a as [|s|p], b as [|t|q], c as [|u|r]; simpl; try discriminate.
  - reflexivity.
  - destruct s, t, u; simpl; congruence.
  - rewrite !Qeq_bool_iff. intros H1 H2. now rewrite H1.
Qed.

(** Key equality through the numeric reading. *)
Lemma key_eqb_numeric a b x y :
  numeric a = Some x -> numeric b = Some y -> key_eqb a b = float_eqb x y.
Proof.
  destruct a, b; simpl; intros Ha Hb; try discriminate;
    injection Ha as <-; injection Hb as <-; reflexivity.
Qed.

Lemma key_eqb_sym a b : key_eqb a b = key_eqb b a.
Proof.
  destruct (numeric a) as [x|] eqn:Ha, (numeric b) as [y|] eqn:Hb.
  - rewrite (key_eqb_numeric _ _ _ _ Ha Hb), (key_eqb_numeric _ _ _ _ Hb Ha).
    apply float_eqb_sym.
  - destruct a, b; simpl in *; try discriminate; reflexivity.
  - destruct a, b; simpl in *; try discriminate; reflexivity.
  - destruct a, b; simpl in *; try discriminate; try reflexivity.
    apply String.eqb_sym.
Qed.

Lemma key_eqb_trans a b c :
  key_eqb a b = true -> key_eqb b c = true -> key_eqb a c = true.
Proof.
  destruct (numeric b) as [y|] eqn:Hb.
  - destruct (numeric a) as [x|] eqn:Ha;
      [|destruct a, b; simpl in *; discriminate].
    destruct (numeric c) as [z|] eqn:Hc;
      [|destruct b, c; simpl in *; discriminate].
    rewrite (key_eqb_numeric _ _ _ _ Ha Hb), (key_eqb_numeric _ _ _ _ Hb Hc),
      (key_eqb_numeric _ _ _ _ Ha Hc).
    apply float_eqb_trans.
  - destruct a, b; simpl in *; try discriminate; destruct c; simpl; try discriminate; auto.
    rewrite !String.eqb_eq. congruence.
Qed.

(** A key equal to anything is equal to itself. *)
Lemma key_eqb_refl_of a b : key_eqb a b = true -> key_eqb a a = true.
Proof.
  intros H. apply (key_eqb_trans a b a H). now rewrite key_eqb_sym.
Qed.
End PyFacts.

(* ===================================================================== *)
(** * Facts about the session deduplicator                                *)
(* ===================================================================== *)

Module DedupFacts.
Import Py Dedup PyFacts.
Local Open Scope dedup_scope.

Section Facts.

Variable fromisoformat : string -> option datetime.
Variable localtime : Z -> exn + Z.

Local Abbreviation get_session_info := (Dedup.get_session_info fromisoformat localtime).
Local Abbreviation session_info := (Dedup.session_info fromisoformat localtime).
Local Abbreviation info_at := (Dedup.info_at fromisoformat localtime).
Local Abbreviation info_events := (Dedup.info_events fromisoformat localtime).
Local Abbreviation resolved := (Dedup.resolved fromisoformat localtime).
Local Abbreviation collect := (Dedup.collect fromisoformat localtime).
Local Abbreviation session_groups := (Dedup.session_groups fromisoformat localtime).
Local Abbreviation scan_body := (Dedup.scan_body fromisoformat localtime).
Local Abbreviation scan_and_deduplicate := (Dedup.scan_and_deduplicate fromisoformat localtime).

(** *** [get_session_info] *)

Ltac unfold_info :=
  unfold Dedup.get_session_info, try_except, bind, open_json, stat_mtime,
    lift, log, emit, ret, raise.

(** The identifier chain fails only on a document that is not an object. *)
Lemma session_id_of_error data e : session_id_of data = inl e -> e = AttributeError.
Proof.
  unfold session_id_of, or_get, get.
  destruct data; intros H; try (injection H as <-; reflexivity).
  repeat match type of H with
         | context [if ?c then _ else _] => destruct c
         end; discriminate.
Qed.

Lemma timestamp_str_of_error data e : timestamp_str_of data = inl e -> e = AttributeError.
Proof.
  unfold timestamp_str_of, or_get, get.
  destruct data; intros H; try (injection H as <-; reflexivity).
  repeat match type of H with
         | context [if ?c then _ else _] => destruct c
         end; discriminate.
Qed.

Lemma timestamp_str_of_error_id data e :
  timestamp_str_of data = inl e -> session_id_of data = inl AttributeError.
Proof.
  unfold timestamp_str_of, session_id_of, or_get, get.
  destruct data; intros H; try reflexivity.
  repeat match type of H with
         | context [if ?c then _ else _] => destruct c
         end; discriminate.
Qed.

Lemma parse_timestamp_error v e :
  parse_timestamp fromisoformat v = inl e -> e <> JSONDecodeError.
Proof.
  unfold parse_timestamp, normalize_fraction.
  destruct v; intros H; try (injection H as <-; discriminate).
  destruct (contains dot s).
  - destruct (split dot s) as [|base [|frac [|x l]]];
      try (injection H as <-; discriminate).
    destruct (fromisoformat _); [discriminate|injection H as <-; discriminate].
  - destruct (fromisoformat _); [discriminate|injection H as <-; discriminate].
Qed.

Lemma get_session_info_cases p s :
  exists info evs,
    get_session_info p s = (inr info, s, evs) /\
    session_info p (find_file p s) info evs.
Proof.
  unfold_info.
  destruct (find_file p s) as [f|] eqn:F.
  2:{ eexists; eexists; split; [reflexivity|constructor]. }
  destruct (load f) as [e| |data] eqn:L.
  1:{ exists None, [Open p; Log ERROR (error_record p e)].
      split; [destruct e; reflexivity|now constructor]. }
  1:{ eexists; eexists; split; [reflexivity|now constructor]. }
  destruct (session_id_of data) as [e|sid] eqn:I.
  { pose proof (session_id_of_error _ _ I) as ->.
    eexists; eexists; split; [reflexivity|]. eapply SI_not_object; eauto. }
  destruct (timestamp_str_of data) as [e|tstr] eqn:T.
  { rewrite (timestamp_str_of_error_id _ _ T) in I. discriminate. }
  destruct (truthy sid) eqn:TS; simpl.
  2:{ eexists; eexists; split; [reflexivity|]. eapply SI_no_id; eauto. }
  destruct (truthy tstr) eqn:TT; simpl.
  - destruct (parse_timestamp fromisoformat tstr) as [e|ts] eqn:P.
    + pose proof (parse_timestamp_error _ _ P) as NE.
      destruct e; try congruence;
        (eexists; eexists; split; [reflexivity|]; eapply SI_bad_timestamp; eauto).
    + eexists; eexists; split; [reflexivity|]. eapply SI_timestamp; eauto.
  - rewrite F. destruct (fromtimestamp localtime (mtime f)) as [e|ts] eqn:Ft.
    + exists None, [Open p; Stat p; Log ERROR (error_record p e)].
      split; [destruct e; reflexivity|]. eapply SI_bad_mtime; eauto.
    + eexists; eexists; split; [reflexivity|]. eapply SI_mtime; eauto.
Qed.

Lemma session_info_fun p fo info evs info' evs' :
  session_info p fo info evs -> session_info p fo info' evs' ->
  info = info' /\ evs = evs'.
Proof.
  intros H H'.
  inversion H; subst; inversion H'; subst;
    repeat match goal with
           | A : load ?f = _, B : load ?f = _ |- _ =>
               rewrite A in B; first [discriminate B | injection B as <-]
           | A : session_id_of ?d = _, B : session_id_of ?d = _ |- _ =>
               rewrite A in B; first [discriminate B | injection B as <-]
           | A : timestamp_str_of ?d = _, B : timestamp_str_of ?d = _ |- _ =>
               rewrite A in B; first [discriminate B | injection B as <-]
           | A : parse_timestamp _ ?d = _, B : parse_timestamp _ ?d = _ |- _ =>
               rewrite A in B; first [discriminate B | injection B as <-]
           | A : fromtimestamp _ ?t = _, B : fromtimestamp _ ?t = _ |- _ =>
               rewrite A in B; first [discriminate B | injection B as <-]
           end;
    try congruence; split; reflexivity.
Qed.

Lemma get_session_info_run p s :
  get_session_info p s = (inr (info_at s p), s, info_events s p).
Proof.
  unfold Dedup.info_at, Dedup.info_events.
  destruct (get_session_info_cases p s) as (info & evs & -> & _). reflexivity.
Qed.

Lemma session_info_at p s : session_info p (find_file p s) (info_at s p) (info_events s p).
Proof.
  destruct (get_session_info_cases p s) as (info & evs & E & H).
  rewrite get_session_info_run in E. now injection E as -> ->.
Qed.

(** The outcome depends on the file found at the path alone. *)
Lemma info_frame p s s' :
  find_file p s = find_file p s' ->
  info_at s p = info_at s' p /\ info_events s p = info_events s' p.
Proof.
  intros E. pose proof (session_info_at p s) as H. pose proof (session_info_at p s') as H'.
  rewrite E in H. exact (session_info_fun _ _ _ _ _ _ H H').
Qed.

Lemma session_info_truthy p fo info evs session_id timestamp :
  session_info p fo info evs -> info = Some (session_id, timestamp) ->
  truthy session_id = true /\ exists f, fo = Some f.
Proof.
  intros H E. destruct H; try discriminate; injection E as <- <-; eauto.
Qed.

Lemma info_at_truthy p s session_id timestamp :
  info_at s p = Some (session_id, timestamp) -> truthy session_id = true.
Proof.
  intros E. exact (proj1 (session_info_truthy _ _ _ _ _ _ (session_info_at p s) E)).
Qed.

Lemma info_at_found p s x : info_at s p = Some x -> exists f, find_file p s = Some f.
Proof.
  destruct x as [session_id timestamp]. intros E.
  exact (proj2 (session_info_truthy _ _ _ _ _ _ (session_info_at p s) E)).
Qed.

Lemma quiet_open p l : In p l -> quiet_about l (Open p).
Proof. intros H. repeat split. intros n E. now injection E as <-. Qed.

Lemma quiet_stat p l : In p l -> quiet_about l (Stat p).
Proof. intros H. repeat split. intros n E. now injection E as <-. Qed.

Lemma quiet_log lv msg l : is_failure (Log lv msg) = false -> quiet_about l (Log lv msg).
Proof. intros H. repeat split; [assumption|]. intros n E. discriminate. Qed.

Lemma quiet_about_incl l l' ev : incl l l' -> quiet_about l ev -> quiet_about l' ev.
Proof. intros I (U & F & T). repeat split; auto. Qed.

Lemma error_record_quiet p e : is_failure (Log ERROR (error_record p e)) = false.
Proof. destruct e; reflexivity. Qed.

Lemma session_info_quiet p fo info evs :
  session_info p fo info evs -> Forall (quiet_about [p]) evs /\ In (Open p) evs.
Proof.
  intros H. destruct H; (split; [|now left]);
    repeat first [ apply Forall_nil
                 | apply Forall_cons
                 | apply quiet_open; now left
                 | apply quiet_stat; now left
                 | apply quiet_log; first [reflexivity | apply error_record_quiet] ].
Qed.

Lemma info_events_quiet p s : Forall (quiet_about [p]) (info_events s p).
Proof. exact (proj1 (session_info_quiet _ _ _ _ (session_info_at p s))). Qed.

Lemma info_events_open p s : In (Open p) (info_events s p).
Proof. exact (proj2 (session_info_quiet _ _ _ _ (session_info_at p s))). Qed.

Lemma info_events_open_only p s q : In (Open q) (info_events s p) -> q = p.
Proof.
  intros H. pose proof (info_events_quiet p s) as Q.
  rewrite Forall_forall in Q. destruct (Q _ H) as (_ & _ & T).
  destruct (T q eq_refl) as [E|[]]. now symmetry.
Qed.

(** *** Collecting the groups *)

Lemma group_app l l' m : group (l ++ l') m = group l' (group l m).
Proof. unfold group. apply fold_left_app. Qed.

Lemma collect_run names : forall m s,
  exists evs,
    collect names m s =
      (if forallb (fun x => hashable (fst x)) (resolved s names)
       then inr (group (resolved s names) m) else inl TypeError, s, evs) /\
    Forall (quiet_about names) evs /\
    (forall p, In (Open p) evs -> incl (info_events s p) evs) /\
    (forallb (fun x => hashable (fst x)) (resolved s names) = true ->
     forall p, In p names -> In (Open p) evs).
Proof.
  induction names as [|p rest IH]; intros m s.
  - exists []. repeat split; [constructor|intros p []|intros _ p []].
  - cbn [Dedup.collect]. unfold bind at 1. rewrite get_session_info_run.
    assert (Q : Forall (quiet_about (p :: rest)) (info_events s p)).
    { eapply Forall_impl; [|apply info_events_quiet].
      intros ev. apply quiet_about_incl. intros x [<-|[]]. now left. }
    assert (O : forall q, In (Open q) (info_events s p) ->
                          incl (info_events s q) (info_events s p)).
    { intros q Hq. rewrite (info_events_open_only _ _ _ Hq). apply incl_refl. }
    unfold Dedup.resolved. cbn [flat_map]. fold (resolved s rest).
    destruct (info_at s p) as [[sid ts]|] eqn:E.
    + rewrite (info_at_truthy _ _ _ _ E).
      unfold bind, lift, map_append. cbn [app forallb fst].
      destruct (hashable sid); cbn [andb ret raise].
      * destruct (IH (append_to sid (p, ts) m) s) as (evs & -> & Qr & Or & Ar).
        exists (info_events s p ++ [] ++ evs).
        refine (conj eq_refl (conj _ (conj _ _))).
        -- apply Forall_app. split; [exact Q|].
           eapply Forall_impl; [|exact Qr]. intros ev. apply quiet_about_incl.
           intros x Hx. now right.
        -- intros q Hq. apply in_app_or in Hq. destruct Hq as [Hq|Hq].
           ++ apply incl_appl. now apply O.
           ++ apply incl_appr. now apply Or.
        -- intros H q [<-|Hq]; apply in_or_app.
           ++ left. apply info_events_open.
           ++ right. now apply Ar.
      * exists (info_events s p ++ []).
        refine (conj eq_refl (conj _ (conj _ _))).
        -- rewrite app_nil_r. exact Q.
        -- intros q Hq. rewrite app_nil_r in *. now apply O.
        -- discriminate.
    + unfold bind, ret. cbn [app].
      destruct (IH m s) as (evs & -> & Qr & Or & Ar).
      exists (info_events s p ++ [] ++ evs).
      refine (conj eq_refl (conj _ (conj _ _))).
      * apply Forall_app. split; [exact Q|].
        eapply Forall_impl; [|exact Qr]. intros ev. apply quiet_about_incl.
        intros x Hx. now right.
      * intros q Hq. apply in_app_or in Hq. destruct Hq as [Hq|Hq].
        -- apply incl_appl. now apply O.
        -- apply incl_appr. now apply Or.
      * intros H q [<-|Hq]; apply in_or_app.
        -- left. apply info_events_open.
        -- right. now apply Ar.
Qed.

(** When the loop completes, the groups are those of the resolved files. *)
Lemma session_groups_eq s :
  session_groups s =
    if forallb (fun x => hashable (fst x)) (resolved s (candidates_of s))
    then group (resolved s (candidates_of s)) [] else [].
Proof.
  unfold Dedup.session_groups.
  destruct (collect_run (candidates_of s) [] s) as (evs & -> & _).
  now destruct (forallb _ _).
Qed.

(** *** The shape of a [session_map] *)

Lemma append_to_In key e m k files :
  In (k, files) (append_to key e m) ->
  In (k, files) m \/
  (exists files0, In (k, files0) m /\ key_eqb k key = true /\ files = files0 ++ [e]) \/
  (k, files) = (key, [e]).
Proof.
  induction m as [|[k0 files0] rest IH]; simpl.
  - intros [H|[]]. right. right. now symmetry.
  - destruct (key_eqb k0 key) eqn:K; simpl.
    + intros [H|H].
      * injection H as <- <-. right. left. exists files0. auto.
      * left. now right.
    + intros [H|H].
      * left. now left.
      * destruct (IH H) as [H1|[(f0 & H1 & H2 & H3)|H1]]; auto.
        right. left. exists f0. auto.
Qed.

Lemma append_to_keys key e m g :
  In g (append_to key e m) -> (exists g0, In g0 m /\ fst g0 = fst g) \/ fst g = key.
Proof.
  destruct g as [k files]. intros H.
  destruct (append_to_In _ _ _ _ _ H) as [H1|[(f0 & H1 & _ & _)|H1]].
  - left. exists (k, files). auto.
  - left. exists (k, f0). auto.
  - right. now injection H1 as -> _.
Qed.

Lemma member_names_append_to key e m :
  Permutation (member_names (append_to key e m)) (fst e :: member_names m).
Proof.
  unfold member_names.
  induction m as [|[k0 files0] rest IH]; simpl.
  - reflexivity.
  - destruct (key_eqb k0 key); simpl.
    + rewrite map_app. simpl. rewrite <- app_assoc. simpl.
      symmetry. apply Permutation_middle.
    + rewrite IH. symmetry. apply Permutation_middle.
Qed.

Lemma member_names_group l : forall m,
  Permutation (member_names (group l m))
              (member_names m ++ map (fun x => fst (snd x)) l).
Proof.
  induction l as [|x l IH]; intros m; simpl.
  - now rewrite app_nil_r.
  - unfold group in *. simpl. rewrite IH, member_names_append_to.
    simpl. apply Permutation_middle.
Qed.

(** Groups are never empty. *)
Lemma append_to_nonempty key e m :
  Forall (fun g => snd g <> []) m -> Forall (fun g => snd g <> []) (append_to key e m).
Proof.
  intros H. rewrite Forall_forall in *. intros [k files] Hg.
  destruct (append_to_In _ _ _ _ _ Hg) as [H1|[(f0 & H1 & _ & ->)|H1]]; simpl.
  - exact (H _ H1).
  - now destruct f0.
  - injection H1 as _ ->. discriminate.
Qed.

Lemma group_nonempty l : forall m,
  Forall (fun g => snd g <> []) m -> Forall (fun g => snd g <> []) (group l m).
Proof.
  induction l as [|x l IH]; intros m H; [exact H|].
  unfold group in *. simpl. apply IH. now apply append_to_nonempty.
Qed.

Lemma append_to_sound l m sid e :
  sound l m -> sound (l ++ [(sid, e)]) (append_to sid e m).
Proof.
  intros S k files e' Hg He.
  destruct (append_to_In _ _ _ _ _ Hg) as [H1|[(f0 & H1 & K & ->)|H1]].
  - destruct (S _ _ _ H1 He) as (sid' & I & R). exists sid'. split; [|exact R].
    apply in_or_app. now left.
  - apply in_app_or in He. destruct He as [He|[<-|[]]].
    + destruct (S _ _ _ H1 He) as (sid' & I & R). exists sid'. split.
      * apply in_or_app. now left.
      * left. destruct R as [R|[_ ->]]; [exact R|].
        exact (key_eqb_refl_of _ _ K).
    + exists sid. split; [|now left]. apply in_or_app. right. now left.
  - injection H1 as -> ->. destruct He as [<-|[]].
    exists sid. split; [|now right]. apply in_or_app. right. now left.
Qed.

Lemma group_sound l : forall l0 m, sound l0 m -> sound (l0 ++ l) (group l m).
Proof.
  induction l as [|[sid e] l IH]; intros l0 m S.
  - now rewrite app_nil_r.
  - unfold group in *. simpl.
    replace (l0 ++ (sid, e) :: l) with ((l0 ++ [(sid, e)]) ++ l)
      by (rewrite <- app_assoc; reflexivity).
    apply IH. now apply append_to_sound.
Qed.

Lemma group_sound_nil l : sound l (group l []).
Proof. apply (group_sound l [] []). intros k files e []. Qed.

(** Keys stay pairwise different. *)
Lemma append_to_distinct key e m : distinct_keys m -> distinct_keys (append_to key e m).
Proof.
  induction m as [|[k0 files0] rest IH]; simpl.
  - intros _. split; [intros g []|exact I].
  - intros [H D]. destruct (key_eqb k0 key) eqn:K; simpl.
    + split; assumption.
    + split; [|now apply IH].
      intros g Hg. destruct (append_to_keys _ _ _ _ Hg) as [(g0 & I0 & E)|E].
      * etransitivity; [|exact (H _ I0)]. f_equal. symmetry. exact E.
      * etransitivity; [|exact K]. f_equal. exact E.
Qed.

Lemma group_distinct l : forall m, distinct_keys m -> distinct_keys (group l m).
Proof.
  induction l as [|x l IH]; intros m D; [exact D|].
  unfold group in *. simpl. apply IH. now apply append_to_distinct.
Qed.

Lemma distinct_keys_inj m g g' :
  distinct_keys m -> In g m -> In g' m ->
  key_eqb (fst g) (fst g') = true -> g = g'.
Proof.
  induction m as [|[k0 files0] rest IH]; simpl; [intros _ []|].
  intros [H D] [<-|Hg] [<-|Hg'] K; simpl in *.
  - reflexivity.
  - rewrite (H _ Hg') in K. discriminate.
  - rewrite key_eqb_sym, (H _ Hg) in K. discriminate.
  - now apply IH.
Qed.

Lemma NoDup_app_disjoint (A : Type) (l1 l2 : list A) a :
  NoDup (l1 ++ l2) -> In a l1 -> In a l2 -> False.
Proof.
  induction l1 as [|x l1 IH]; simpl; [intros _ []|].
  intros ND [->|H1] H2; apply NoDup_cons_iff in ND as [N ND].
  - apply N. apply in_or_app. now right.
  - now apply IH.
Qed.

(** A name held by two groups of a map without repeated names: the
    groups are one. *)
Lemma member_names_inj (m : session_map) g g' n :
  NoDup (member_names m) -> In g m -> In g' m ->
  In n (map fst (snd g)) -> In n (map fst (snd g')) -> g = g'.
Proof.
  unfold member_names.
  induction m as [|g0 rest IH]; simpl; [intros _ []|].
  intros ND Hg Hg' Hn Hn'.
  assert (X : forall h, In h rest -> In n (map fst (snd h)) ->
                        In n (map fst (snd g0)) -> False).
  { intros h Hh Hnh Hn0.
    apply (NoDup_app_disjoint _ _ _ n ND Hn0). apply in_flat_map. eauto. }
  destruct Hg as [<-|Hg], Hg' as [<-|Hg'].
  - reflexivity.
  - exfalso. eapply X; eauto.
  - exfalso. eapply X; eauto.
  - apply IH; auto. now apply NoDup_app_remove_l in ND.
Qed.

(** *** Sorting newest first *)

Lemma dt_lt_true a b :
  dt_lt a b = inr true <-> tz_aware a = tz_aware b /\ ticks a < ticks b.
Proof.
  unfold dt_lt. destruct (Bool.eqb (tz_aware a) (tz_aware b)) eqn:E.
  - apply Bool.eqb_prop in E. split.
    + intros H. injection H as H. apply Z.ltb_lt in H. auto.
    + intros [_ H]. apply Z.ltb_lt in H. now rewrite H.
  - apply Bool.eqb_false_iff in E. split; [discriminate|]. intros [H _]. contradiction.
Qed.

Lemma dt_lt_false a b :
  dt_lt a b = inr false <-> tz_aware a = tz_aware b /\ ticks b <= ticks a.
Proof.
  unfold dt_lt. destruct (Bool.eqb (tz_aware a) (tz_aware b)) eqn:E.
  - apply Bool.eqb_prop in E. split.
    + intros H. injection H as H. apply Z.ltb_ge in H. auto.
    + intros [_ H]. apply Z.ltb_ge in H. now rewrite H.
  - apply Bool.eqb_false_iff in E. split; [discriminate|]. intros [H _]. contradiction.
Qed.

Lemma insert_newest_first_perm x : forall sorted placed,
  insert_newest_first x sorted = inr placed -> Permutation placed (x :: sorted).
Proof.
  induction sorted as [|y rest IH]; simpl; intros placed H.
  - injection H as <-. reflexivity.
  - destruct (dt_lt (snd x) (snd y)) as [e|[|]]; try discriminate.
    + destruct (insert_newest_first x rest) as [e|r]; try discriminate.
      injection H as <-. rewrite (IH r eq_refl). apply perm_swap.
    + injection H as <-. reflexivity.
Qed.

Lemma sort_newest_first_perm : forall files sorted,
  sort_newest_first files = inr sorted -> Permutation sorted files.
Proof.
  induction files as [|x rest IH]; simpl; intros sorted H.
  - injection H as <-. reflexivity.
  - destruct (sort_newest_first rest) as [e|r]; try discriminate.
    rewrite (insert_newest_first_perm _ _ _ H). apply perm_skip. now apply IH.
Qed.

(** The head of the sorted list is the latest member, first found among
    equals. *)
Lemma sort_newest_first_head : forall files newest others,
  sort_newest_first files = inr (newest :: others) -> latest_of files newest.
Proof.
  induction files as [|x rest IH]; simpl; intros newest others H; [discriminate|].
  destruct (sort_newest_first rest) as [e|[|y sorted]] eqn:S; try discriminate.
  - apply sort_newest_first_perm in S. apply Permutation_nil in S. subst rest.
    simpl in H. injection H as <- <-. exists [], []. repeat split; constructor.
  - destruct (IH _ _ eq_refl) as (before & after & -> & B & A).
    simpl in H. destruct (dt_lt (snd x) (snd y)) as [e|[|]] eqn:C; try discriminate.
    + destruct (insert_newest_first x sorted) as [e|r]; try discriminate.
      injection H as <- <-. exists (x :: before), after. repeat split; auto.
    + injection H as <- <-. exists [], (before ++ y :: after).
      apply dt_lt_false in C. destruct C as [Tz Le].
      repeat split; [constructor|].
      apply Forall_app. split; [|constructor].
      * eapply Forall_impl; [|exact B]. intros z Hz. apply dt_lt_true in Hz.
        destruct Hz as [Tz' Lt]. apply dt_lt_false. split; [congruence|lia].
      * apply dt_lt_false. auto.
      * eapply Forall_impl; [|exact A]. intros z Hz. apply dt_lt_false in Hz.
        destruct Hz as [Tz' Le']. apply dt_lt_false. split; [congruence|lia].
Qed.

Lemma victims_of_incl files : incl (victims_of files) (map fst files).
Proof.
  unfold victims_of. destruct (1 <? List.length files)%nat; [|intros x []].
  destruct (sort_newest_first files) as [e|[|newest others]] eqn:S;
    try (intros x []).
  apply sort_newest_first_perm in S. intros n Hn.
  apply (Permutation_in n (Permutation_map fst S)). now right.
Qed.

Lemma all_victims_incl (m : session_map) : incl (all_victims m) (member_names m).
Proof.
  unfold all_victims, member_names. intros n Hn.
  apply in_flat_map in Hn. destruct Hn as (g & Hg & Hn).
  apply in_flat_map. exists g. split; [exact Hg|]. now apply victims_of_incl.
Qed.

(** *** Removing files *)

Lemma within_incl l l' ev : incl l l' -> within l ev -> within l' ev.
Proof. intros I W n E. auto. Qed.

Lemma within_log l lv msg : within l (Log lv msg).
Proof. intros n E. discriminate. Qed.

Lemma quiet_within l ev : quiet_about l ev -> within l ev.
Proof. now intros (_ & _ & W). Qed.

Lemma deleting_incl l l' ev : incl l l' -> deleting l ev -> deleting l' ev.
Proof. intros I [N W]. split; [exact N|]. now apply (within_incl l). Qed.

Lemma deleting_log l lv msg : deleting l (Log lv msg).
Proof. split; [discriminate|apply within_log]. Qed.

Lemma deleting_unlink l p : In p l -> deleting l (Unlink p).
Proof. intros H. split; [discriminate|]. intros n E. now injection E as <-. Qed.

Lemma remove_names_nil s : remove_names [] s = s.
Proof.
  destruct s as [entries|]; [|reflexivity]. simpl. f_equal.
  induction entries as [|f rest IH]; simpl; congruence.
Qed.

Lemma mentioned_app n a b : mentioned n (a ++ b) = mentioned n a || mentioned n b.
Proof. apply existsb_app. Qed.

Lemma mentioned_In n l : mentioned n l = true <-> In n l.
Proof.
  unfold mentioned. rewrite existsb_exists. split.
  - intros (x & H & E). apply String.eqb_eq in E. now subst.
  - intros H. exists n. split; [exact H|apply String.eqb_refl].
Qed.

Lemma mentioned_not_In n l : mentioned n l = false <-> ~ In n l.
Proof.
  rewrite <- mentioned_In. destruct (mentioned n l); split; congruence.
Qed.

Lemma remove_names_app a b s :
  remove_names b (remove_names a s) = remove_names (a ++ b) s.
Proof.
  destruct s as [entries|]; [|reflexivity]. simpl. f_equal.
  induction entries as [|f rest IH]; simpl; [reflexivity|].
  rewrite mentioned_app. destruct (mentioned (name f) a); simpl.
  - exact IH.
  - destruct (mentioned (name f) b); simpl; congruence.
Qed.

Lemma names_remove_names n removed s :
  In n (names (remove_names removed s)) <-> In n (names s) /\ ~ In n removed.
Proof.
  destruct s as [entries|]; simpl; [|tauto].
  rewrite !in_map_iff. split.
  - intros (f & <- & H). apply filter_In in H. destruct H as [H M].
    apply negb_true_iff, mentioned_not_In in M. split; [eauto|exact M].
  - intros ((f & <- & H) & M). exists f. split; [reflexivity|].
    apply filter_In. split; [exact H|].
    now apply negb_true_iff, mentioned_not_In.
Qed.

Lemma find_file_remove_names p removed s :
  ~ In p removed -> find_file p (remove_names removed s) = find_file p s.
Proof.
  intros M. destruct s as [entries|]; [|reflexivity]. simpl.
  induction entries as [|f rest IH]; simpl; [reflexivity|].
  unfold has_name at 2. destruct (name f =? p)%string eqn:E.
  - apply String.eqb_eq in E. rewrite E.
    apply mentioned_not_In in M. rewrite M. simpl.
    unfold has_name. rewrite E, String.eqb_refl. reflexivity.
  - destruct (mentioned (name f) removed); simpl; [exact IH|].
    unfold has_name at 1. rewrite E. exact IH.
Qed.

Lemma unlink_run p s :
  (unlink p s = (inr tt, remove_names [p] s, [Unlink p]) /\ In p (names s)) \/
  unlink p s = (inl OSError, s, [Unlink p]).
Proof.
  unfold unlink. destruct s as [entries|]; [|now right].
  destruct (find_file p (Some entries)) as [f|] eqn:F; [|now right].
  destruct (unlinkable f); [|now right].
  left. split.
  - assert (E : filter (fun g => negb (has_name p g)) entries =
                 filter (fun g => negb (mentioned (name g) [p])) entries).
    { apply filter_ext. intros g. unfold mentioned, has_name. simpl.
      now rewrite orb_false_r. }
    unfold remove_names, option_map. now rewrite E.
  - simpl in F. apply find_some in F. destruct F as [F N].
    apply String.eqb_eq in N. subst p. simpl. now apply in_map.
Qed.

Lemma completed_app a b :
  completed_successfully (a ++ b) = completed_successfully a && completed_successfully b.
Proof. apply forallb_app. Qed.

Lemma remove_files_run others : forall total s,
  exists total' removed evs,
    remove_files others total s = (inr total', remove_names removed s, evs) /\
    incl removed (map fst others) /\
    Forall (deleting (map fst others)) evs /\
    (completed_successfully evs = true -> removed = map fst others).
Proof.
  induction others as [|[p ts] rest IH]; intros total s.
  - exists total, [], []. rewrite remove_names_nil.
    repeat split; [apply incl_refl|constructor].
  - cbn [remove_files]. unfold bind at 1. unfold try_except.
    unfold bind at 1.
    destruct (unlink_run p s) as [[-> _]| ->].
    + unfold bind, log, emit, ret. cbn [app].
      destruct (IH (S total) (remove_names [p] s)) as (t' & removed & evs & -> & I & W & C).
      exists t', (p :: removed), ([Unlink p; Log INFO (MsgRemoved p ts)] ++ evs).
      rewrite remove_names_app. repeat split.
      * intros x [<-|Hx]; [now left|right; now apply I].
      * apply Forall_app. split.
        -- constructor; [apply deleting_unlink; now left|].
           constructor; [apply deleting_log|constructor].
        -- eapply Forall_impl; [|exact W]. intros ev. apply deleting_incl.
           intros x Hx. now right.
      * intros H. simpl in H. simpl. f_equal. now apply C.
    + unfold bind, log, emit, ret. cbn [app].
      destruct (IH total s) as (t' & removed & evs & -> & I & W & C).
      exists t', removed, ([Unlink p; Log ERROR (MsgRemoveError p OSError)] ++ evs).
      repeat split.
      * intros x Hx. right. now apply I.
      * apply Forall_app. split.
        -- constructor; [apply deleting_unlink; now left|].
           constructor; [apply deleting_log|constructor].
        -- eapply Forall_impl; [|exact W]. intros ev. apply deleting_incl.
           intros x Hx. now right.
      * intros H. simpl in H. discriminate.
Qed.

Lemma dedup_groups_run items : forall total s,
  exists r removed evs,
    dedup_groups items total s = (r, remove_names removed s, evs) /\
    incl removed (all_victims items) /\
    Forall (deleting (all_victims items)) evs /\
    (forall t, r = inr t -> completed_successfully evs = true ->
               removed = all_victims items) /\
    (Forall (fun g => (List.length (snd g) <= 1)%nat) items ->
     r = inr total /\ removed = [] /\ evs = []) /\
    (forall t, r = inr t -> Forall sortable items).
Proof.
  induction items as [|[sid files] rest IH]; intros total s.
  - exists (inr total), [], []. rewrite remove_names_nil.
    refine (conj eq_refl (conj _ (conj _ (conj _ (conj _ _))))); auto.
    apply incl_refl.
  - cbn [dedup_groups]. unfold all_victims. cbn [flat_map snd].
    fold (all_victims rest). unfold victims_of.
    destruct (1 <? List.length files)%nat eqn:Len.
    + apply Nat.ltb_lt in Len.
      assert (Big : Forall (fun g : json * list entry => (List.length (snd g) <= 1)%nat)
                      ((sid, files) :: rest) -> False).
      { intros H. inversion H; subst. simpl in *. lia. }
      unfold bind at 1. unfold bind at 1. unfold lift.
      destruct (sort_newest_first files) as [e|[|newest others]] eqn:Srt.
      * exists (inl e), [], []. rewrite remove_names_nil. cbn [raise app].
        refine (conj eq_refl (conj _ (conj _ (conj _ (conj _ _))))).
        -- intros x [].
        -- constructor.
        -- discriminate.
        -- intros H. destruct (Big H).
        -- discriminate.
      * exists (inl IndexError), [], []. rewrite remove_names_nil. cbn [ret raise app].
        refine (conj eq_refl (conj _ (conj _ (conj _ (conj _ _))))).
        -- intros x [].
        -- constructor.
        -- discriminate.
        -- intros H. destruct (Big H).
        -- discriminate.
      * cbn [ret]. unfold bind at 1. unfold log, emit.
        destruct (remove_files_run others total s)
          as (t1 & removed1 & evs1 & -> & I1 & W1 & C1).
        destruct (IH t1 (remove_names removed1 s))
          as (r & removed2 & evs2 & -> & I2 & W2 & C2 & _ & S2).
        exists r, (removed1 ++ removed2),
          ((([] ++ [Log INFO (MsgKeeping sid (fst newest))] ++ evs1)) ++ evs2).
        rewrite remove_names_app.
        refine (conj eq_refl (conj _ (conj _ (conj _ (conj _ _))))).
        -- apply incl_app; [exact (incl_appl _ I1)|exact (incl_appr _ I2)].
        -- cbn [app]. constructor; [apply deleting_log|].
           apply Forall_app. split.
           ++ eapply Forall_impl; [|exact W1]. intros ev. apply deleting_incl.
              exact (incl_appl _ (incl_refl _)).
           ++ eapply Forall_impl; [|exact W2]. intros ev. apply deleting_incl.
              exact (incl_appr _ (incl_refl _)).
        -- intros t -> H. cbn [app] in H. simpl in H.
           rewrite completed_app in H. apply andb_true_iff in H. destruct H as [H1 H2].
           rewrite (C1 H1), (C2 t eq_refl H2). reflexivity.
        -- intros H. destruct (Big H).
        -- intros t E. constructor; [|exact (S2 t E)].
           intros _. exists newest, others. exact Srt.
    + apply Nat.ltb_ge in Len. unfold bind at 1. cbn [ret app].
      destruct (IH total s) as (r & removed & evs & -> & I & W & C & L & S).
      exists r, removed, evs.
      refine (conj eq_refl (conj _ (conj _ (conj _ (conj _ _))))); auto.
      * intros H. inversion H; subst. now apply L.
      * intros t E. constructor; [|exact (S t E)].
        intros H. simpl in H. lia.
Qed.

(** *** A whole scan *)

Lemma quiet_calm l ev : quiet_about l ev -> calm ev.
Proof. intros (U & F & _). now split. Qed.

Lemma calm_completed evs : Forall calm evs -> completed_successfully evs = true.
Proof.
  intros H. apply forallb_forall. intros ev Hev.
  rewrite Forall_forall in H. destruct (H _ Hev) as [_ ->]. reflexivity.
Qed.

Lemma list_json_files_run d :
  list_json_files (Some d) = (inr (candidates d), Some d, []).
Proof. reflexivity. Qed.

Lemma resolved_names s names :
  map (fun x => fst (snd x)) (resolved s names) =
  filter (fun n => match info_at s n with Some _ => true | None => false end) names.
Proof.
  unfold Dedup.resolved. induction names as [|n rest IH]; simpl; [reflexivity|].
  destruct (info_at s n) as [[sid ts]|]; simpl; congruence.
Qed.

Lemma resolved_In s names sid e :
  In (sid, e) (resolved s names) <->
  In (fst e) names /\ info_at s (fst e) = Some (sid, snd e).
Proof.
  unfold Dedup.resolved. rewrite in_flat_map. split.
  - intros (n & Hn & H). destruct (info_at s n) as [[sid' ts]|] eqn:E; [|destruct H].
    destruct H as [H|[]]. injection H as <- <-. simpl. auto.
  - intros [Hn E]. exists (fst e). split; [exact Hn|]. rewrite E.
    left. now destruct e.
Qed.

Lemma session_groups_members s :
  exists l, Permutation (member_names (session_groups s)) l /\
            incl l (candidates_of s) /\
            (NoDup (candidates_of s) -> NoDup l).
Proof.
  rewrite session_groups_eq.
  destruct (forallb _ _).
  - exists (map (fun x => fst (snd x)) (resolved s (candidates_of s))). split.
    + apply (member_names_group _ []).
    + rewrite resolved_names. split.
      * intros x Hx. apply filter_In in Hx. tauto.
      * apply NoDup_filter.
  - exists []. split; [reflexivity|]. split; [intros x []|]. intros _. constructor.
Qed.

Lemma session_groups_incl s : incl (member_names (session_groups s)) (candidates_of s).
Proof.
  destruct (session_groups_members s) as (l & P & I & _).
  intros x Hx. apply I. now apply (Permutation_in x P).
Qed.

Lemma report_run unique total s :
  exists evs, report unique total s = (inr tt, s, evs) /\
              Forall (fun ev => exists msg, ev = Log INFO msg) evs.
Proof.
  unfold report. destruct (0 <? total)%nat.
  - eexists. split; [reflexivity|]. repeat constructor; eexists; reflexivity.
  - eexists. split; [reflexivity|]. repeat constructor; eexists; reflexivity.
Qed.

Lemma info_log_facts (l : list string) evs :
  Forall (fun ev => exists msg, ev = Log INFO msg) evs ->
  Forall (within l) evs /\ Forall calm evs /\ forall p, ~ In (Open p) evs.
Proof.
  intros H. rewrite Forall_forall in H. repeat split.
  - apply Forall_forall. intros ev Hev. destruct (H _ Hev) as [msg ->]. apply within_log.
  - apply Forall_forall. intros ev Hev. destruct (H _ Hev) as [msg ->]. now split.
  - intros p Hp. destruct (H _ Hp) as [msg E]. discriminate.
Qed.

Lemma deleting_no_open l evs p : Forall (deleting l) evs -> ~ In (Open p) evs.
Proof.
  intros H Hp. rewrite Forall_forall in H. destruct (H _ Hp) as [N _]. now apply (N p).
Qed.

Lemma quiet_no_unlink l evs p : Forall (quiet_about l) evs -> ~ In (Unlink p) evs.
Proof.
  intros H Hp. rewrite Forall_forall in H. destruct (H _ Hp) as [U _]. discriminate.
Qed.

Lemma deleting_unlinks l evs p : Forall (deleting l) evs -> In (Unlink p) evs -> In p l.
Proof.
  intros H Hp. rewrite Forall_forall in H. destruct (H _ Hp) as [_ W]. now apply W.
Qed.

Lemma scan_run d :
  exists removed evs,
    scan_and_deduplicate (Some d) = (inr tt, remove_names removed (Some d), evs) /\
    incl removed (all_victims (session_groups (Some d))) /\
    Forall (within (candidates d)) evs /\
    (forall p, In (Open p) evs -> incl (info_events (Some d) p) evs) /\
    (completed_successfully evs = true ->
     removed = all_victims (session_groups (Some d))) /\
    (forallb (fun x => hashable (fst x)) (resolved (Some d) (candidates d)) = true ->
     Forall (fun g => (List.length (snd g) <= 1)%nat) (session_groups (Some d)) ->
     removed = [] /\ Forall calm evs) /\
    (completed_successfully evs = true ->
     Forall sortable (session_groups (Some d)) /\
     forallb (fun x => hashable (fst x)) (resolved (Some d) (candidates d)) = true) /\
    (forall p, In (Unlink p) evs -> In p (all_victims (session_groups (Some d)))) /\
    (forallb (fun x => hashable (fst x)) (resolved (Some d) (candidates d)) = true ->
     forall p, In p (candidates d) -> In (Open p) evs).
Proof.
  unfold Dedup.scan_and_deduplicate, try_except, Dedup.scan_body.
  unfold bind at 1. unfold dir_exists. cbn [negb].
  unfold bind at 1. rewrite list_json_files_run.
  pose proof (session_groups_eq (Some d)) as G.
  pose proof (session_groups_incl (Some d)) as MI.
  cbn [candidates_of] in G, MI.
  destruct (candidates d) as [|c cs] eqn:Cd.
  - cbn in G. rewrite G. exists [], [Log INFO MsgNoFiles]. rewrite remove_names_nil.
    refine (conj eq_refl (conj _ (conj _ (conj _ (conj _ (conj _ (conj _ (conj _ _)))))))).
    + intros x [].
    + repeat constructor. apply within_log.
    + intros p [H|[]]. discriminate.
    + reflexivity.
    + intros _ _. split; [reflexivity|]. repeat constructor.
    + intros _. split; [constructor|reflexivity].
    + intros p [H|[]]. discriminate.
    + intros _ p [].
  - rewrite <- Cd in *. clear Cd c cs.
    unfold bind at 1. unfold log at 1. unfold emit.
    unfold bind at 1.
    destruct (collect_run (candidates d) [] (Some d)) as (evs1 & -> & Q1 & O1 & A1).
    assert (Q1w : Forall (within (candidates d)) evs1).
    { eapply Forall_impl; [|exact Q1]. intros ev. apply quiet_within. }
    assert (Q1c : Forall calm evs1).
    { eapply Forall_impl; [|exact Q1]. intros ev. apply quiet_calm. }
    destruct (forallb (fun x => hashable (fst x)) (resolved (Some d) (candidates d))).
    + rewrite <- G. unfold bind at 1.
      destruct (dedup_groups_run (session_groups (Some d)) 0%nat (Some d))
        as (r & removed & evs2 & -> & I2 & W2 & C2 & L2 & S2).
      assert (W2' : Forall (within (candidates d)) evs2).
      { eapply Forall_impl; [|exact W2]. intros ev [_ W]. revert W. apply within_incl.
        intros x Hx. apply MI. now apply all_victims_incl. }
      destruct r as [e|t].
      * exists removed,
          (([] ++ [Log INFO (MsgAnalysing (List.length (candidates d)))] ++ evs1 ++ evs2)
             ++ [Log ERROR (MsgDedupError e)]).
        refine (conj eq_refl (conj I2 (conj _ (conj _ (conj _ (conj _ (conj _ (conj _ _)))))))).
        -- cbn [app]. constructor; [apply within_log|].
           rewrite <- app_assoc. apply Forall_app. split; [exact Q1w|].
           apply Forall_app. split; [exact W2'|]. repeat constructor. apply within_log.
        -- cbn [app]. intros p [H|H]; [discriminate|].
           rewrite <- app_assoc in H. apply in_app_or in H. destruct H as [H|H].
           ++ apply incl_tl. rewrite <- app_assoc. apply incl_appl. now apply O1.
           ++ apply in_app_or in H. destruct H as [H|[H|[]]]; [|discriminate].
              destruct (deleting_no_open _ _ _ W2 H).
        -- intros H. rewrite completed_app, andb_comm in H. discriminate.
        -- intros _ H. destruct (L2 H) as (E & _). discriminate.
        -- intros H. rewrite completed_app, andb_comm in H. discriminate.
        -- cbn [app]. intros p [H|H]; [discriminate|].
           rewrite <- app_assoc in H. apply in_app_or in H. destruct H as [H|H].
           ++ destruct (quiet_no_unlink _ _ _ Q1 H).
           ++ apply in_app_or in H. destruct H as [H|[H|[]]]; [|discriminate].
              exact (deleting_unlinks _ _ _ W2 H).
        -- cbn [app]. intros _ p Hp. right. rewrite <- app_assoc.
           apply in_or_app. left. now apply A1.
      * destruct (report_run (List.length (session_groups (Some d))) t
                   (remove_names removed (Some d))) as (evs3 & -> & R).
        destruct (info_log_facts (candidates d) _ R) as (R1 & R2 & R3).
        exists removed,
          ([] ++ [Log INFO (MsgAnalysing (List.length (candidates d)))] ++ evs1 ++ evs2 ++ evs3).
        refine (conj eq_refl (conj I2 (conj _ (conj _ (conj _ (conj _ (conj _ (conj _ _)))))))).
        -- cbn [app]. constructor; [apply within_log|].
           apply Forall_app. split; [exact Q1w|].
           apply Forall_app. split; [exact W2'|exact R1].
        -- cbn [app]. intros p [H|H]; [discriminate|].
           apply in_app_or in H. destruct H as [H|H].
           ++ apply incl_tl. apply incl_appl. now apply O1.
           ++ apply in_app_or in H. destruct H as [H|H].
              ** destruct (deleting_no_open _ _ _ W2 H).
              ** destruct (R3 _ H).
        -- cbn [app]. intros H. simpl in H.
           rewrite !completed_app in H.
           apply andb_true_iff in H. destruct H as [_ H].
           apply andb_true_iff in H. destruct H as [H _].
           now apply (C2 t).
        -- intros _ H. destruct (L2 H) as (_ & -> & ->). split; [reflexivity|].
           cbn [app]. constructor; [now split|].
           apply Forall_app. split; [exact Q1c|exact R2].
        -- intros _. split; [exact (S2 t eq_refl)|reflexivity].
        -- cbn [app]. intros p [H|H]; [discriminate|].
           apply in_app_or in H. destruct H as [H|H].
           ++ destruct (quiet_no_unlink _ _ _ Q1 H).
           ++ apply in_app_or in H. destruct H as [H|H].
              ** exact (deleting_unlinks _ _ _ W2 H).
              ** rewrite Forall_forall in R. destruct (R _ H) as [msg E]. discriminate.
        -- cbn [app]. intros _ p Hp. right. apply in_or_app. left. now apply A1.
    + rewrite G. exists [],
        (([] ++ [Log INFO (MsgAnalysing (List.length (candidates d)))] ++ evs1)
           ++ [Log ERROR (MsgDedupError TypeError)]).
      rewrite remove_names_nil.
      refine (conj eq_refl (conj _ (conj _ (conj _ (conj _ (conj _ (conj _ (conj _ _)))))))).
      * intros x [].
      * cbn [app]. constructor; [apply within_log|].
        apply Forall_app. split; [exact Q1w|]. repeat constructor. apply within_log.
      * cbn [app]. intros p [H|H]; [discriminate|].
        apply in_app_or in H. destruct H as [H|[H|[]]]; [|discriminate].
        apply incl_tl. apply incl_appl. now apply O1.
      * intros H. rewrite completed_app, andb_comm in H. discriminate.
      * discriminate.
      * intros H. rewrite completed_app, andb_comm in H. discriminate.
      * cbn [app]. intros p [H|H]; [discriminate|].
        apply in_app_or in H. destruct H as [H|[H|[]]]; [|discriminate].
        destruct (quiet_no_unlink _ _ _ Q1 H).
      * discriminate.
Qed.

(** The same, read off a run that is given. *)
Lemma scan_result d r s' evs :
  scan_and_deduplicate (Some d) = (r, s', evs) ->
  exists removed,
    r = inr tt /\ s' = remove_names removed (Some d) /\
    incl removed (all_victims (session_groups (Some d))) /\
    Forall (within (candidates d)) evs /\
    (forall p, In (Open p) evs -> incl (info_events (Some d) p) evs) /\
    (completed_successfully evs = true ->
     removed = all_victims (session_groups (Some d))) /\
    (forallb (fun x => hashable (fst x)) (resolved (Some d) (candidates d)) = true ->
     Forall (fun g => (List.length (snd g) <= 1)%nat) (session_groups (Some d)) ->
     removed = [] /\ Forall calm evs) /\
    (completed_successfully evs = true ->
     Forall sortable (session_groups (Some d)) /\
     forallb (fun x => hashable (fst x)) (resolved (Some d) (candidates d)) = true) /\
    (forall p, In (Unlink p) evs -> In p (all_victims (session_groups (Some d)))) /\
    (forallb (fun x => hashable (fst x)) (resolved (Some d) (candidates d)) = true ->
     forall p, In p (candidates d) -> In (Open p) evs).
Proof.
  intros Run. destruct (scan_run d) as (removed & evs' & E & H).
  rewrite E in Run. exists removed.
  assert (R : r = inr tt) by congruence.
  assert (S : s' = remove_names removed (Some d)) by congruence.
  assert (V : evs = evs') by congruence.
  subst evs'. auto.
Qed.

(** *** What survives a scan *)

Lemma candidates_incl d : incl (candidates d) (map name d).
Proof.
  unfold candidates. intros n H. apply filter_In in H. destruct H as [H _].
  apply filter_In in H. tauto.
Qed.

Lemma candidates_NoDup d : NoDup (map name d) -> NoDup (candidates d).
Proof. intros H. unfold candidates. now do 2 apply NoDup_filter. Qed.

Lemma candidates_not_excluded d n : In n (candidates d) -> excluded n = false.
Proof.
  unfold candidates. intros H. apply filter_In in H. destruct H as [_ H].
  now apply negb_true_iff.
Qed.

Lemma session_groups_NoDup d :
  NoDup (map name d) -> NoDup (member_names (session_groups (Some d))).
Proof.
  intros ND. destruct (session_groups_members (Some d)) as (l & P & _ & N).
  apply (Permutation_NoDup (Permutation_sym P)). apply N. now apply candidates_NoDup.
Qed.

Lemma session_groups_nonempty s : Forall (fun g => snd g <> []) (session_groups s).
Proof.
  rewrite session_groups_eq. destruct (forallb _ _); [|constructor].
  apply group_nonempty. constructor.
Qed.

Lemma NoDup_flat_map_in (A B : Type) (f : A -> list B) l g :
  NoDup (flat_map f l) -> In g l -> NoDup (f g).
Proof.
  induction l as [|a l IH]; simpl; [intros _ []|].
  intros ND [->|H].
  - now apply NoDup_app_remove_r in ND.
  - apply IH; [|exact H]. now apply NoDup_app_remove_l in ND.
Qed.

(** A name is deleted only as a victim of the group that holds it. *)
Lemma victim_of_own_group (m : session_map) g n :
  NoDup (member_names m) -> In g m -> In n (map fst (snd g)) ->
  In n (all_victims m) -> In n (victims_of (snd g)).
Proof.
  intros ND Hg Hn Hv. unfold all_victims in Hv. apply in_flat_map in Hv.
  destruct Hv as (g' & Hg' & Hv).
  assert (g = g') as ->; [|exact Hv].
  apply (member_names_inj m g g' n ND Hg Hg' Hn). now apply victims_of_incl.
Qed.

Lemma own_victim_is_victim (m : session_map) g n :
  In g m -> In n (victims_of (snd g)) -> In n (all_victims m).
Proof. intros Hg Hn. unfold all_victims. apply in_flat_map. eauto. Qed.

(** The members of a group that are still there after all victims have
    been removed: one, the latest. *)
Lemma survivor_of_group d (m : session_map) sid files :
  NoDup (member_names m) -> incl (member_names m) (map name d) ->
  In (sid, files) m -> files <> [] -> sortable (sid, files) ->
  exists newest,
    latest_of files newest /\
    forall x, In x files ->
      (present (fst x) (remove_names (all_victims m) (Some d)) <-> x = newest).
Proof.
  intros ND MI Hg NE Srt.
  assert (NDf : NoDup (map fst files)).
  { exact (NoDup_flat_map_in _ _ (fun g : json * list entry => map fst (snd g)) m _ ND Hg). }
  assert (Here : forall x, In x files -> In (fst x) (names (Some d))).
  { intros x Hx. apply MI. unfold member_names. apply in_flat_map.
    exists (sid, files). split; [exact Hg|]. simpl. now apply in_map. }
  unfold present.
  destruct (Nat.ltb_spec 1 (List.length files)) as [Len|Len].
  - destruct (Srt Len) as (newest & others & S). simpl in S.
    exists newest. split; [exact (sort_newest_first_head _ _ _ S)|].
    pose proof (sort_newest_first_perm _ _ S) as P.
    assert (V : victims_of files = map fst others).
    { unfold victims_of. apply Nat.ltb_lt in Len. now rewrite Len, S. }
    assert (NDs : NoDup (map fst (newest :: others))).
    { apply (Permutation_NoDup (Permutation_sym (Permutation_map fst P)) NDf). }
    simpl in NDs. apply NoDup_cons_iff in NDs. destruct NDs as [Nn _].
    intros x Hx. rewrite names_remove_names. split.
    + intros [_ NV].
      apply (Permutation_in x (Permutation_sym P)) in Hx. destruct Hx as [<-|Hx]; [reflexivity|].
      exfalso. apply NV. apply (own_victim_is_victim m (sid, files)); [exact Hg|].
      simpl. rewrite V. now apply in_map.
    + intros ->. split; [now apply Here|]. intros Hv.
      apply (victim_of_own_group m (sid, files)) in Hv; [|exact ND|exact Hg|].
      * simpl in Hv. rewrite V in Hv. contradiction.
      * simpl. now apply in_map.
  - destruct files as [|x [|y rest]]; [contradiction| |simpl in Len; lia].
    exists x. split.
    + exists [], []. repeat split; constructor.
    + intros z [<-|[]]. rewrite names_remove_names. split; [reflexivity|].
      intros _. split; [apply Here; now left|]. intros Hv.
      apply (victim_of_own_group m (sid, [x])) in Hv; [|exact ND|exact Hg|now left].
      exact Hv.
Qed.

(** *** What the next scan sees *)

Lemma NoDup_map_inj (A B : Type) (f : A -> B) l a b :
  NoDup (map f l) -> In a l -> In b l -> f a = f b -> a = b.
Proof.
  induction l as [|x l IH]; simpl; [intros _ []|].
  intros ND Ha Hb E. apply NoDup_cons_iff in ND. destruct ND as [N ND].
  destruct Ha as [->|Ha], Hb as [->|Hb]; auto.
  - exfalso. apply N. rewrite E. now apply in_map.
  - exfalso. apply N. rewrite <- E. now apply in_map.
Qed.

Lemma names_remove_NoDup removed d :
  NoDup (map name d) -> NoDup (names (remove_names removed (Some d))).
Proof.
  simpl. induction d as [|f rest IH]; simpl; [constructor|].
  intros ND. apply NoDup_cons_iff in ND. destruct ND as [N ND].
  destruct (mentioned (name f) removed); simpl; [now apply IH|].
  constructor; [|now apply IH].
  intros H. apply N. apply in_map_iff in H. destruct H as (g & E & Hg).
  apply filter_In in Hg. rewrite <- E. apply in_map. tauto.
Qed.

Lemma resolved_NoDup s names :
  NoDup names -> NoDup (map (fun x => fst (snd x)) (resolved s names)).
Proof. intros H. rewrite resolved_names. now apply NoDup_filter. Qed.

(** What the second scan sees is what the first one saw, less the
    files it removed. *)
Lemma candidates_after d removed n :
  In n (candidates_of (remove_names removed (Some d))) <->
  In n (candidates d) /\ ~ In n removed.
Proof.
  simpl. unfold candidates. rewrite !filter_In.
  pose proof (names_remove_names n removed (Some d)) as H. simpl in H.
  rewrite H. tauto.
Qed.

Lemma resolved_after d removed sid e :
  In (sid, e) (resolved (remove_names removed (Some d))
                        (candidates_of (remove_names removed (Some d)))) ->
  In (sid, e) (resolved (Some d) (candidates d)) /\ ~ In (fst e) removed.
Proof.
  rewrite !resolved_In, candidates_after. intros [[Hc Hr] Hi].
  repeat split; auto.
  rewrite <- Hi. apply info_frame. symmetry. now apply find_file_remove_names.
Qed.

Lemma member_has_group (m : session_map) n :
  In n (member_names m) -> exists g x, In g m /\ In x (snd g) /\ fst x = n.
Proof.
  unfold member_names. intros H. apply in_flat_map in H. destruct H as (g & Hg & H).
  apply in_map_iff in H. destruct H as (x & E & Hx). eauto.
Qed.

(** Once a scan has run to its end, a scan of what is left finds every
    identifier on one file only. *)
Lemma groups_after_successful_scan d :
  NoDup (map name d) ->
  forallb (fun x => hashable (fst x)) (resolved (Some d) (candidates d)) = true ->
  Forall sortable (session_groups (Some d)) ->
  let s1 := remove_names (all_victims (session_groups (Some d))) (Some d) in
  forallb (fun x => hashable (fst x)) (resolved s1 (candidates_of s1)) = true /\
  Forall (fun g => List.length (snd g) = 1%nat) (session_groups s1).
Proof.
  intros ND Hash Srt s1.
  set (V := all_victims (session_groups (Some d))) in *.
  set (L := resolved (Some d) (candidates d)) in *.
  set (L1 := resolved s1 (candidates_of s1)).
  assert (Sub : forall sid e, In (sid, e) L1 -> In (sid, e) L /\ ~ In (fst e) V).
  { intros sid e. apply resolved_after. }
  assert (Hash1 : forallb (fun x => hashable (fst x)) L1 = true).
  { apply forallb_forall. intros [sid e] H. rewrite forallb_forall in Hash.
    apply (Hash (sid, e)). now apply Sub. }
  split; [exact Hash1|].
  pose proof (session_groups_eq (Some d)) as G. cbn [candidates_of] in G.
  fold L in G. rewrite Hash in G.
  pose proof (session_groups_eq s1) as G1. fold L1 in G1. rewrite Hash1 in G1.
  assert (NDL : NoDup (map (fun x : json * entry => fst (snd x)) L)).
  { apply resolved_NoDup. now apply candidates_NoDup. }
  assert (ND1 : NoDup (member_names (session_groups s1))).
  { destruct (session_groups_members s1) as (l & P & _ & N).
    apply (Permutation_NoDup (Permutation_sym P)). apply N.
    unfold s1. simpl. apply candidates_NoDup.
    exact (names_remove_NoDup V d ND). }
  assert (NDm : NoDup (member_names (session_groups (Some d))))
    by now apply session_groups_NoDup.
  assert (MI : incl (member_names (session_groups (Some d))) (map name d)).
  { intros n Hn. apply candidates_incl. now apply (session_groups_incl (Some d)). }
  pose proof (group_sound_nil L) as SL. rewrite <- G in SL.
  pose proof (group_sound_nil L1) as SL1. rewrite <- G1 in SL1.
  assert (DK : distinct_keys (session_groups (Some d))).
  { rewrite G. apply group_distinct. exact I. }
  (* where a surviving member sits in the first scan's groups *)
  assert (Home : forall sid x sid',
             In (sid, x) L -> key_eqb sid sid' = true ->
             exists k files, In (k, files) (session_groups (Some d)) /\
                             In x files /\ key_eqb k sid = true).
  { intros sid x sid' Hx K.
    assert (Hn : In (fst x) (member_names (session_groups (Some d)))).
    { rewrite G. apply (Permutation_in _ (Permutation_sym (member_names_group L []))).
      simpl. apply in_map_iff. exists (sid, x). auto. }
    destruct (member_has_group _ _ Hn) as ([k files] & x' & Hg & Hx' & E).
    simpl in Hx'. destruct (SL _ _ _ Hg Hx') as (sid0 & H0 & R).
    assert ((sid0, x') = (sid, x)) as Eq.
    { apply (NoDup_map_inj _ _ (fun y : json * entry => fst (snd y)) L); auto. }
    injection Eq as -> ->.
    exists k, files. repeat split; auto.
    destruct R as [R|[_ ->]]; [exact R|]. exact (key_eqb_refl_of _ _ K). }
  pose proof (session_groups_nonempty s1) as NE1.
  rewrite Forall_forall in *. intros [k1 files1] Hg1.
  specialize (NE1 _ Hg1). simpl in NE1. simpl.
  destruct files1 as [|x [|y rest]]; [contradiction|reflexivity|exfalso].
  assert (Nxy : fst x <> fst y).
  { pose proof (NoDup_flat_map_in _ _ (fun g : json * list entry => map fst (snd g))
                  _ _ ND1 Hg1) as N.
    simpl in N. apply NoDup_cons_iff in N. destruct N as [N _].
    intros E. apply N. now left. }
  destruct (SL1 k1 (x :: y :: rest) x Hg1 (or_introl eq_refl)) as (sx & Hx & [Kx|[Kx _]]);
    [|discriminate].
  destruct (SL1 k1 (x :: y :: rest) y Hg1 (or_intror (or_introl eq_refl)))
    as (sy & Hy & [Ky|[Ky _]]); [|discriminate].
  assert (Kxy : key_eqb sx sy = true).
  { apply (key_eqb_trans _ k1); [now rewrite key_eqb_sym|exact Ky]. }
  assert (Kyx : key_eqb sy sx = true) by now rewrite key_eqb_sym.
  destruct (Sub _ _ Hx) as [HxL NVx]. destruct (Sub _ _ Hy) as [HyL NVy].
  destruct (Home _ _ _ HxL Kxy) as (kx & fx & Hgx & Hxin & Kkx).
  destruct (Home _ _ _ HyL Kyx) as (ky & fy & Hgy & Hyin & Kky).
  assert (Same : (kx, fx) = (ky, fy)).
  { apply (distinct_keys_inj _ _ _ DK Hgx Hgy). simpl.
    apply (key_eqb_trans _ sx); [exact Kkx|].
    apply (key_eqb_trans _ sy); [exact Kxy|]. now rewrite key_eqb_sym. }
  injection Same as <- <-.
  pose proof (session_groups_nonempty (Some d)) as NE.
  rewrite Forall_forall in NE.
  destruct (survivor_of_group d _ kx fx NDm MI Hgx (NE _ Hgx) (Srt _ Hgx))
    as (newest & _ & Only).
  assert (Px : present (fst x) (remove_names V (Some d))).
  { apply names_remove_names. split; [|exact NVx]. apply MI.
    unfold member_names. apply in_flat_map. exists (kx, fx). split; [exact Hgx|].
    simpl. now apply in_map. }
  assert (Py : present (fst y) (remove_names V (Some d))).
  { apply names_remove_names. split; [|exact NVy]. apply MI.
    unfold member_names. apply in_flat_map. exists (kx, fx). split; [exact Hgx|].
    simpl. now apply in_map. }
  apply (Only x Hxin) in Px. apply (Only y Hyin) in Py. apply Nxy. congruence.
Qed.

(** A file that does not resolve is in no group. *)
Lemma unresolved_not_member s p :
  info_at s p = None -> ~ In p (member_names (session_groups s)).
Proof.
  intros Inf H. destruct (member_has_group _ _ H) as ([k files] & x & Hg & Hx & E).
  rewrite session_groups_eq in Hg. destruct (forallb _ _); [|destruct Hg].
  destruct (group_sound_nil _ _ _ _ Hg Hx) as (sid & Hs & _).
  apply resolved_In in Hs. destruct Hs as [_ Hs]. simpl in Hs.
  rewrite E in Hs. congruence.
Qed.

(** Only a file that does not resolve leaves an error record. *)
Lemma session_info_error p fo info evs ev :
  session_info p fo info evs -> In ev evs -> is_error ev = true -> info = None.
Proof.
  intros H Hev Err. destruct H; try reflexivity; simpl in Hev;
    repeat (destruct Hev as [<-|Hev]; [discriminate Err|]); destruct Hev.
Qed.

(** A scan that reads every candidate carries each file's records. *)
Lemma scan_carries_records d r s' evs p :
  scan_and_deduplicate (Some d) = (r, s', evs) ->
  forallb (fun x => hashable (fst x)) (resolved (Some d) (candidates d)) = true ->
  In p (candidates d) ->
  incl (info_events (Some d) p) evs.
Proof.
  intros Run Hash Hp.
  destruct (scan_result d _ _ _ Run) as (removed & _ & _ & _ & _ & O & _ & _ & _ & _ & A).
  apply O. now apply A.
Qed.

(** C1.  After a scan of an existing directory that ran to its end with
    every deletion succeeding, each identifier group the scan computed
    has exactly one member left in the directory: the one with the
    latest timestamp, the first discovered among equal timestamps.
    Grouping what is left again puts every identifier on a single
    file. *)
Theorem C1_latest_member_survives d r s' evs :
  NoDup (map name d) ->
  scan_and_deduplicate (Some d) = (r, s', evs) ->
  completed_successfully evs = true ->
  (forall session_id files,
      In (session_id, files) (session_groups (Some d)) ->
      exists newest,
        latest_of files newest /\
        forall x, In x files -> (present (fst x) s' <-> x = newest)) /\
  Forall (fun g => List.length (snd g) = 1%nat) (session_groups s').
Proof.
  intros ND Run Ok.
  destruct (scan_result d _ _ _ Run) as (removed & _ & -> & _ & _ & _ & V & _ & S & _).
  rewrite (V Ok). destruct (S Ok) as [Srt Hash]. split.
  - intros sid files Hg. apply (survivor_of_group d _ sid files).
    + now apply session_groups_NoDup.
    + intros n Hn. apply candidates_incl. now apply (session_groups_incl (Some d)).
    + exact Hg.
    + pose proof (session_groups_nonempty (Some d)) as NE.
      rewrite Forall_forall in NE. exact (NE _ Hg).
    + rewrite Forall_forall in Srt. exact (Srt _ Hg).
  - exact (proj2 (groups_after_successful_scan d ND Hash Srt)).
Qed.

(** C2, as amended.  After a scan that ran to its end with every
    deletion succeeding, a second scan of the unchanged directory
    removes nothing, calls [unlink] on nothing, logs neither an aborted
    scan nor a failed deletion, and every identifier group it sees has
    exactly one member.  It is not free of errors, though: every error
    record that [get_session_info] writes for a single candidate file --
    one that cannot be read, or parsed, or has no usable timestamp -- is
    written by the first scan and written again by the second. *)
Theorem C2_second_scan_changes_nothing d r1 s1 evs1 r2 s2 evs2 :
  NoDup (map name d) ->
  scan_and_deduplicate (Some d) = (r1, s1, evs1) ->
  completed_successfully evs1 = true ->
  scan_and_deduplicate s1 = (r2, s2, evs2) ->
  s2 = s1 /\
  (forall ev, In ev evs2 -> is_unlink ev = false /\ is_failure ev = false) /\
  completed_successfully evs2 = true /\
  Forall (fun g => List.length (snd g) = 1%nat) (session_groups s1) /\
  (forall p ev,
      In p (candidates d) -> In ev (info_events (Some d) p) -> is_error ev = true ->
      In ev evs1 /\ In ev evs2) /\
  (forall p f,
      In p (candidates d) -> find_file p (Some d) = Some f ->
      match load f with
      | Malformed => In (Log ERROR (MsgDecodeError p)) evs2
      | Unreadable e => In (Log ERROR (error_record p e)) evs2
      | Document _ => True
      end).
Proof.
  intros ND Run1 Ok1 Run2.
  destruct (scan_result d _ _ _ Run1) as (removed & _ & -> & _ & _ & _ & V & _ & S & _).
  pose proof (V Ok1) as Vr. subst removed. destruct (S Ok1) as [Srt Hash].
  destruct (groups_after_successful_scan d ND Hash Srt) as [Hash1 One].
  cbv zeta in Hash1, One.
  assert (Again : forall p ev,
             In p (candidates d) -> In ev (info_events (Some d) p) -> is_error ev = true ->
             In ev evs1 /\ In ev evs2).
  { intros p ev Hp Hev Err.
    assert (Inf : info_at (Some d) p = None).
    { exact (session_info_error _ _ _ _ _ (session_info_at p (Some d)) Hev Err). }
    split; [exact (scan_carries_records d _ _ _ p Run1 Hash Hp ev Hev)|].
    assert (NV : ~ In p (all_victims (session_groups (Some d)))).
    { intros H. apply (unresolved_not_member _ _ Inf). now apply all_victims_incl. }
    assert (Hc : In p (candidates_of
                         (remove_names (all_victims (session_groups (Some d))) (Some d)))).
    { apply candidates_after. now split. }
    destruct (info_frame p _ (Some d) (find_file_remove_names p _ (Some d) NV)) as [_ Same].
    rewrite <- Same in Hev.
    revert Run2 Hash1 Hc Hev.
    generalize (remove_names (all_victims (session_groups (Some d))) (Some d)).
    intros [d1|] Run2 Hash1 Hc Hev; [|destruct Hc].
    exact (scan_carries_records d1 _ _ _ p Run2 Hash1 Hc ev Hev). }
  assert (Kinds : forall p f,
             In p (candidates d) -> find_file p (Some d) = Some f ->
             match load f with
             | Malformed => In (Log ERROR (MsgDecodeError p)) evs2
             | Unreadable e => In (Log ERROR (error_record p e)) evs2
             | Document _ => True
             end).
  { intros p f Hp F. pose proof (session_info_at p (Some d)) as H. rewrite F in H.
    destruct (load f) as [e| |data] eqn:L; [| |exact I].
    - destruct (session_info_fun _ _ _ _ _ _ H
                  (SI_unreadable fromisoformat localtime p f e L)) as [_ Evs].
      apply (Again p _ Hp); [rewrite Evs; right; now left|reflexivity].
    - destruct (session_info_fun _ _ _ _ _ _ H
                  (SI_malformed fromisoformat localtime p f L)) as [_ Evs].
      apply (Again p _ Hp); [rewrite Evs; right; now left|reflexivity]. }
  remember (remove_names (all_victims (session_groups (Some d))) (Some d)) as s1 eqn:Es.
  destruct s1 as [d1|]; [clear Es|discriminate Es].
  destruct (scan_result d1 _ _ _ Run2) as (removed2 & _ & -> & _ & _ & _ & _ & L2 & _ & _).
  assert (Le : Forall (fun g : json * list entry => (List.length (snd g) <= 1)%nat)
                 (session_groups (Some d1))).
  { eapply Forall_impl; [|exact One]. intros g Hg. simpl in Hg. lia. }
  destruct (L2 Hash1 Le) as [-> Calm].
  rewrite remove_names_nil.
  refine (conj eq_refl (conj _ (conj _ (conj One (conj Again Kinds))))).
  - intros ev Hev. rewrite Forall_forall in Calm. now apply Calm.
  - now apply calm_completed.
Qed.

Lemma excluded_In n : excluded n = true <-> In n excluded_files.
Proof.
  unfold excluded. rewrite existsb_exists. split.
  - intros (x & H & E). apply String.eqb_eq in E. now subst.
  - intros H. exists n. split; [exact H|apply String.eqb_refl].
Qed.

(** C3.  A file named in the exclusion set is never opened, examined or
    removed by a scan, and is found afterwards exactly as before,
    whatever it contains. *)
Theorem C3_excluded_files_untouched s r s' evs n :
  In n excluded_files ->
  scan_and_deduplicate s = (r, s', evs) ->
  ~ In (Open n) evs /\ ~ In (Stat n) evs /\ ~ In (Unlink n) evs /\
  find_file n s' = find_file n s.
Proof.
  intros Ex Run. apply excluded_In in Ex.
  destruct s as [d|].
  - destruct (scan_result d _ _ _ Run) as (removed & _ & -> & I & W & _).
    assert (N : ~ In n (candidates d)).
    { intros H. apply candidates_not_excluded in H. congruence. }
    rewrite Forall_forall in W.
    repeat split; try (intros H; apply N; exact (W _ H n eq_refl)).
    apply find_file_remove_names. intros H. apply N.
    apply (session_groups_incl (Some d)). apply all_victims_incl. now apply I.
  - cbv in Run. injection Run as <- <- <-.
    repeat split; intros [H|[]]; discriminate.
Qed.

(** C4.  A file that is not valid JSON: [get_session_info] logs the
    decoding error and returns [(None, None)]; the file belongs to no
    identifier group; no scan removes it or calls [unlink] on it.  A
    scan that opens it logs the decoding error, and a scan opens it
    whenever it is one of the [*.json] files outside the exclusion set
    and the reading loop is not cut short by an unhashable identifier. *)
Theorem C4_malformed_file_left_alone s p f :
  find_file p s = Some f ->
  load f = Malformed ->
  get_session_info p s = (inr None, s, [Open p; Log ERROR (MsgDecodeError p)]) /\
  (forall g, In g (session_groups s) -> ~ In p (map fst (snd g))) /\
  (forall r s' evs,
      scan_and_deduplicate s = (r, s', evs) ->
      find_file p s' = Some f /\
      ~ In (Unlink p) evs /\
      (In (Open p) evs -> In (Log ERROR (MsgDecodeError p)) evs) /\
      (In p (candidates_of s) ->
       forallb (fun x => hashable (fst x)) (resolved s (candidates_of s)) = true ->
       In (Log ERROR (MsgDecodeError p)) evs)).
Proof.
  intros F Bad.
  assert (Info : info_at s p = None /\
                 info_events s p = [Open p; Log ERROR (MsgDecodeError p)]).
  { pose proof (session_info_at p s) as H. rewrite F in H.
    apply (session_info_fun _ _ _ _ _ _ H). now apply (SI_malformed fromisoformat localtime). }
  destruct Info as [Inf Evs].
  assert (NotMember : ~ In p (member_names (session_groups s))).
  { intros H. destruct (member_has_group _ _ H) as ([k files] & x & Hg & Hx & E).
    rewrite session_groups_eq in Hg. destruct (forallb _ _); [|destruct Hg].
    destruct (group_sound_nil _ _ _ _ Hg Hx) as (sid & Hs & _).
    apply resolved_In in Hs. destruct Hs as [_ Hs]. simpl in Hs.
    rewrite E in Hs. congruence. }
  split; [|split].
  - rewrite get_session_info_run, Inf, Evs. reflexivity.
  - intros g Hg Hp. apply NotMember. unfold member_names. apply in_flat_map. eauto.
  - intros r s' evs Run. destruct s as [d|]; [|discriminate].
    destruct (scan_result d _ _ _ Run)
      as (removed & _ & -> & I & _ & O & _ & _ & _ & U & A).
    assert (NV : ~ In p (all_victims (session_groups (Some d)))).
    { intros H. apply NotMember. now apply all_victims_incl. }
    assert (Logged : In (Open p) evs -> In (Log ERROR (MsgDecodeError p)) evs).
    { intros H. apply (O p H). rewrite Evs. right. now left. }
    refine (conj _ (conj _ (conj Logged _))).
    + rewrite find_file_remove_names; [exact F|]. intros H. apply NV. now apply I.
    + intros H. apply NV. now apply U.
    + intros Hc Hash. apply Logged. now apply A.
Qed.

(** C6, as amended.  A session file with none of the timestamp fields
    is dated by its modification time whenever [datetime.fromtimestamp]
    accepts that time: [get_session_info] returns the naive local
    reading of it, and that is the timestamp the file carries in its
    identifier group, where the sort reads it.  When
    [datetime.fromtimestamp] raises -- a modification time outside the
    years it can represent -- the exception is caught like any other:
    the file resolves to nothing and joins no group. *)
Theorem C6_mtime_fallback s p f members session_id :
  find_file p s = Some f ->
  load f = Document (JObj members) ->
  lookup "updatedAt" members = None ->
  lookup "timestamp" members = None ->
  lookup "createdAt" members = None ->
  session_id_of (JObj members) = inr session_id ->
  truthy session_id = true ->
  (forall wall,
      localtime (mtime f) = inr wall ->
      let timestamp := {| tz_aware := false; ticks := wall |} in
      get_session_info p s = (inr (Some (session_id, timestamp)), s, [Open p; Stat p]) /\
      (forall g ts, In g (session_groups s) -> In (p, ts) (snd g) -> ts = timestamp) /\
      (In p (candidates_of s) ->
       forallb (fun x => hashable (fst x)) (resolved s (candidates_of s)) = true ->
       exists g, In g (session_groups s) /\ In (p, timestamp) (snd g))) /\
  (forall e,
      localtime (mtime f) = inl e ->
      get_session_info p s =
        (inr None, s, [Open p; Stat p; Log ERROR (error_record p e)]) /\
      forall g, In g (session_groups s) -> ~ In p (map fst (snd g))).
Proof.
  intros F Doc U T C Id Tr.
  assert (Ts : timestamp_str_of (JObj members) = inr JNull).
  { unfold timestamp_str_of, or_get, get, dict_get. now rewrite U, T, C. }
  split.
  - intros wall Lt timestamp.
    assert (Ft : fromtimestamp localtime (mtime f) = inr timestamp).
    { unfold fromtimestamp. now rewrite Lt. }
    assert (Info : info_at s p = Some (session_id, timestamp) /\
                   info_events s p = [Open p; Stat p]).
    { pose proof (session_info_at p s) as H. rewrite F in H.
      apply (session_info_fun _ _ _ _ _ _ H).
      now apply (SI_mtime fromisoformat localtime p f (JObj members) session_id JNull). }
    destruct Info as [Inf Evs].
    split; [|split].
    + rewrite get_session_info_run, Inf, Evs. reflexivity.
    + intros [k files] ts Hg Hp.
      rewrite session_groups_eq in Hg. destruct (forallb _ _); [|destruct Hg].
      destruct (group_sound_nil _ _ _ _ Hg Hp) as (sid & Hs & _).
      apply resolved_In in Hs. destruct Hs as [_ Hs]. simpl in Hs. congruence.
    + intros Hc Hash. rewrite session_groups_eq, Hash.
      set (L := resolved s (candidates_of s)).
      assert (HL : In (session_id, (p, timestamp)) L).
      { apply resolved_In. simpl. auto. }
      assert (Hn : In p (member_names (group L []))).
      { apply (Permutation_in _ (Permutation_sym (member_names_group L []))).
        simpl. apply in_map_iff. exists (session_id, (p, timestamp)).
        auto. }
      destruct (member_has_group _ _ Hn) as (g & [n ts] & Hg & Hx & E).
      simpl in E. subst n. exists g. split; [exact Hg|].
      destruct g as [k files]. simpl in Hx.
      destruct (group_sound_nil _ _ _ _ Hg Hx) as (sid & Hs & _).
      apply resolved_In in Hs. destruct Hs as [_ Hs]. simpl in Hs.
      rewrite Inf in Hs. injection Hs as _ <-. exact Hx.
  - intros e Lt.
    assert (Ft : fromtimestamp localtime (mtime f) = inl e).
    { unfold fromtimestamp. now rewrite Lt. }
    assert (Info : info_at s p = None /\
                   info_events s p = [Open p; Stat p; Log ERROR (error_record p e)]).
    { pose proof (session_info_at p s) as H. rewrite F in H.
      apply (session_info_fun _ _ _ _ _ _ H).
      now apply (SI_bad_mtime fromisoformat localtime p f (JObj members) session_id JNull). }
    destruct Info as [Inf Evs]. split.
    + rewrite get_session_info_run, Inf, Evs. reflexivity.
    + intros g Hg Hp. apply (unresolved_not_member s p Inf).
      unfold member_names. apply in_flat_map. eauto.
Qed.

(** C7.  When the directory does not exist, the scan logs one error and
    returns normally; nothing is opened, examined or removed and the
    file system is as before.  A run of the program with [--once] goes
    on to its closing log line. *)
Theorem C7_missing_directory :
  scan_and_deduplicate None = (inr tt, None, [Log ERROR MsgDirMissing]) /\
  Dedup.main fromisoformat localtime true 5 None no_signal 0 =
    Finished {| running := true; sessions := None;
                trace := [Log INFO MsgSingleRun; Log ERROR MsgDirMissing;
                          Log INFO MsgFinished];
                slept := O |}.
Proof. split; reflexivity. Qed.

(** *** Field priority *)

Ltac chain :=
  repeat (match goal with H : truthy _ = _ |- _ => rewrite H end; cbv beta iota);
  reflexivity.

(** C5, as amended.  The identifier is the value of the first field of
    the priority list whose value is truthy, and the timestamp string
    likewise: as soon as a field holds a truthy value that value is
    taken, whatever the later fields hold; a field that is present with
    a falsy value (null, false, 0, an empty string, list or object) is
    passed over like an absent one.  What [get_session_info] returns is
    built from these two values. *)
Theorem C5_first_truthy_field_wins members :
  (forall before key after,
      id_fields = before ++ key :: after ->
      Forall (fun k => truthy (dict_get members k) = false) before ->
      truthy (dict_get members key) = true ->
      session_id_of (JObj members) = inr (dict_get members key)) /\
  (forall before key after,
      timestamp_fields = before ++ key :: after ->
      Forall (fun k => truthy (dict_get members k) = false) before ->
      truthy (dict_get members key) = true ->
      timestamp_str_of (JObj members) = inr (dict_get members key)) /\
  (forall s p f session_id timestamp,
      find_file p s = Some f ->
      load f = Document (JObj members) ->
      info_at s p = Some (session_id, timestamp) ->
      session_id_of (JObj members) = inr session_id /\
      exists timestamp_str,
        timestamp_str_of (JObj members) = inr timestamp_str /\
        if truthy timestamp_str
        then parse_timestamp fromisoformat timestamp_str = inr timestamp
        else fromtimestamp localtime (mtime f) = inr timestamp).
Proof.
  split; [|split].
  - intros before key after E B T. unfold id_fields in E.
    unfold session_id_of, or_get, get. cbv beta iota.
    destruct before as [|b1 [|b2 [|b3 [|b4 before]]]]; simpl in E.
    + injection E as <- _. chain.
    + injection E as <- <- _. inversion B as [|? ? F1 ?]; subst. chain.
    + injection E as <- <- <- _. inversion B as [|? ? F1 B']; subst.
      inversion B' as [|? ? F2 ?]; subst. chain.
    + injection E as <- <- <- <- _. inversion B as [|? ? F1 B']; subst.
      inversion B' as [|? ? F2 B'']; subst. inversion B'' as [|? ? F3 ?]; subst.
      chain.
    + injection E as _ _ _ _ E. destruct before; discriminate.
  - intros before key after E B T. unfold timestamp_fields in E.
    unfold timestamp_str_of, or_get, get. cbv beta iota.
    destruct before as [|b1 [|b2 [|b3 before]]]; simpl in E.
    + injection E as <- _. chain.
    + injection E as <- <- _. inversion B as [|? ? F1 ?]; subst. chain.
    + injection E as <- <- <- _. inversion B as [|? ? F1 B']; subst.
      inversion B' as [|? ? F2 ?]; subst. chain.
    + injection E as _ _ _ E. destruct before; discriminate.
  - intros s p f sid ts F Doc Inf.
    pose proof (session_info_at p s) as H. rewrite F, Inf in H.
    inversion H; subst;
      match goal with
      | A : load f = _, B : load f = _ |- _ => rewrite A in B; injection B as <-
      end.
    + split; [assumption|]. eexists. split; [eassumption|].
      match goal with T : truthy _ = true |- _ => now rewrite T end.
    + split; [assumption|]. eexists. split; [eassumption|].
      match goal with T : truthy ?x = false |- context [truthy ?x] => now rewrite T end.
Qed.

(** *** The periodic loop and signals *)

Local Abbreviation scan := (Dedup.scan fromisoformat localtime).
Local Abbreviation periodic_loop := (Dedup.periodic_loop fromisoformat localtime).

Lemma scan_keeps p : running (scan p) = running p /\ slept (scan p) = slept p.
Proof.
  unfold Dedup.scan. destruct (scan_and_deduplicate (sessions p)) as [[r s] evs].
  split; reflexivity.
Qed.

(** Seconds without a signal pass one by one, whatever the handler. *)
Lemma wait_quiet_with installed arrivals seconds : forall p,
  running p = true ->
  (forall k, (slept p <= k < slept p + seconds)%nat -> arrivals k = None) ->
  exists q, wait installed arrivals seconds p = inr q /\
            running q = true /\ slept q = (slept p + seconds)%nat /\
            sessions q = sessions p /\ trace q = trace p.
Proof.
  induction seconds as [|n IH]; intros p R Q.
  - exists p. simpl. repeat split; auto; lia.
  - simpl. rewrite R. simpl. unfold sleep_one_second.
    rewrite (Q (slept p)) by lia.
    destruct (IH {| running := running p; sessions := sessions p;
                    trace := trace p; slept := S (slept p) |}) as (q & -> & Rq & Sq & Dq & Tq).
    + exact R.
    + simpl. intros k Hk. apply Q. lia.
    + exists q. simpl in *. repeat split; auto; lia.
Qed.


(** With a handler that only clears the flag, the interrupted sleep runs
    to its end and the loop then returns through the flag. *)
Lemma wait_flag arrivals seconds : forall p j signum,
  running p = true ->
  (slept p <= j < slept p + seconds)%nat ->
  arrivals j = Some signum ->
  (forall k, (slept p <= k < j)%nat -> arrivals k = None) ->
  exists q, wait flag_handler arrivals seconds p = inr q /\
            running q = false /\ slept q = S j /\
            sessions q = sessions p /\ trace q = trace p.
Proof.
  induction seconds as [|n IH]; intros p j signum R J A Q; [lia|].
  simpl. rewrite R. simpl. unfold sleep_one_second.
  destruct (Nat.eq_dec j (slept p)) as [->|Ne].
  - rewrite A. simpl. eexists. split.
    + destruct n; reflexivity.
    + simpl. repeat split; reflexivity.
  - rewrite (Q (slept p)) by lia.
    destruct (IH {| running := running p; sessions := sessions p;
                    trace := trace p; slept := S (slept p) |} j signum)
      as (q & -> & Rq & Sq & Dq & Tq); simpl; auto; try lia.
    + intros k Hk. apply Q. lia.
    + exists q. simpl in *. repeat split; auto.
Qed.

Lemma flag_handler_ends_loop arrivals interval_seconds rounds p j signum :
  running p = true ->
  (0 < interval_seconds)%nat ->
  (slept p <= j)%nat ->
  arrivals j = Some signum ->
  (forall k, (slept p <= k < j)%nat -> arrivals k = None) ->
  (j - slept p < rounds * interval_seconds)%nat ->
  exists q,
    periodic_loop flag_handler arrivals interval_seconds (S rounds) p = Finished q /\
    running q = false /\ slept q = S j.
Proof.
  intros R I J A Q Far.
  revert p R J Q Far. induction rounds as [|n IH]; intros p R J Q Far; [simpl in Far; lia|].
  cbn [Dedup.periodic_loop]. rewrite R. cbn [negb].
  destruct (Nat.lt_ge_cases j (slept p + interval_seconds)) as [Near|Later].
  - destruct (wait_flag arrivals interval_seconds p j signum R (conj J Near) A Q)
      as (q & -> & Rq & Sq & _).
    rewrite Rq. destruct n; simpl; rewrite Rq; exists q; auto.
  - destruct (wait_quiet_with flag_handler arrivals interval_seconds p R)
      as (q & -> & Rq & Sq & _).
    { intros k Hk. apply Q. lia. }
    rewrite Rq.
    destruct (scan_keeps (say INFO MsgPeriodicCheck q)) as [Rs Ss]. simpl in Rs, Ss.
    apply IH.
    + now rewrite Rs.
    + rewrite Ss. lia.
    + intros k Hk. apply Q. rewrite Ss in Hk. lia.
    + rewrite Ss. simpl in Far. lia.
Qed.

Lemma wait_exit_or_on arrivals seconds : forall p,
  running p = true ->
  match wait signal_handler arrivals seconds p with
  | inl (e, q) => e = SystemExit 0 /\ running q = true
  | inr q => running q = true
  end.
Proof.
  induction seconds as [|n IH]; intros p R; [exact R|].
  cbn [wait]. rewrite R. cbn [negb]. unfold sleep_one_second.
  destruct (arrivals (slept p)) as [signum|]; cbn [signal_handler].
  - split; [reflexivity|exact R].
  - apply IH. exact R.
Qed.

Lemma loop_exit_or_on arrivals interval_seconds rounds : forall p,
  running p = true ->
  match periodic_loop signal_handler arrivals interval_seconds rounds p with
  | Finished _ => False
  | Exited code q => code = 0 /\ running q = true
  | Sleeping q => running q = true
  end.
Proof.
  induction rounds as [|n IH]; intros p R; [exact R|].
  cbn [Dedup.periodic_loop]. rewrite R. cbn [negb].
  pose proof (wait_exit_or_on arrivals interval_seconds p R) as W.
  destruct (wait signal_handler arrivals interval_seconds p) as [[e q]|q].
  - destruct W as [-> Rq]. split; [reflexivity|exact Rq].
  - rewrite W. apply IH.
    destruct (scan_keeps (say INFO MsgPeriodicCheck q)) as [Rs _].
    rewrite Rs. exact W.
Qed.





End Facts.

(** ** The statements at work on sample data *)

Lemma sample_directory_NoDup : NoDup (map name sample_directory).
Proof.
  repeat constructor; simpl; intuition discriminate.
Qed.

(** A scan can be cut short before it deletes anything: a timestamp
    read from a field ending in Z carries a time zone, one taken from
    the modification time does not, and the sort cannot compare them. *)
Example mixed_timestamps_abort_the_scan :
  scan_and_deduplicate sample_fromisoformat sample_localtime (Some mixed_directory) =
    (inr tt, Some mixed_directory,
     [Log INFO (MsgAnalysing 2); Open "a.json"; Open "c.json"; Stat "c.json";
      Log ERROR (MsgDedupError TypeError)]).
Proof. vm_compute. reflexivity. Qed.

Lemma C1_witness :
  (forall session_id files,
      In (session_id, files)
         (session_groups sample_fromisoformat sample_localtime (Some sample_directory)) ->
      exists newest,
        latest_of files newest /\
        forall x,
          In x files ->
          (present (fst x)
             (snd (fst (scan_and_deduplicate sample_fromisoformat sample_localtime
                          (Some sample_directory)))) <-> x = newest)) /\
  Forall (fun g => List.length (snd g) = 1%nat)
    (session_groups sample_fromisoformat sample_localtime
       (snd (fst (scan_and_deduplicate sample_fromisoformat sample_localtime
                    (Some sample_directory))))).
Proof.
  apply (C1_latest_member_survives sample_fromisoformat sample_localtime
           sample_directory (inr tt) _
           (snd (scan_and_deduplicate sample_fromisoformat sample_localtime
                   (Some sample_directory)))).
  - exact sample_directory_NoDup.
  - vm_compute. reflexivity.
  - vm_compute. reflexivity.
Defined.

Lemma C2_witness :
  snd (fst (rescan sample_fromisoformat sample_localtime (Some sample_directory))) =
  snd (fst (scan_and_deduplicate sample_fromisoformat sample_localtime
              (Some sample_directory))) /\
  (forall ev,
      In ev (snd (rescan sample_fromisoformat sample_localtime (Some sample_directory))) ->
      is_unlink ev = false /\ is_failure ev = false) /\
  completed_successfully
    (snd (rescan sample_fromisoformat sample_localtime (Some sample_directory))) = true /\
  Forall (fun g => List.length (snd g) = 1%nat)
    (session_groups sample_fromisoformat sample_localtime
       (snd (fst (scan_and_deduplicate sample_fromisoformat sample_localtime
                    (Some sample_directory))))) /\
  (forall p ev,
      In p (candidates sample_directory) ->
      In ev (info_events sample_fromisoformat sample_localtime (Some sample_directory) p) ->
      is_error ev = true ->
      In ev (snd (scan_and_deduplicate sample_fromisoformat sample_localtime
                    (Some sample_directory))) /\
      In ev (snd (rescan sample_fromisoformat sample_localtime (Some sample_directory)))) /\
  (forall p f,
      In p (candidates sample_directory) ->
      find_file p (Some sample_directory) = Some f ->
      match load f with
      | Malformed =>
          In (Log ERROR (MsgDecodeError p))
             (snd (rescan sample_fromisoformat sample_localtime (Some sample_directory)))
      | Unreadable e =>
          In (Log ERROR (error_record p e))
             (snd (rescan sample_fromisoformat sample_localtime (Some sample_directory)))
      | Document _ => True
      end).
Proof.
  apply (C2_second_scan_changes_nothing sample_fromisoformat sample_localtime
           sample_directory (inr tt) _
           (snd (scan_and_deduplicate sample_fromisoformat sample_localtime
                   (Some sample_directory)))
           (inr tt)).
  - exact sample_directory_NoDup.
  - vm_compute. reflexivity.
  - vm_compute. reflexivity.
  - vm_compute. reflexivity.
Defined.

(** C2 as stated fails: with one unparsable file in the directory the
    second scan deletes nothing, yet it logs the decoding error again. *)
Lemma C2_counterexample :
  ~ (snd (fst (rescan sample_fromisoformat sample_localtime (Some broken_directory))) =
     snd (fst (scan_and_deduplicate sample_fromisoformat sample_localtime
                 (Some broken_directory))) /\
     reports_no_errors
       (snd (rescan sample_fromisoformat sample_localtime (Some broken_directory))) = true).
Proof.
  intros [_ H]. vm_compute in H. discriminate H.
Qed.

Lemma C3_witness :
  ~ In (Open "current-session.json")
       (snd (scan_and_deduplicate sample_fromisoformat sample_localtime
               (Some sample_directory))) /\
  ~ In (Stat "current-session.json")
       (snd (scan_and_deduplicate sample_fromisoformat sample_localtime
               (Some sample_directory))) /\
  ~ In (Unlink "current-session.json")
       (snd (scan_and_deduplicate sample_fromisoformat sample_localtime
               (Some sample_directory))) /\
  find_file "current-session.json"
    (snd (fst (scan_and_deduplicate sample_fromisoformat sample_localtime
                 (Some sample_directory)))) =
  find_file "current-session.json" (Some sample_directory).
Proof.
  apply (C3_excluded_files_untouched sample_fromisoformat sample_localtime
           (Some sample_directory) (inr tt)).
  - left. reflexivity.
  - vm_compute. reflexivity.
Defined.

Lemma C4_witness :
  get_session_info sample_fromisoformat sample_localtime "broken.json"
    (Some sample_directory) =
    (inr None, Some sample_directory,
     [Open "broken.json"; Log ERROR (MsgDecodeError "broken.json")]) /\
  (forall g,
      In g (session_groups sample_fromisoformat sample_localtime (Some sample_directory)) ->
      ~ In "broken.json" (map fst (snd g))) /\
  (forall r s' evs,
      scan_and_deduplicate sample_fromisoformat sample_localtime (Some sample_directory) =
        (r, s', evs) ->
      find_file "broken.json" s' =
        Some {| name := "broken.json"; load := Malformed;
                mtime := 1704160000000000; unlinkable := true |} /\
      ~ In (Unlink "broken.json") evs /\
      (In (Open "broken.json") evs ->
       In (Log ERROR (MsgDecodeError "broken.json")) evs) /\
      (In "broken.json" (candidates_of (Some sample_directory)) ->
       forallb (fun x => hashable (fst x))
         (resolved sample_fromisoformat sample_localtime (Some sample_directory)
            (candidates_of (Some sample_directory))) = true ->
       In (Log ERROR (MsgDecodeError "broken.json")) evs)).
Proof.
  apply (C4_malformed_file_left_alone sample_fromisoformat sample_localtime).
  - reflexivity.
  - reflexivity.
Defined.

Lemma C5_witness :
  session_id_of (JObj shadowed_members) = inr (JStr "abc").
Proof.
  apply (proj1 (C5_first_truthy_field_wins sample_fromisoformat sample_localtime
                  shadowed_members)
           ["activeSessionId"] "sessionId" ["id"; "accountId"]).
  - reflexivity.
  - constructor; [reflexivity|constructor].
  - reflexivity.
Defined.

(** C5 as stated fails: [activeSessionId] is present, with an empty
    string as value, and the identifier is taken from [sessionId]. *)
Lemma C5_counterexample :
  ~ (forall v, first_present shadowed_members id_fields = Some v ->
               session_id_of (JObj shadowed_members) = inr v).
Proof.
  intros H. specialize (H (JStr "") eq_refl). vm_compute in H. discriminate H.
Qed.

Lemma C6_witness :
  (forall wall,
      sample_localtime 1704250000000000 = inr wall ->
      let timestamp := {| tz_aware := false; ticks := wall |} in
      get_session_info sample_fromisoformat sample_localtime "plain.json"
        (Some sample_directory) =
        (inr (Some (JStr "y", timestamp)), Some sample_directory,
         [Open "plain.json"; Stat "plain.json"]) /\
      (forall g ts,
          In g (session_groups sample_fromisoformat sample_localtime
                  (Some sample_directory)) ->
          In ("plain.json", ts) (snd g) -> ts = timestamp) /\
      (In "plain.json" (candidates_of (Some sample_directory)) ->
       forallb (fun x => hashable (fst x))
         (resolved sample_fromisoformat sample_localtime (Some sample_directory)
            (candidates_of (Some sample_directory))) = true ->
       exists g,
         In g (session_groups sample_fromisoformat sample_localtime
                 (Some sample_directory)) /\
         In ("plain.json", timestamp) (snd g))) /\
  (forall e,
      sample_localtime 1704250000000000 = inl e ->
      get_session_info sample_fromisoformat sample_localtime "plain.json"
        (Some sample_directory) =
        (inr None, Some sample_directory,
         [Open "plain.json"; Stat "plain.json";
          Log ERROR (error_record "plain.json" e)]) /\
      forall g,
        In g (session_groups sample_fromisoformat sample_localtime
                (Some sample_directory)) ->
        ~ In "plain.json" (map fst (snd g))).
Proof.
  apply (C6_mtime_fallback sample_fromisoformat sample_localtime (Some sample_directory)
           "plain.json"
           {| name := "plain.json"; load := Document (JObj [("id", JStr "y")]);
              mtime := 1704250000000000; unlinkable := true |}
           [("id", JStr "y")] (JStr "y")); reflexivity.
Defined.

(** C6 as stated fails: a session file without timestamp fields whose
    modification time lies in the year 10000 is not dated by it;
    [datetime.fromtimestamp] raises and the file resolves to nothing. *)
Lemma C6_counterexample :
  ~ (forall s p f members session_id,
        find_file p s = Some f ->
        load f = Document (JObj members) ->
        lookup "updatedAt" members = None ->
        lookup "timestamp" members = None ->
        lookup "createdAt" members = None ->
        session_id_of (JObj members) = inr session_id ->
        truthy session_id = true ->
        exists timestamp,
          get_session_info sample_fromisoformat sample_localtime p s =
            (inr (Some (session_id, timestamp)), s, [Open p; Stat p])).
Proof.
  intros H.
  destruct (H (Some late_directory) "late.json"
              {| name := "late.json"; load := Document (JObj [("id", JStr "z")]);
                 mtime := 253402300800000000; unlinkable := true |}
              [("id", JStr "z")] (JStr "z")
              eq_refl eq_refl eq_refl eq_refl eq_refl eq_refl eq_refl) as [timestamp E].
  vm_compute in E. discriminate E.
Qed.



(** What C8 describes is the loop under a handler that clears the flag
    and returns: the interrupted sleep runs to its end, the flag is
    found cleared at the next check, and the loop returns normally. *)
Example stop_flag_handler_finishes :
  exists q,
    run_periodic_check sample_fromisoformat sample_localtime flag_handler third_second
      1 2 (init (Some sample_directory)) = Finished q /\
    running q = false /\ slept q = 3%nat.
Proof.
  eexists. split; [vm_compute; reflexivity|]. split; reflexivity.
Qed.


End DedupFacts.

(* ===================================================================== *)
(** * Facts about the icon generator                                      *)
(* ===================================================================== *)

Module IconsFacts.
Import Icons.

Section Facts.

Variable truetype_found : string -> bool.
Variable default_font_loads : bool.
Variable textbbox : font -> string -> option (Z * Z * Z * Z).
Variable text_draws : font -> string -> bool.

Local Abbreviation label := (Icons.label truetype_found default_font_loads textbbox text_draws).
Local Abbreviation draw_label :=
  (Icons.draw_label truetype_found default_font_loads textbbox text_draws).
Local Abbreviation create_icon :=
  (Icons.create_icon truetype_found default_font_loads textbbox text_draws).
Local Abbreviation main := (Icons.main truetype_found default_font_loads textbbox text_draws).
Local Abbreviation choose_font := (Icons.choose_font truetype_found default_font_loads).

Lemma draw_same_size sh img : same_size (draw sh img) img.
Proof. split; reflexivity. Qed.

Lemma fold_draw_same_size (A : Type) (f : A -> shape) (l : list A) : forall img,
  same_size (fold_left (fun img a => draw (f a) img) l img) img.
Proof.
  induction l as [|a l IH]; intros img; simpl; [split; reflexivity|].
  destruct (IH (draw (f a) img)) as [W H]. split; [rewrite W|rewrite H]; reflexivity.
Qed.

Lemma unlabelled_size size : width (unlabelled size) = size /\ height (unlabelled size) = size.
Proof.
  unfold unlabelled, draw_key, draw_gradient.
  match goal with
  | |- context [fold_left ?g ?l ?i] =>
      destruct (fold_draw_same_size _ (fun pos => Rectangle
                  (size / 2 + py_int (8 * (inject_Z size / 128))%Q / 2) pos
                  (size / 2 + py_int (8 * (inject_Z size / 128))%Q / 2
                   + py_int (4 * (inject_Z size / 128))%Q)
                  (pos + py_int (3 * (inject_Z size / 128))%Q) white) l i) as [W H]
  end.
  cbv zeta. rewrite W, H. simpl.
  destruct (fold_draw_same_size _ (gradient_row size) (range size) (new_image size)) as [W' H'].
  rewrite W', H'. split; reflexivity.
Qed.

Lemma draw_label_cases size img :
  (draw_label size img = img /\ (size < 48 \/ label size = None)) \/
  (exists sh, 48 <= size /\ label size = Some sh /\ is_text sh = true /\
              draw_label size img = draw sh img).
Proof.
  unfold Icons.draw_label. destruct (48 <=? size) eqn:E.
  - apply Z.leb_le in E. destruct (label size) as [sh|] eqn:L.
    + right. exists sh. repeat split; auto.
      unfold Icons.label in L. destruct (choose_font _); [|discriminate].
      destruct (textbbox _ _) as [[[[b0 b1] b2] b3]|]; [|discriminate].
      destruct (text_draws _ _); [|discriminate]. now injection L as <-.
    + left. auto.
  - apply Z.leb_gt in E. left. auto.
Qed.

(** Everything drawn below the label is a rectangle or an ellipse. *)
Lemma fold_draw_no_text (A : Type) (f : A -> shape) (l : list A) :
  (forall a, is_text (f a) = false) ->
  forall img, has_label img = false ->
              has_label (fold_left (fun img a => draw (f a) img) l img) = false.
Proof.
  intros F. induction l as [|a l IH]; intros img H; simpl; [exact H|].
  apply IH. unfold has_label, draw. simpl. rewrite existsb_app. simpl.
  unfold has_label in H. now rewrite H, F.
Qed.

Lemma unlabelled_no_text size : has_label (unlabelled size) = false.
Proof.
  unfold unlabelled, draw_key. cbv zeta.
  apply fold_draw_no_text; [reflexivity|].
  unfold has_label, draw. simpl. rewrite !existsb_app. simpl.
  rewrite !orb_false_r.
  apply (fold_draw_no_text _ (gradient_row size) (range size)); reflexivity.
Qed.

Lemma create_icon_picture size name :
  picture (create_icon size name) = draw_label size (unlabelled size).
Proof. reflexivity. Qed.

Lemma create_icon_size size name :
  width (picture (create_icon size name)) = size /\
  height (picture (create_icon size name)) = size.
Proof.
  rewrite create_icon_picture.
  destruct (draw_label_cases size (unlabelled size)) as [[-> _]|(sh & _ & _ & _ & ->)].
  - apply unlabelled_size.
  - destruct (draw_same_size sh (unlabelled size)) as [-> ->]. apply unlabelled_size.
Qed.

(** C9.  One run of [main] saves exactly three files, all PNG:
    icon16.png at 16x16, icon48.png at 48x48 and icon128.png at 128x128,
    in this order, whatever fonts the system has. *)
Theorem C9_three_icons :
  map (fun s => (filename s, format s, width (picture s), height (picture s))) main =
  [("icon16.png", "PNG", 16, 16);
   ("icon48.png", "PNG", 48, 48);
   ("icon128.png", "PNG", 128, 128)].
Proof.
  unfold Icons.main, icons. cbn [map fst snd].
  assert (D : forall size name,
             (filename (create_icon size name), format (create_icon size name),
              width (picture (create_icon size name)),
              height (picture (create_icon size name))) = (name, "PNG", size, size)).
  { intros size name. destruct (create_icon_size size name) as [-> ->]. reflexivity. }
  now rewrite !D.
Qed.

(** C10.  For a positive size, [create_icon] saves a [size] x [size]
    image under the given name in every case.  Text is drawn only when
    the size is at least 48; when no font can be loaded, or measuring or
    drawing the text fails, the saved image is the unlabelled icon, and
    so it is below 48; otherwise it is the unlabelled icon with the
    letter on top. *)
Theorem C10_label_is_optional size name :
  0 < size ->
  filename (create_icon size name) = name /\
  width (picture (create_icon size name)) = size /\
  height (picture (create_icon size name)) = size /\
  (has_label (picture (create_icon size name)) = true -> 48 <= size) /\
  (size < 48 -> picture (create_icon size name) = unlabelled size) /\
  (choose_font (py_int (14 * (inject_Z size / 128))%Q) = None ->
   picture (create_icon size name) = unlabelled size) /\
  (forall face,
      choose_font (py_int (14 * (inject_Z size / 128))%Q) = Some face ->
      textbbox face "S" = None \/ text_draws face "S" = false ->
      picture (create_icon size name) = unlabelled size) /\
  (label size = None -> picture (create_icon size name) = unlabelled size) /\
  (forall sh, 48 <= size -> label size = Some sh ->
              picture (create_icon size name) = draw sh (unlabelled size)).
Proof.
  intros Pos. destruct (create_icon_size size name) as [W H].
  rewrite create_icon_picture in *.
  assert (None_ok : label size = None -> draw_label size (unlabelled size) = unlabelled size).
  { intros L. unfold Icons.draw_label. rewrite L. now destruct (48 <=? size). }
  split; [reflexivity|].
  split; [|split].
  - exact W.
  - exact H.
  - split; [|split; [|split; [|split; [|split]]]].
    + destruct (draw_label_cases size (unlabelled size)) as [[-> _]|(sh & L & _)].
      * rewrite unlabelled_no_text. discriminate.
      * intros _. exact L.
    + intros Small. unfold Icons.draw_label.
      apply Z.leb_gt in Small. now rewrite Small.
    + intros F. apply None_ok. unfold Icons.label. cbv zeta. now rewrite F.
    + intros face F [B|T]; apply None_ok; unfold Icons.label; cbv zeta; rewrite F.
      * now rewrite B.
      * destruct (textbbox face "S") as [[[[b0 b1] b2] b3]|]; [|reflexivity].
        now rewrite T.
    + exact None_ok.
    + intros sh Big L. unfold Icons.draw_label.
      apply Z.leb_le in Big. now rewrite Big, L.
Qed.

End Facts.

Lemma C10_witness :
  width (picture (create_icon no_truetype false no_textbbox no_text 48 "icon48.png")) = 48 /\
  picture (create_icon no_truetype false no_textbbox no_text 48 "icon48.png") =
    unlabelled 48.
Proof.
  destruct (C10_label_is_optional no_truetype false no_textbbox no_text
              48 "icon48.png" eq_refl) as (_ & W & _ & _ & _ & F & _).
  split; [exact W|apply F; reflexivity].
Defined.

End IconsFacts.


(* ===================================================================== *)
(** * More about the session deduplicator                                 *)
(* ===================================================================== *)

Module DedupMore.
Import Py Dedup PyFacts DedupFacts.
Local Open Scope dedup_scope.

Section More.

Variable fromisoformat : string -> option datetime.
Variable localtime : Z -> exn + Z.

Local Abbreviation parse_timestamp := (Dedup.parse_timestamp fromisoformat).
Local Abbreviation get_session_info := (Dedup.get_session_info fromisoformat localtime).
Local Abbreviation session_info := (Dedup.session_info fromisoformat localtime).
Local Abbreviation info_at := (Dedup.info_at fromisoformat localtime).
Local Abbreviation info_events := (Dedup.info_events fromisoformat localtime).
Local Abbreviation resolved := (Dedup.resolved fromisoformat localtime).
Local Abbreviation collect := (Dedup.collect fromisoformat localtime).
Local Abbreviation session_groups := (Dedup.session_groups fromisoformat localtime).
Local Abbreviation scan_body := (Dedup.scan_body fromisoformat localtime).
Local Abbreviation scan_and_deduplicate := (Dedup.scan_and_deduplicate fromisoformat localtime).

(** *** What a scan can and cannot do *)

Lemma victim_has_rivals files n :
  In n (victims_of files) -> (1 < List.length files)%nat /\ In n (map fst files).
Proof.
  intros H. split; [|now apply victims_of_incl].
  unfold victims_of in H. destruct (1 <? List.length files)%nat eqn:E; [|destruct H].
  now apply Nat.ltb_lt.
Qed.

Lemma scan_on_missing_directory r s' evs :
  scan_and_deduplicate None = (r, s', evs) ->
  r = inr tt /\ s' = None /\ evs = [Log ERROR MsgDirMissing].
Proof.
  intros H. change (scan_and_deduplicate None) with
    (@inr exn unit tt, @None (list file), [Log ERROR MsgDirMissing]) in H.
  repeat split; congruence.
Qed.

(** X1.  No exception leaves [scan_and_deduplicate].  The directory
    afterwards is the directory before without some files; each file
    removed is a [*.json] file outside the exclusion set that shares its
    identifier group with at least one other file, and every file still
    there is found as it was. *)
Theorem scan_only_removes_duplicates s r s' evs :
  scan_and_deduplicate s = (r, s', evs) ->
  r = inr tt /\
  exists removed,
    s' = remove_names removed s /\
    (forall n, In n removed ->
       endswith n ".json" = true /\ excluded n = false /\
       exists g, In g (session_groups s) /\
                 (1 < List.length (snd g))%nat /\ In n (map fst (snd g))) /\
    (forall p, present p s' -> find_file p s' = find_file p s).
Proof.
  intros Run. destruct s as [d|].
  - destruct (scan_result fromisoformat localtime d _ _ _ Run) as (removed & -> & -> & I & _).
    split; [reflexivity|]. exists removed. split; [reflexivity|]. split.
    + intros n Hn. apply I in Hn.
      assert (Hc : In n (candidates d)).
      { apply (session_groups_incl fromisoformat localtime (Some d)). now apply all_victims_incl. }
      unfold candidates in Hc. apply filter_In in Hc. destruct Hc as [Hc Ex].
      apply filter_In in Hc. destruct Hc as [_ Js].
      apply negb_true_iff in Ex. split; [exact Js|]. split; [exact Ex|].
      unfold all_victims in Hn. apply in_flat_map in Hn. destruct Hn as (g & Hg & Hn).
      exists g. split; [exact Hg|]. now apply victim_has_rivals.
    + intros p Hp. apply (names_remove_names fromisoformat) in Hp. destruct Hp as [_ Hp].
      now apply find_file_remove_names.
  - destruct (scan_on_missing_directory _ _ _ Run) as (-> & -> & _).
    split; [reflexivity|]. exists []. split; [reflexivity|].
    split; [intros n []|intros p []].
Qed.

(** X2.  No scan loses a session: whatever fails on the way, every
    identifier group still has a member in the directory afterwards, and
    when the group could be sorted that member is the latest one. *)
Theorem every_group_keeps_a_member d r s' evs session_id files :
  NoDup (map name d) ->
  scan_and_deduplicate (Some d) = (r, s', evs) ->
  In (session_id, files) (session_groups (Some d)) ->
  exists x,
    In x files /\ present (fst x) s' /\
    (sortable (session_id, files) -> latest_of files x).
Proof.
  intros ND Run Hg.
  destruct (scan_result fromisoformat localtime d _ _ _ Run) as (removed & _ & -> & I & _).
  pose proof (session_groups_NoDup fromisoformat localtime d ND) as NDm.
  assert (MI : forall x, In x files -> In (fst x) (map name d)).
  { intros x Hx. apply (candidates_incl fromisoformat). apply (session_groups_incl fromisoformat localtime (Some d)).
    unfold member_names. apply in_flat_map. exists (session_id, files).
    split; [exact Hg|]. simpl. now apply in_map. }
  assert (NDf : NoDup (map fst files)).
  { exact (NoDup_flat_map_in _ _ (fun g : json * list entry => map fst (snd g))
             _ _ NDm Hg). }
  assert (Kept : forall x, In x files -> ~ In (fst x) (victims_of files) ->
                           present (fst x) (remove_names removed (Some d))).
  { intros x Hx NV. apply (names_remove_names fromisoformat). split; [now apply MI|].
    intros Hr. apply NV. apply I in Hr.
    apply (victim_of_own_group _ (session_id, files) (fst x) NDm Hg); [|exact Hr].
    simpl. now apply in_map. }
  pose proof (session_groups_nonempty fromisoformat localtime (Some d)) as NE.
  rewrite Forall_forall in NE. specialize (NE _ Hg). simpl in NE.
  destruct (Nat.ltb_spec 1 (List.length files)) as [Len|Len].
  - destruct (sort_newest_first files) as [e|[|newest others]] eqn:S.
    + destruct files as [|x rest]; [contradiction|]. exists x.
      split; [now left|]. split.
      * apply Kept; [now left|]. unfold victims_of. rewrite S.
        destruct (1 <? _)%nat; intros [].
      * intros Srt. destruct (Srt Len) as (n & o & E). cbn [snd] in E. congruence.
    + apply sort_newest_first_perm in S. apply Permutation_nil in S. contradiction.
    + pose proof (sort_newest_first_perm _ _ S) as P.
      exists newest. split; [apply (Permutation_in _ P); now left|]. split.
      * apply Kept; [apply (Permutation_in _ P); now left|].
        unfold victims_of. apply Nat.ltb_lt in Len. rewrite Len, S.
        pose proof (Permutation_NoDup (Permutation_sym (Permutation_map fst P)) NDf) as N.
        simpl in N. apply NoDup_cons_iff in N. tauto.
      * intros _. exact (sort_newest_first_head _ _ _ S).
  - destruct files as [|x [|y rest]]; [contradiction| |simpl in Len; lia].
    exists x. split; [now left|]. split.
    + apply Kept; [now left|]. intros [].
    + intros _. exists [], []. repeat split; constructor.
Qed.

Lemma unresolved_not_grouped s p :
  info_at s p = None ->
  (forall g, In g (session_groups s) -> ~ In p (map fst (snd g))) /\
  ~ In p (member_names (session_groups s)).
Proof.
  intros Inf.
  assert (NotMember : ~ In p (member_names (session_groups s))).
  { intros H. destruct (member_has_group _ _ H) as ([k files] & x & Hg & Hx & E).
    rewrite session_groups_eq in Hg. destruct (forallb _ _); [|destruct Hg].
    destruct (group_sound_nil _ _ _ _ Hg Hx) as (sid & Hs & _).
    apply resolved_In in Hs. destruct Hs as [_ Hs]. simpl in Hs.
    rewrite E in Hs. congruence. }
  split; [|exact NotMember].
  intros g Hg Hp. apply NotMember. unfold member_names. apply in_flat_map. eauto.
Qed.

(** X3.  A file that [get_session_info] does not resolve -- unreadable,
    not an object, without identifier, or with a timestamp that does not
    parse -- belongs to no group and is never removed. *)
Theorem unresolved_file_is_kept s p r s' evs :
  info_at s p = None ->
  scan_and_deduplicate s = (r, s', evs) ->
  (forall g, In g (session_groups s) -> ~ In p (map fst (snd g))) /\
  ~ In (Unlink p) evs /\
  find_file p s' = find_file p s.
Proof.
  intros Inf Run.
  destruct (unresolved_not_grouped s p Inf) as [NotGrouped NotMember].
  split; [exact NotGrouped|].
  destruct s as [d|].
  - destruct (scan_result fromisoformat localtime d _ _ _ Run) as (removed & _ & -> & I & _ & _ & _ & _ & _ & U & _).
    assert (NV : ~ In p (all_victims (session_groups (Some d)))).
    { intros H. apply NotMember. now apply all_victims_incl. }
    split.
    + intros H. apply NV. now apply U.
    + apply find_file_remove_names. intros H. apply NV. now apply I.
  - destruct (scan_on_missing_directory _ _ _ Run) as (_ & -> & ->).
    split; [|reflexivity]. intros [H|[]]. discriminate.
Qed.

(** X4.  A file whose name does not end in [.json] is never opened,
    examined or removed by a scan, and is found afterwards as before. *)
Theorem other_files_are_ignored s p r s' evs :
  endswith p ".json" = false ->
  scan_and_deduplicate s = (r, s', evs) ->
  ~ In (Open p) evs /\ ~ In (Stat p) evs /\ ~ In (Unlink p) evs /\
  find_file p s' = find_file p s.
Proof.
  intros Js Run. destruct s as [d|].
  - destruct (scan_result fromisoformat localtime d _ _ _ Run) as (removed & _ & -> & I & W & _).
    assert (N : ~ In p (candidates d)).
    { unfold candidates. intros H. apply filter_In in H. destruct H as [H _].
      apply filter_In in H. destruct H as [_ H]. congruence. }
    rewrite Forall_forall in W.
    repeat split; try (intros H; apply N; exact (W _ H p eq_refl)).
    apply find_file_remove_names. intros H. apply N.
    apply (session_groups_incl fromisoformat localtime (Some d)). apply all_victims_incl. now apply I.
  - destruct (scan_on_missing_directory _ _ _ Run) as (_ & -> & ->).
    repeat split; intros [H|[]]; discriminate.
Qed.

(** *** The three phases of a scan *)

Local Abbreviation report := Dedup.report.

Lemma collect_keeps_state names m s :
  snd (fst (collect names m s)) = s.
Proof. destruct (collect_run fromisoformat localtime names m s) as (evs & -> & _). reflexivity. Qed.

(** A scan of a directory with candidates, phase by phase. *)
Lemma scan_phases d :
  candidates d <> [] ->
  scan_and_deduplicate (Some d) =
    match collect (candidates d) [] (Some d) with
    | (inl e, _, evs1) =>
        (inr tt, Some d,
         Log INFO (MsgAnalysing (List.length (candidates d))) :: evs1
           ++ [Log ERROR (MsgDedupError e)])
    | (inr m, _, evs1) =>
        match dedup_groups m 0 (Some d) with
        | (inl e, s2, evs2) =>
            (inr tt, s2,
             Log INFO (MsgAnalysing (List.length (candidates d))) :: evs1 ++ evs2
               ++ [Log ERROR (MsgDedupError e)])
        | (inr total, s2, evs2) =>
            (inr tt, s2,
             Log INFO (MsgAnalysing (List.length (candidates d))) :: evs1 ++ evs2
               ++ snd (report (List.length m) total s2))
        end
    end.
Proof.
  intros NE.
  unfold Dedup.scan_and_deduplicate, try_except, Dedup.scan_body.
  unfold bind at 1. unfold dir_exists. cbn [negb].
  unfold bind at 1. rewrite list_json_files_run.
  destruct (candidates d) as [|c cs] eqn:Cd; [contradiction|].
  rewrite <- Cd. clear NE.
  unfold bind at 1. unfold log at 1. unfold emit.
  unfold bind at 1.
  pose proof (collect_keeps_state (candidates d) [] (Some d)) as K.
  destruct (collect (candidates d) [] (Some d)) as [[[e|m] s1] evs1]; simpl in K; subst s1.
  - unfold log, emit. cbn [app]. reflexivity.
  - unfold bind at 1.
    destruct (dedup_groups m 0 (Some d)) as [[[e|total] s2] evs2].
    + unfold log, emit. cbn [app]. rewrite <- ?app_assoc. reflexivity.
    + destruct (report_run (List.length m) total s2) as (evs3 & E3 & _).
      rewrite E3. cbn [app snd]. reflexivity.
Qed.

(** *** Reading the files *)

Local Abbreviation read_prefix := (Dedup.read_prefix fromisoformat localtime).

Lemma opened_app a b : opened (a ++ b) = opened a ++ opened b.
Proof. unfold opened. apply flat_map_app. Qed.

Lemma session_info_opened p fo info evs :
  session_info p fo info evs -> opened evs = [p].
Proof. intros H. destruct H; reflexivity. Qed.

Lemma info_events_opened s p : opened (info_events s p) = [p].
Proof. exact (session_info_opened _ _ _ _ (session_info_at fromisoformat localtime p s)). Qed.

Lemma collect_opened names : forall m s,
  opened (snd (collect names m s)) = read_prefix s names.
Proof.
  induction names as [|p rest IH]; intros m s; [reflexivity|].
  cbn [Dedup.collect Dedup.read_prefix]. unfold bind at 1.
  rewrite (get_session_info_run fromisoformat localtime).
  destruct (info_at s p) as [[sid ts]|] eqn:E.
  - rewrite (info_at_truthy fromisoformat localtime _ _ _ _ E).
    unfold bind, lift, map_append.
    destruct (hashable sid); cbn [ret raise].
    + specialize (IH (append_to sid (p, ts) m) s).
      destruct (collect rest (append_to sid (p, ts) m) s) as [[r s1] evs].
      cbn [snd app] in *. rewrite opened_app, info_events_opened, IH. reflexivity.
    + cbn [snd]. rewrite opened_app, info_events_opened. reflexivity.
  - unfold bind, ret. specialize (IH m s).
    destruct (collect rest m s) as [[r s1] evs].
    cbn [snd app] in *. rewrite opened_app, info_events_opened, IH. reflexivity.
Qed.

Lemma read_prefix_all s names :
  forallb (fun x => hashable (fst x)) (resolved s names) = true ->
  read_prefix s names = names.
Proof.
  induction names as [|p rest IH]; [reflexivity|].
  unfold Dedup.resolved. cbn [flat_map Dedup.read_prefix]. fold (resolved s rest).
  destruct (info_at s p) as [[sid ts]|].
  - cbn [app forallb fst]. intros H. apply andb_true_iff in H. destruct H as [-> H].
    now rewrite IH.
  - cbn [app]. intros H. now rewrite IH.
Qed.

Lemma no_open_opened evs : (forall p, ~ In (Open p) evs) -> opened evs = [].
Proof.
  induction evs as [|ev evs IH]; intros H; [reflexivity|].
  unfold opened in *. cbn [flat_map]. rewrite IH.
  - destruct ev; try reflexivity. destruct (H path). now left.
  - intros p Hp. apply (H p). now right.
Qed.

(** X5.  A scan opens the [*.json] files outside the exclusion set one
    by one in listing order, one [open] per listed file, and stops
    reading after the first file whose identifier is a list or an
    object; when there is no such file, the files opened are exactly
    the candidates, in their order. *)
Theorem scan_opens_candidates_in_order d r s' evs :
  scan_and_deduplicate (Some d) = (r, s', evs) ->
  opened evs = read_prefix (Some d) (candidates d) /\
  (forallb (fun x => hashable (fst x)) (resolved (Some d) (candidates d)) = true ->
   opened evs = candidates d).
Proof.
  intros Run.
  assert (E : opened evs = read_prefix (Some d) (candidates d)).
  { destruct (candidates d) as [|c cs] eqn:Cd.
    - unfold Dedup.scan_and_deduplicate, try_except, Dedup.scan_body in Run.
      unfold bind at 1 in Run. unfold dir_exists in Run. cbn [negb] in Run.
      unfold bind at 1 in Run. rewrite list_json_files_run, Cd in Run.
      cbv in Run. injection Run as _ _ <-. reflexivity.
    - rewrite <- Cd in *. rewrite scan_phases in Run by (rewrite Cd; discriminate).
      pose proof (collect_opened (candidates d) [] (Some d)) as O.
      destruct (collect (candidates d) [] (Some d)) as [[[e|m] s1] evs1]; cbn [snd] in O.
      + injection Run as _ _ <-. cbn [opened flat_map app].
        fold (opened (evs1 ++ [Log ERROR (MsgDedupError e)])).
        rewrite opened_app, O. cbn. now rewrite app_nil_r.
      + destruct (dedup_groups_run m 0%nat (Some d))
          as (rd & removed & evs2 & Ed & _ & W & _).
        rewrite Ed in Run.
        assert (O2 : opened evs2 = []).
        { apply no_open_opened. intros p. exact (deleting_no_open _ _ p W). }
        destruct rd as [e|total].
        * injection Run as _ _ <-. cbn [opened flat_map app].
          fold (opened (evs1 ++ evs2 ++ [Log ERROR (MsgDedupError e)])).
          rewrite !opened_app, O, O2. cbn. now rewrite app_nil_r.
        * destruct (report_run (List.length m) total (remove_names removed (Some d)))
            as (evs3 & E3 & R3).
          rewrite E3 in Run. cbn [snd] in Run. injection Run as _ _ <-.
          destruct (info_log_facts (candidates d) _ R3) as (_ & _ & N3).
          cbn [opened flat_map app]. fold (opened (evs1 ++ evs2 ++ evs3)).
          rewrite !opened_app, O, O2, (no_open_opened _ N3). cbn. now rewrite app_nil_r. }
  split; [exact E|]. intros H. rewrite E. now apply read_prefix_all.
Qed.

(** X6.  One file whose identifier is a list or an object stops the
    whole scan: nothing is removed, no [unlink] is attempted, and the
    failure is logged as a [TypeError] of the scan. *)
Theorem unhashable_identifier_stops_the_scan d p session_id timestamp r s' evs :
  In p (candidates d) ->
  info_at (Some d) p = Some (session_id, timestamp) ->
  hashable session_id = false ->
  scan_and_deduplicate (Some d) = (r, s', evs) ->
  s' = Some d /\
  (forall q, ~ In (Unlink q) evs) /\
  In (Log ERROR (MsgDedupError TypeError)) evs /\
  completed_successfully evs = false.
Proof.
  intros Hp Inf Un Run.
  assert (F : forallb (fun x => hashable (fst x)) (resolved (Some d) (candidates d)) = false).
  { destruct (forallb _ _) eqn:E; [|reflexivity].
    rewrite forallb_forall in E.
    specialize (E (session_id, (p, timestamp))). simpl in E. rewrite <- Un. symmetry.
    apply E. apply resolved_In. simpl. auto. }
  rewrite scan_phases in Run by (intros E; rewrite E in Hp; destruct Hp).
  destruct (collect_run fromisoformat localtime (candidates d) [] (Some d))
    as (evs1 & Ec & Q1 & _).
  rewrite Ec, F in Run. injection Run as _ <- <-.
  split; [reflexivity|]. split; [|split].
  - intros q [H|H]; [discriminate|].
    apply in_app_or in H. destruct H as [H|[H|[]]]; [|discriminate].
    exact (quiet_no_unlink _ _ q Q1 H).
  - right. apply in_or_app. right. now left.
  - simpl. rewrite completed_app. simpl. apply andb_false_r.
Qed.

(** *** When the sort fails *)

Lemma insert_newest_first_error x : forall sorted e,
  insert_newest_first x sorted = inl e -> e = TypeError.
Proof.
  induction sorted as [|y rest IH]; simpl; intros e H; [discriminate|].
  unfold dt_lt in H. destruct (Bool.eqb _ _).
  - destruct (ticks (snd x) <? ticks (snd y)); [|discriminate].
    destruct (insert_newest_first x rest) as [e'|r] eqn:I; [|discriminate].
    injection H as <-. now apply IH.
  - now injection H as <-.
Qed.

Lemma sort_newest_first_error : forall files e,
  sort_newest_first files = inl e -> e = TypeError.
Proof.
  induction files as [|x rest IH]; simpl; intros e H; [discriminate|].
  destruct (sort_newest_first rest) as [e'|sorted].
  - injection H as <-. now apply IH.
  - now apply (insert_newest_first_error x sorted).
Qed.

Lemma insert_newest_first_uniform x : forall sorted placed,
  insert_newest_first x sorted = inr placed -> uniform sorted -> uniform (x :: sorted).
Proof.
  intros sorted placed H U.
  assert (Hx : forall y, In y sorted -> tz_aware (snd x) = tz_aware (snd y)).
  { destruct sorted as [|h rest]; [intros y []|].
    simpl in H. destruct (dt_lt (snd x) (snd h)) as [e|b] eqn:C; [discriminate|].
    assert (T : tz_aware (snd x) = tz_aware (snd h)).
    { destruct b; [apply dt_lt_true in C|apply dt_lt_false in C]; tauto. }
    intros y Hy. rewrite T. apply U; [now left|exact Hy]. }
  intros a b [<-|Ha] [<-|Hb]; auto. symmetry. auto.
Qed.

Lemma uniform_perm l l' : Permutation l l' -> uniform l -> uniform l'.
Proof.
  intros P U x y Hx Hy.
  apply U; apply (Permutation_in _ (Permutation_sym P)); assumption.
Qed.

(** The sort goes through exactly when the timestamps compare. *)
Lemma sort_newest_first_uniform files :
  (exists sorted, sort_newest_first files = inr sorted) <-> uniform files.
Proof.
  induction files as [|x rest IH].
  - split; [intros _ a b []|intros _; now exists []].
  - simpl. split.
    + intros [sorted H].
      destruct (sort_newest_first rest) as [e|sr] eqn:S; [discriminate|].
      assert (Ur : uniform rest) by (apply IH; eauto).
      pose proof (sort_newest_first_perm _ _ S) as P.
      pose proof (insert_newest_first_uniform _ _ _ H
                    (uniform_perm _ _ (Permutation_sym P) Ur)) as U.
      apply (uniform_perm (x :: sr)); [now apply perm_skip|exact U].
    + intros U.
      assert (Ur : uniform rest).
      { intros a b Ha Hb. apply U; now right. }
      apply IH in Ur. destruct Ur as [sr S]. rewrite S.
      pose proof (sort_newest_first_perm _ _ S) as P.
      assert (Hx : forall y, In y sr -> tz_aware (snd x) = tz_aware (snd y)).
      { intros y Hy. apply U; [now left|right].
        now apply (Permutation_in _ P). }
      clear S P IH U. induction sr as [|h t IHt]; simpl; [eauto|].
      unfold dt_lt. rewrite (Hx h) by now left. rewrite Bool.eqb_reflx.
      destruct (ticks (snd x) <? ticks (snd h)); [|eauto].
      destruct IHt as [placed ->]; [|eauto].
      intros y Hy. apply Hx. now right.
Qed.

Lemma not_aborted_app a b : aborted (a ++ b) = aborted a || aborted b.
Proof. apply existsb_app. Qed.

Lemma remove_files_not_aborted others : forall total s,
  aborted (snd (remove_files others total s)) = false.
Proof.
  induction others as [|[p ts] rest IH]; intros total s; [reflexivity|].
  cbn [remove_files]. unfold bind at 1. unfold try_except. unfold bind at 1.
  destruct (unlink_run p s) as [[-> _]| ->].
  - unfold bind, log, emit, ret. cbn [app].
    specialize (IH (S total) (remove_names [p] s)).
    destruct (remove_files rest (S total) (remove_names [p] s)) as [[r s1] evs].
    cbn [snd] in *. simpl. exact IH.
  - unfold bind, log, emit, ret. cbn [app].
    specialize (IH total s).
    destruct (remove_files rest total s) as [[r s1] evs].
    cbn [snd] in *. simpl. exact IH.
Qed.

Lemma remove_files_returns others total s :
  exists t, fst (fst (remove_files others total s)) = inr t.
Proof.
  destruct (remove_files_run others total s) as (t & removed & evs & -> & _).
  exists t. reflexivity.
Qed.

(** The deletion phase ends in an exception exactly when some group of
    two or more mixes naive and aware timestamps; the exception is a
    [TypeError], and the phase itself logs no aborted scan. *)
Lemma dedup_groups_outcome items : forall total s r s' evs,
  dedup_groups items total s = (r, s', evs) ->
  aborted evs = false /\
  match r with
  | inl e => e = TypeError /\ exists g, In g items /\ ~ uniform (snd g)
  | inr _ => Forall (fun g => uniform (snd g)) items
  end.
Proof.
  induction items as [|[sid files] rest IH]; intros total s r s' evs Run.
  - injection Run as <- _ <-. split; [reflexivity|constructor].
  - cbn [dedup_groups] in Run.
    destruct (1 <? List.length files)%nat eqn:Len.
    + unfold bind at 1 in Run. unfold bind at 1 in Run. unfold lift in Run.
      destruct (sort_newest_first files) as [e|[|newest others]] eqn:Srt.
      * cbn [raise] in Run. injection Run as <- _ <-. split; [reflexivity|].
        split; [now apply (sort_newest_first_error files)|].
        exists (sid, files). split; [now left|]. simpl. intros U.
        apply sort_newest_first_uniform in U. destruct U as [sorted U]. congruence.
      * apply sort_newest_first_perm in Srt. apply Permutation_nil in Srt.
        subst files. discriminate.
      * cbn [ret] in Run. unfold bind at 1 in Run. unfold log, emit in Run.
        pose proof (remove_files_not_aborted others total s) as NA.
        destruct (remove_files_returns others total s) as [t Rt].
        destruct (remove_files others total s) as [[r1 s1] evs1].
        cbn [fst snd] in *. subst r1.
        destruct (dedup_groups rest t s1) as [[r2 s2] evs2] eqn:Rest.
        injection Run as <- _ <-.
        destruct (IH _ _ _ _ _ Rest) as [NA2 IH2]. split.
        -- simpl. now rewrite not_aborted_app, NA, NA2.
        -- destruct r2 as [e|t2].
           ++ destruct IH2 as [-> (g & Hg & NU)]. split; [reflexivity|].
              exists g. split; [now right|exact NU].
           ++ constructor; [|exact IH2]. simpl.
              apply sort_newest_first_uniform. eauto.
    + unfold bind at 1 in Run. cbn [ret app] in Run.
      destruct (dedup_groups rest total s) as [[r2 s2] evs2] eqn:Rest.
      injection Run as <- _ <-.
      destruct (IH _ _ _ _ _ Rest) as [NA2 IH2]. split; [exact NA2|].
      destruct r2 as [e|t2].
      * destruct IH2 as [-> (g & Hg & NU)]. split; [reflexivity|].
        exists g. split; [now right|exact NU].
      * constructor; [|exact IH2]. simpl. apply Nat.ltb_ge in Len.
        destruct files as [|a [|b l]]; [intros x y []| |simpl in Len; lia].
        intros x y [<-|[]] [<-|[]]. reflexivity.
Qed.

Lemma quiet_not_aborted l evs : Forall (quiet_about l) evs -> aborted evs = false.
Proof.
  induction 1 as [|ev evs Q _ IH]; [reflexivity|].
  simpl. rewrite IH. destruct Q as (_ & F & _).
  destruct ev as [[| |] []| | |]; try reflexivity; discriminate.
Qed.

Lemma info_logs_not_aborted evs :
  Forall (fun ev => exists msg, ev = Log INFO msg) evs -> aborted evs = false.
Proof.
  induction 1 as [|ev evs [msg ->] _ IH]; [reflexivity|]. simpl. exact IH.
Qed.

Lemma session_groups_collect s :
  session_groups s <> [] ->
  forallb (fun x => hashable (fst x)) (resolved s (candidates_of s)) = true.
Proof.
  rewrite (session_groups_eq fromisoformat localtime).
  destruct (forallb _ _); [reflexivity|]. intros H. now destruct H.
Qed.

Lemma scan_aborts_exactly_when_aux d r s' evs :
  scan_and_deduplicate (Some d) = (r, s', evs) ->
  (aborted evs = true <->
   forallb (fun x => hashable (fst x)) (resolved (Some d) (candidates d)) = false \/
   exists g, In g (session_groups (Some d)) /\ ~ uniform (snd g)) /\
  (aborted evs = true -> In (Log ERROR (MsgDedupError TypeError)) evs).
Proof.
  intros Run.
  pose proof (session_groups_eq fromisoformat localtime (Some d)) as G.
  cbn [candidates_of] in G.
  destruct (candidates d) as [|c cs] eqn:Cd.
  - unfold Dedup.scan_and_deduplicate, try_except, Dedup.scan_body in Run.
    unfold bind at 1 in Run. unfold dir_exists in Run. cbn [negb] in Run.
    unfold bind at 1 in Run. rewrite list_json_files_run, Cd in Run.
    cbv in Run. injection Run as _ _ <-. cbn in G. rewrite G. split.
    + split; [discriminate|]. intros [H|(g & [] & _)]. discriminate.
    + discriminate.
  - rewrite <- Cd in *. rewrite scan_phases in Run by (rewrite Cd; discriminate).
    destruct (collect_run fromisoformat localtime (candidates d) [] (Some d))
      as (evs1 & Ec & Q1 & _).
    rewrite Ec in Run. apply quiet_not_aborted in Q1.
    destruct (forallb (fun x => hashable (fst x)) (resolved (Some d) (candidates d))).
    + rewrite <- G in Run.
      destruct (dedup_groups (session_groups (Some d)) 0 (Some d))
        as [[rd s2] evs2] eqn:Ed.
      destruct (dedup_groups_outcome _ _ _ _ _ _ Ed) as [NA2 Out].
      destruct rd as [e|total].
      * destruct Out as [-> (g & Hg & NU)]. injection Run as _ _ <-. split.
        -- split; [eauto|]. intros _. simpl. rewrite !not_aborted_app. simpl.
           now rewrite !orb_true_r.
        -- intros _. right. apply in_or_app. right. apply in_or_app. right. now left.
      * destruct (report_run (List.length (session_groups (Some d))) total s2)
          as (evs3 & E3 & R3).
        rewrite E3 in Run. cbn [snd] in Run. injection Run as _ _ <-.
        assert (NA : aborted (Log INFO (MsgAnalysing (List.length (candidates d)))
                                :: evs1 ++ evs2 ++ evs3) = false).
        { simpl. rewrite !not_aborted_app, Q1, NA2. simpl.
          now apply info_logs_not_aborted. }
        rewrite NA. split; [|discriminate]. split; [discriminate|].
        intros [H|(g & Hg & NU)]; [discriminate|]. exfalso. apply NU.
        rewrite Forall_forall in Out. now apply Out.
    + injection Run as _ _ <-. split.
      * split; [auto|]. intros _. simpl. rewrite not_aborted_app. simpl.
        now rewrite orb_true_r.
      * intros _. right. apply in_or_app. right. now left.
Qed.

(** X7.  A scan is cut short for two reasons only, both logged as a
    [TypeError]: an identifier that is a list or an object, or a group
    of files in which timestamps with and without a time zone meet. *)
Theorem scan_aborts_exactly_when d r s' evs :
  scan_and_deduplicate (Some d) = (r, s', evs) ->
  (aborted evs = true <->
   forallb (fun x => hashable (fst x)) (resolved (Some d) (candidates d)) = false \/
   exists g, In g (session_groups (Some d)) /\ ~ uniform (snd g)) /\
  (aborted evs = true -> In (Log ERROR (MsgDedupError TypeError)) evs).
Proof. exact (scan_aborts_exactly_when_aux d r s' evs). Qed.

(** X8.  When two files of one identifier carry timestamps that do not
    compare -- one with a time zone, one without, as when one has a
    field ending in Z and the other falls back on its modification time
    -- the scan is aborted with a [TypeError] and every file of that
    group is still in the directory. *)
Theorem mixed_timestamps_keep_every_version d r s' evs session_id files x y :
  NoDup (map name d) ->
  scan_and_deduplicate (Some d) = (r, s', evs) ->
  In (session_id, files) (session_groups (Some d)) ->
  In x files -> In y files ->
  tz_aware (snd x) <> tz_aware (snd y) ->
  In (Log ERROR (MsgDedupError TypeError)) evs /\
  forall z, In z files -> present (fst z) s'.
Proof.
  intros ND Run Hg Hx Hy Mixed.
  assert (NU : ~ uniform files) by (intros U; apply Mixed; now apply U).
  split.
  - destruct (scan_aborts_exactly_when_aux d r s' evs Run) as [A L].
    apply L. apply A. right. exists (session_id, files). auto.
  - destruct (scan_result fromisoformat localtime d _ _ _ Run) as (removed & _ & -> & I & _).
    pose proof (session_groups_NoDup fromisoformat localtime d ND) as NDm.
    assert (V : victims_of files = []).
    { unfold victims_of. destruct (1 <? _)%nat; [|reflexivity].
      destruct (sort_newest_first files) as [e|sorted] eqn:S; [reflexivity|].
      exfalso. apply NU. apply sort_newest_first_uniform. eauto. }
    intros z Hz. apply (names_remove_names fromisoformat). split.
    + apply (candidates_incl fromisoformat).
      apply (session_groups_incl fromisoformat localtime (Some d)).
      unfold member_names. apply in_flat_map. exists (session_id, files).
      split; [exact Hg|]. simpl. now apply in_map.
    + intros Hr. apply I in Hr.
      apply (victim_of_own_group _ (session_id, files) (fst z) NDm Hg) in Hr.
      * simpl in Hr. rewrite V in Hr. exact Hr.
      * simpl. now apply in_map.
Qed.

Lemma info_at_once s p a b : info_at s p = Some a -> info_at s p = Some b -> a = b.
Proof. congruence. Qed.

(** Every resolved file is in a group whose key equals its identifier. *)
Lemma resolved_has_group s p session_id timestamp :
  forallb (fun x => hashable (fst x)) (resolved s (candidates_of s)) = true ->
  In p (candidates_of s) ->
  info_at s p = Some (session_id, timestamp) ->
  exists k files,
    In (k, files) (session_groups s) /\ In (p, timestamp) files /\
    (key_eqb k session_id = true \/ (files = [(p, timestamp)] /\ session_id = k)).
Proof.
  intros H Hp E.
  pose proof (session_groups_eq fromisoformat localtime s) as G. rewrite H in G.
  assert (M : In p (member_names (session_groups s))).
  { rewrite G.
    eapply Permutation_in;
      [apply Permutation_sym, (member_names_group (resolved s (candidates_of s)) [])|].
    cbn [member_names flat_map app]. rewrite (resolved_names fromisoformat localtime).
    apply filter_In. split; [exact Hp|]. now rewrite E. }
  destruct (member_has_group _ _ M) as ([k files] & x & Hg & Hx & Fx).
  cbn [snd] in Hx. exists k, files.
  pose proof (group_sound_nil (resolved s (candidates_of s))) as S.
  rewrite <- G in S. destruct (S k files x Hg Hx) as (sid & Hl & K).
  apply (resolved_In fromisoformat localtime) in Hl. destruct Hl as [_ Hi].
  rewrite Fx, E in Hi. injection Hi as <- Ht.
  assert (x = (p, timestamp)) as -> by (destruct x; simpl in *; congruence).
  auto.
Qed.

(** X9.  Two files end up in the same group exactly when their
    identifiers are equal as dictionary keys: strings by content, numbers
    by value whether written as integer, float or boolean, and NaN with
    NaN, the decoder having one object for it. *)
Theorem same_group_iff_equal_identifier s p q ip tp iq tq :
  forallb (fun x => hashable (fst x)) (resolved s (candidates_of s)) = true ->
  In p (candidates_of s) -> In q (candidates_of s) ->
  info_at s p = Some (ip, tp) ->
  info_at s q = Some (iq, tq) ->
  p <> q ->
  ((exists g, In g (session_groups s) /\ In (p, tp) (snd g) /\ In (q, tq) (snd g)) <->
   key_eqb ip iq = true).
Proof.
  intros H Hp Hq Ep Eq Npq.
  pose proof (session_groups_eq fromisoformat localtime s) as G. rewrite H in G.
  pose proof (group_sound_nil (resolved s (candidates_of s))) as S. rewrite <- G in S.
  assert (D : distinct_keys (session_groups s)).
  { rewrite G. apply group_distinct. exact I. }
  split.
  - intros ([k files] & Hg & Ip & Iq). cbn [snd] in *.
    destruct (S k files _ Hg Ip) as (sp & Lp & Kp).
    destruct (S k files _ Hg Iq) as (sq & Lq & Kq).
    apply (resolved_In fromisoformat localtime) in Lp, Lq. cbn [fst snd] in *.
    destruct Lp as [_ Lp], Lq as [_ Lq].
    rewrite Ep in Lp. rewrite Eq in Lq. injection Lp as <-. injection Lq as <-.
    destruct Kp as [Kp|[-> _]].
    + destruct Kq as [Kq|[-> _]].
      * apply (key_eqb_trans _ k); [now rewrite key_eqb_sym|exact Kq].
      * destruct Ip as [Ip|[]]. congruence.
    + destruct Iq as [Iq|[]]. congruence.
  - intros K.
    destruct (resolved_has_group s p ip tp H Hp Ep) as (k1 & f1 & G1 & I1 & K1).
    destruct (resolved_has_group s q iq tq H Hq Eq) as (k2 & f2 & G2 & I2 & K2).
    assert (K1' : key_eqb k1 ip = true).
    { destruct K1 as [K1|[_ <-]]; [exact K1|]. exact (key_eqb_refl_of _ _ K). }
    assert (K2' : key_eqb iq k2 = true).
    { rewrite key_eqb_sym. destruct K2 as [K2|[_ <-]]; [exact K2|].
      rewrite key_eqb_sym in K. exact (key_eqb_refl_of _ _ K). }
    assert (E : (k1, f1) = (k2, f2)).
    { apply (distinct_keys_inj _ _ _ D G1 G2). cbn [fst].
      apply (key_eqb_trans _ ip); [exact K1'|].
      apply (key_eqb_trans _ iq); assumption. }
    injection E as <- <-. exists (k1, f1). auto.
Qed.

(** *** Timestamp strings *)

Lemma contains_app c a b : contains c (a ++ b) = contains c a || contains c b.
Proof.
  induction a as [|x a IH]; [reflexivity|]. simpl.
  destruct (Ascii.eqb x c); [reflexivity|exact IH].
Qed.

Lemma contains_sep c a b : contains c (a ++ String c b) = true.
Proof.
  rewrite contains_app. cbn [contains]. now rewrite Ascii.eqb_refl, orb_true_r.
Qed.

Lemma split_nonempty c s : split c s <> [].
Proof.
  destruct s as [|x s]; simpl; [discriminate|].
  destruct (Ascii.eqb x c); [discriminate|]. destruct (split c s); discriminate.
Qed.

Lemma split_without c s : contains c s = false -> split c s = [s].
Proof.
  induction s as [|x s IH]; [reflexivity|]. simpl.
  destruct (Ascii.eqb x c); [discriminate|]. intros H. now rewrite (IH H).
Qed.

Lemma split_at_first c a b :
  contains c a = false -> split c (a ++ String c b) = a :: split c b.
Proof.
  induction a as [|x a IH]; simpl.
  - now rewrite Ascii.eqb_refl.
  - destruct (Ascii.eqb x c); [discriminate|]. intros H. now rewrite (IH H).
Qed.

Lemma split_length_app c a b :
  List.length (split c (a ++ String c b)) =
  (List.length (split c a) + List.length (split c b))%nat.
Proof.
  induction a as [|x a IH]; simpl.
  - now rewrite Ascii.eqb_refl.
  - destruct (Ascii.eqb x c); simpl; [now rewrite IH|].
    destruct (split c (a ++ String c b)) eqn:E1; [now apply split_nonempty in E1|].
    destruct (split c a) eqn:E2; [now apply split_nonempty in E2|].
    simpl in *. exact IH.
Qed.

Lemma split_length_pos c s : (1 <= List.length (split c s))%nat.
Proof.
  pose proof (split_nonempty c s). destruct (split c s); [contradiction|simpl; lia].
Qed.

Lemma rstrip_app_all c digits rest :
  contains c digits = false -> rstrip c rest = ""%string ->
  rstrip c (digits ++ rest) = digits.
Proof.
  intros H R. induction digits as [|x d IH]; [exact R|]. simpl in *.
  destruct (Ascii.eqb x c) eqn:E; [discriminate|]. rewrite (IH H).
  now destruct d.
Qed.

Lemma rstrip_app_keep c a b :
  contains c a = false -> a <> ""%string ->
  exists r, rstrip c (a ++ b) = (a ++ r)%string.
Proof.
  induction a as [|x a IH]; [contradiction|]. simpl. intros H _.
  destruct (Ascii.eqb x c) eqn:E; [discriminate|].
  destruct a as [|y a].
  - simpl. destruct (rstrip c b) eqn:R; [exists ""%string|eexists]; reflexivity.
  - destruct (IH H) as [r Hr]; [discriminate|]. rewrite Hr. simpl.
    exists r. reflexivity.
Qed.

Lemma take_app n a r : String.length a = n -> take n (a ++ r) = a.
Proof.
  unfold take. revert n. induction a as [|x a IH]; intros n <-; simpl.
  - now destruct r.
  - now rewrite IH.
Qed.

Lemma take_short n a : (String.length a <= n)%nat -> take n a = a.
Proof.
  unfold take. revert n. induction a as [|x a IH]; intros n H; simpl.
  - now destruct n.
  - destruct n; simpl in *; [lia|]. rewrite IH; [reflexivity|lia].
Qed.

Lemma normalize_fraction_one_dot base frac :
  contains dot base = false -> contains dot frac = false ->
  normalize_fraction (base ++ "." ++ frac) =
    inr (base ++ "." ++ take 6 (rstrip zed frac) ++ "Z")%string.
Proof.
  intros Hb Hf. unfold normalize_fraction.
  change ("." ++ frac)%string with (String dot frac).
  rewrite contains_sep.
  rewrite (split_at_first _ _ _ Hb), (split_without _ _ Hf). reflexivity.
Qed.

(** X10.  Of a timestamp with a fraction, only the first six fractional
    digits count, and the time is read as UTC: whatever follows the sixth
    digit -- more digits, an offset such as +02:00 -- is dropped, and a
    shorter fraction is read the same with or without its final Z. *)
Theorem fraction_read_as_utc_microseconds base digits rest :
  contains dot base = false ->
  contains dot digits = false ->
  contains dot rest = false ->
  contains zed digits = false ->
  String.length digits = 6%nat \/
  ((String.length digits <= 6)%nat /\ rstrip zed rest = ""%string) ->
  normalize_fraction (base ++ "." ++ digits ++ rest) =
    inr (base ++ "." ++ digits ++ "Z")%string /\
  parse_timestamp (JStr (base ++ "." ++ digits ++ rest)) =
    parse_timestamp (JStr (base ++ "." ++ digits ++ "Z")).
Proof.
  intros Hb Hd Hr Hz Len.
  assert (N : forall tail, contains dot tail = false ->
            String.length digits = 6%nat \/
            ((String.length digits <= 6)%nat /\ rstrip zed tail = ""%string) ->
            normalize_fraction (base ++ "." ++ digits ++ tail) =
              inr (base ++ "." ++ digits ++ "Z")%string).
  { intros tail Ht L. rewrite normalize_fraction_one_dot; [|exact Hb|].
    2:{ rewrite contains_app, Hd, Ht. reflexivity. }
    destruct L as [L|[L R]].
    - destruct (rstrip_app_keep zed digits tail Hz) as [r ->].
      { intros ->. discriminate. }
      now rewrite (take_app _ _ _ L).
    - rewrite (rstrip_app_all _ _ _ Hz R), (take_short _ _ L). reflexivity. }
  split; [now apply N|].
  unfold Dedup.parse_timestamp. rewrite (N rest Hr Len).
  rewrite (N "Z"%string); [reflexivity|reflexivity|].
  right. split; [|reflexivity]. destruct Len as [->|[L _]]; [apply Nat.le_refl|exact L].
Qed.

Lemma normalize_fraction_two_dots a b c :
  normalize_fraction (a ++ "." ++ b ++ "." ++ c) = inl ValueError.
Proof.
  unfold normalize_fraction.
  change (a ++ "." ++ b ++ "." ++ c)%string with (a ++ String dot (b ++ String dot c))%string.
  rewrite contains_sep.
  pose proof (split_length_app dot a (b ++ String dot c)) as L.
  rewrite (split_length_app dot b c) in L.
  pose proof (split_length_pos dot a). pose proof (split_length_pos dot b).
  pose proof (split_length_pos dot c).
  destruct (split dot (a ++ String dot (b ++ String dot c))) as [|x [|y [|z l]]];
    simpl in L; try lia; reflexivity.
Qed.

(** What a scan makes of a file whose timestamp cannot be parsed. *)
Lemma bad_timestamp_run s p f data session_id v e :
  find_file p s = Some f ->
  load f = Document data ->
  session_id_of data = inr session_id ->
  truthy session_id = true ->
  timestamp_str_of data = inr v ->
  truthy v = true ->
  parse_timestamp v = inl e ->
  get_session_info p s = (inr None, s, [Open p; Log ERROR (MsgProcessError p e)]).
Proof.
  intros F L I TI T TV P.
  pose proof (session_info_at fromisoformat localtime p s) as H.
  rewrite (get_session_info_run fromisoformat localtime).
  rewrite F in H.
  pose proof (SI_bad_timestamp fromisoformat localtime p f data session_id v e
                L I T TI TV P) as H'.
  destruct (session_info_fun fromisoformat localtime _ _ _ _ _ _ H H') as [-> ->].
  reflexivity.
Qed.

(** X11.  A truthy timestamp that is not a string -- a number of
    seconds or milliseconds, [true], a list, an object -- makes the file
    unusable: it is skipped with an error, and its modification time is
    not consulted instead. *)
Theorem non_string_timestamp_skips_the_file s p f data session_id v :
  find_file p s = Some f ->
  load f = Document data ->
  session_id_of data = inr session_id ->
  truthy session_id = true ->
  timestamp_str_of data = inr v ->
  truthy v = true ->
  (forall text, v <> JStr text) ->
  get_session_info p s =
    (inr None, s,
     [Open p;
      Log ERROR (MsgProcessError p (if hashable v then TypeError else AttributeError))]) /\
  forall g, In g (session_groups s) -> ~ In p (map fst (snd g)).
Proof.
  intros F L I TI T TV NS.
  assert (P : parse_timestamp v = inl (if hashable v then TypeError else AttributeError)).
  { destruct v; try reflexivity; try discriminate. now destruct (NS s0). }
  pose proof (bad_timestamp_run s p f data session_id v _ F L I TI T TV P) as R.
  split; [exact R|].
  assert (E : info_at s p = None).
  { unfold Dedup.info_at. now rewrite R. }
  apply (proj1 (unresolved_not_grouped s p E)).
Qed.

(** X12.  A timestamp string with more than one dot cannot be split
    into seconds and fraction: whatever [fromisoformat] would make of it,
    the file is skipped with a [ValueError]. *)
Theorem two_dots_skip_the_file s p f data session_id a b c :
  find_file p s = Some f ->
  load f = Document data ->
  session_id_of data = inr session_id ->
  truthy session_id = true ->
  timestamp_str_of data = inr (JStr (a ++ "." ++ b ++ "." ++ c)) ->
  parse_timestamp (JStr (a ++ "." ++ b ++ "." ++ c)) = inl ValueError /\
  get_session_info p s =
    (inr None, s, [Open p; Log ERROR (MsgProcessError p ValueError)]) /\
  forall g, In g (session_groups s) -> ~ In p (map fst (snd g)).
Proof.
  intros F L I TI T.
  assert (P : parse_timestamp (JStr (a ++ "." ++ b ++ "." ++ c)) = inl ValueError).
  { unfold Dedup.parse_timestamp. now rewrite normalize_fraction_two_dots. }
  assert (TV : truthy (JStr (a ++ "." ++ b ++ "." ++ c)) = true).
  { simpl. destruct a; reflexivity. }
  pose proof (bad_timestamp_run s p f data session_id _ _ F L I TI T TV P) as R.
  refine (conj P (conj R _)).
  assert (E : info_at s p = None).
  { unfold Dedup.info_at. now rewrite R. }
  apply (proj1 (unresolved_not_grouped s p E)).
Qed.

(** *** Removals that fail *)

Lemma remove_names_some removed d :
  remove_names removed (Some d) =
    Some (filter (fun f => negb (mentioned (name f) removed)) d).
Proof. reflexivity. Qed.

Lemma unlink_exact p d :
  unlink p (Some d) =
    if can_unlink d p then (inr tt, remove_names [p] (Some d), [Unlink p])
    else (inl OSError, Some d, [Unlink p]).
Proof.
  unfold unlink, can_unlink. cbn [find_file].
  destruct (find (has_name p) d) as [f|]; [|reflexivity].
  destruct (unlinkable f); [|reflexivity].
  rewrite remove_names_some.
  assert (E : filter (fun g => negb (has_name p g)) d =
               filter (fun g => negb (mentioned (name g) [p])) d).
  { apply filter_ext. intros g. unfold mentioned, has_name. simpl.
    now rewrite orb_false_r. }
  now rewrite E.
Qed.

Lemma can_unlink_after d removed q :
  ~ In q removed ->
  can_unlink (filter (fun f => negb (mentioned (name f) removed)) d) q = can_unlink d q.
Proof.
  intros H. pose proof (find_file_remove_names q removed (Some d) H) as E.
  rewrite remove_names_some in E. cbn [find_file] in E.
  unfold can_unlink. now rewrite E.
Qed.

Lemma remove_files_exact others : forall total d,
  NoDup (map fst others) ->
  exists evs,
    remove_files others total (Some d) =
      (inr (total + List.length (filter (can_unlink d) (map fst others)))%nat,
       remove_names (filter (can_unlink d) (map fst others)) (Some d), evs) /\
    aborted evs = false /\
    (forall p e, In (Log ERROR (MsgRemoveError p e)) evs <->
                 In p (map fst others) /\ can_unlink d p = false /\ e = OSError) /\
    (forall p ts, In (Log INFO (MsgRemoved p ts)) evs <->
                  In (p, ts) others /\ can_unlink d p = true).
Proof.
  induction others as [|[p ts] rest IH]; intros total d ND.
  - exists []. cbn [remove_files map filter List.length ret].
    rewrite remove_names_nil, Nat.add_0_r.
    refine (conj eq_refl (conj eq_refl (conj _ _))).
    + intros q e. split; [intros []|intros [[] _]].
    + intros q t. split; [intros []|intros [[] _]].
  - cbn [map fst] in ND. apply NoDup_cons_iff in ND. destruct ND as [Np ND].
    cbn [remove_files]. unfold bind at 1. unfold try_except. unfold bind at 1.
    rewrite unlink_exact. cbn [map fst filter].
    destruct (can_unlink d p) eqn:Ok.
    + unfold bind, log, emit, ret. cbn [app]. rewrite remove_names_some.
      set (d1 := filter (fun f => negb (mentioned (name f) [p])) d).
      assert (Keep : forall q, q <> p -> can_unlink d1 q = can_unlink d q).
      { intros q Hq. apply can_unlink_after. intros [E|[]]. congruence. }
      assert (Other : forall q, In q (map fst rest) -> q <> p).
      { intros q Hq ->. contradiction. }
      assert (S1 : filter (can_unlink d1) (map fst rest) =
                   filter (can_unlink d) (map fst rest)).
      { apply filter_ext_in. intros q Hq. apply Keep. now apply Other. }
      destruct (IH (S total) d1 ND) as (evs & E & NA & Err & Rem).
      rewrite E, S1. change (Some d1) with (remove_names [p] (Some d)).
      rewrite remove_names_app.
      eexists. split.
      { cbn [List.length app]. rewrite Nat.add_succ_r. reflexivity. }
      cbn [app]. split; [exact NA|]. split.
      * intros q e. split.
        -- intros [H|[H|H]]; try discriminate. apply Err in H.
           destruct H as (Hq & C & ->). split; [now right|]. split; [|reflexivity].
           rewrite <- C. symmetry. apply Keep. now apply Other.
        -- intros ([<-|Hq] & C & ->); [congruence|]. right. right. apply Err.
           split; [exact Hq|]. split; [|reflexivity].
           rewrite <- C. apply Keep. now apply Other.
      * intros q t. split.
        -- intros [H|[H|H]]; try discriminate.
           ++ injection H as <- <-. split; [now left|exact Ok].
           ++ apply Rem in H. destruct H as [Hq C]. split; [now right|].
              rewrite <- C. symmetry. apply Keep. apply Other.
              apply in_map_iff. exists (q, t). auto.
        -- intros [[H|Hq] C].
           ++ injection H as <- <-. right. now left.
           ++ right. right. apply Rem. split; [exact Hq|].
              rewrite <- C. apply Keep. apply Other.
              apply in_map_iff. exists (q, t). auto.
    + unfold bind, log, emit, ret. cbn [app].
      destruct (IH total d ND) as (evs & -> & NA & Err & Rem).
      eexists. split; [reflexivity|]. cbn [app]. split; [exact NA|]. split.
      * intros q e. split.
        -- intros [H|[H|H]]; try discriminate.
           ++ injection H as <- <-. split; [now left|]. now split.
           ++ apply Err in H. destruct H as (Hq & C & ->). split; [now right|now split].
        -- intros ([<-|Hq] & C & ->).
           ++ right. now left.
           ++ right. right. apply Err. now split.
      * intros q t. split.
        -- intros [H|[H|H]]; try discriminate.
           apply Rem in H. destruct H as [Hq C]. split; [now right|exact C].
        -- intros [[H|Hq] C].
           ++ injection H as <- <-. congruence.
           ++ right. right. apply Rem. now split.
Qed.

Lemma dedup_groups_exact items : forall total d,
  NoDup (all_victims items) ->
  Forall (fun g => uniform (snd g)) items ->
  exists evs,
    dedup_groups items total (Some d) =
      (inr (total + List.length (filter (can_unlink d) (all_victims items)))%nat,
       remove_names (filter (can_unlink d) (all_victims items)) (Some d), evs) /\
    aborted evs = false /\
    (forall p e, In (Log ERROR (MsgRemoveError p e)) evs <->
                 In p (all_victims items) /\ can_unlink d p = false /\ e = OSError) /\
    (forall p ts, In (Log INFO (MsgRemoved p ts)) evs ->
                  In p (all_victims items) /\ can_unlink d p = true) /\
    (forall p, In p (all_victims items) -> can_unlink d p = true ->
               exists ts, In (Log INFO (MsgRemoved p ts)) evs).
Proof.
  induction items as [|[sid files] rest IH]; intros total d ND U.
  - exists []. cbn [dedup_groups all_victims flat_map filter List.length ret].
    rewrite remove_names_nil, Nat.add_0_r.
    refine (conj eq_refl (conj eq_refl (conj _ (conj _ _)))).
    + intros p e. split; [intros []|intros [[] _]].
    + intros p ts [].
    + intros p [].
  - inversion U as [|g rest' Ug Ur]; subst. cbn [snd] in Ug.
    unfold all_victims in *. cbn [flat_map snd] in *. fold (all_victims rest) in *.
    cbn [dedup_groups]. unfold victims_of in *.
    destruct (1 <? List.length files)%nat eqn:Len.
    + apply Nat.ltb_lt in Len.
      destruct (proj2 (sort_newest_first_uniform files) Ug) as [sorted Srt].
      rewrite Srt in *.
      destruct sorted as [|newest others].
      { apply sort_newest_first_perm, Permutation_length in Srt. simpl in Srt. lia. }
      assert (ND1 : NoDup (map fst others)) by (now apply NoDup_app_remove_r in ND).
      assert (ND2 : NoDup (all_victims rest)) by (now apply NoDup_app_remove_l in ND).
      unfold bind at 1. unfold bind at 1. unfold lift. cbn [ret].
      unfold bind at 1. unfold log, emit.
      destruct (remove_files_exact others total d ND1) as (evs1 & E1 & NA1 & Err1 & Rem1).
      rewrite E1. rewrite remove_names_some.
      set (removed1 := filter (can_unlink d) (map fst others)).
      set (d1 := filter (fun f => negb (mentioned (name f) removed1)) d).
      assert (Other : forall q, In q (all_victims rest) -> ~ In q removed1).
      { intros q Hq H. apply filter_In in H. destruct H as [H _].
        exact (NoDup_app_disjoint _ _ _ _ ND H Hq). }
      assert (Keep : forall q, In q (all_victims rest) -> can_unlink d1 q = can_unlink d q).
      { intros q Hq. apply can_unlink_after. now apply Other. }
      assert (S1 : filter (can_unlink d1) (all_victims rest) =
                   filter (can_unlink d) (all_victims rest)).
      { apply filter_ext_in. exact Keep. }
      destruct (IH (total + List.length removed1)%nat d1 ND2 Ur)
        as (evs2 & E2 & NA2 & Err2 & Rem2 & Log2).
      rewrite E2, S1. change (Some d1) with (remove_names removed1 (Some d)).
      rewrite remove_names_app, filter_app, length_app, Nat.add_assoc.
      fold removed1. eexists. split; [reflexivity|].
      cbn [app]. split.
      { simpl. rewrite not_aborted_app, NA1, NA2. reflexivity. }
      split; [|split].
      * intros p e. split.
        -- intros [H|H]; [discriminate|]. apply in_app_or in H. destruct H as [H|H].
           ++ apply Err1 in H. destruct H as (Hp & C & ->).
              split; [apply in_or_app; now left|now split].
           ++ apply Err2 in H. destruct H as (Hp & C & ->).
              split; [apply in_or_app; now right|]. split; [|reflexivity].
              rewrite <- C. symmetry. now apply Keep.
        -- intros (Hp & C & ->). right. apply in_or_app.
           apply in_app_or in Hp. destruct Hp as [Hp|Hp].
           ++ left. apply Err1. now split.
           ++ right. apply Err2. split; [exact Hp|]. split; [|reflexivity].
              rewrite <- C. now apply Keep.
      * intros p ts [H|H]; [discriminate|]. apply in_app_or in H. destruct H as [H|H].
        -- apply Rem1 in H. destruct H as [Hp C]. split; [|exact C].
           apply in_or_app. left. apply in_map_iff. exists (p, ts). auto.
        -- apply Rem2 in H. destruct H as [Hp C]. split; [apply in_or_app; now right|].
           rewrite <- C. symmetry. now apply Keep.
      * intros p Hp C. apply in_app_or in Hp. destruct Hp as [Hp|Hp].
        -- apply in_map_iff in Hp. destruct Hp as ([p' ts] & <- & Hx).
           exists ts. right. apply in_or_app. left. apply Rem1. now split.
        -- destruct (Log2 p Hp) as [ts Hts]; [now rewrite Keep|].
           exists ts. right. apply in_or_app. now right.
    + unfold bind at 1. cbn [ret app] in *.
      destruct (IH total d ND Ur) as (evs & E & NA & Err & Rem & Lg).
      rewrite E. eexists. split; [reflexivity|].
      refine (conj NA (conj Err (conj Rem Lg))).
Qed.

Lemma stable_uniform files : ~ ~ uniform files -> uniform files.
Proof.
  intros NN x y Hx Hy.
  destruct (Bool.bool_dec (tz_aware (snd x)) (tz_aware (snd y))) as [E|N]; [exact E|].
  exfalso. apply NN. intros U. apply N. now apply U.
Qed.

Lemma not_aborted_scan d r s' evs :
  scan_and_deduplicate (Some d) = (r, s', evs) ->
  aborted evs = false ->
  forallb (fun x => hashable (fst x)) (resolved (Some d) (candidates d)) = true /\
  Forall (fun g => uniform (snd g)) (session_groups (Some d)).
Proof.
  intros Run NA. destruct (scan_aborts_exactly_when_aux d r s' evs Run) as [[_ A] _].
  split.
  - destruct (forallb _ _) eqn:H; [reflexivity|].
    rewrite A in NA by now left. discriminate.
  - apply Forall_forall. intros g Hg. apply stable_uniform. intros NU.
    rewrite A in NA; [discriminate|]. right. eauto.
Qed.

Lemma all_victims_NoDup d :
  NoDup (map name d) -> NoDup (all_victims (session_groups (Some d))).
Proof.
  intros ND. pose proof (session_groups_NoDup fromisoformat localtime d ND) as N.
  revert N. generalize (session_groups (Some d)). intros m.
  induction m as [|[k files] rest IH]; intros N; [constructor|].
  unfold member_names, all_victims in *. cbn [flat_map snd] in *.
  fold (member_names rest) in *. fold (all_victims rest) in *.
  assert (Nf : NoDup (map fst files)) by (now apply NoDup_app_remove_r in N).
  assert (Nr : NoDup (member_names rest)) by (now apply NoDup_app_remove_l in N).
  assert (Vf : NoDup (victims_of files)).
  { unfold victims_of. destruct (1 <? _)%nat; [|constructor].
    destruct (sort_newest_first files) as [e|[|newest others]] eqn:S; try constructor.
    apply sort_newest_first_perm in S.
    assert (P : Permutation (map fst (newest :: others)) (map fst files))
      by (now apply Permutation_map).
    apply Permutation_sym in P. apply (Permutation_NoDup P) in Nf.
    simpl in Nf. now apply NoDup_cons_iff in Nf. }
  clear Nf. revert Vf. generalize (victims_of_incl files).
  generalize (victims_of files). intros v Inc Vf.
  induction v as [|x v IHv]; [now apply IH|].
  simpl. apply NoDup_cons_iff in Vf. destruct Vf as [Nx Vf]. constructor.
  - intros H. apply in_app_or in H. destruct H as [H|H]; [contradiction|].
    apply (NoDup_app_disjoint _ _ _ x N).
    + apply Inc. now left.
    + now apply all_victims_incl.
  - apply IHv; [|exact Vf]. intros y Hy. apply Inc. now right.
Qed.

Lemma report_events unique total s :
  report unique total s =
    (inr tt, s,
     if (0 <? total)%nat
     then [Log INFO MsgSummaryHeader; Log INFO (MsgSummaryUnique unique);
           Log INFO (MsgSummaryRemoved total); Log INFO MsgSummaryFooter]
     else [Log INFO (MsgNoDuplicates unique)]).
Proof. unfold report. now destruct (0 <? total)%nat. Qed.

(** A scan that is not cut short, phase by phase. *)
Lemma scan_exact d r s' evs :
  NoDup (map name d) ->
  candidates d <> [] ->
  scan_and_deduplicate (Some d) = (r, s', evs) ->
  aborted evs = false ->
  exists evs1 evs2,
    s' = remove_names (filter (can_unlink d) (all_victims (session_groups (Some d))))
                      (Some d) /\
    evs = Log INFO (MsgAnalysing (List.length (candidates d))) :: evs1 ++ evs2 ++
          snd (report (List.length (session_groups (Some d)))
                      (List.length (filter (can_unlink d)
                                      (all_victims (session_groups (Some d))))) s') /\
    Forall (quiet_about (candidates d)) evs1 /\
    (forall p e, In (Log ERROR (MsgRemoveError p e)) evs2 <->
                 In p (all_victims (session_groups (Some d))) /\
                 can_unlink d p = false /\ e = OSError) /\
    (forall p ts, In (Log INFO (MsgRemoved p ts)) evs2 ->
                  In p (all_victims (session_groups (Some d))) /\ can_unlink d p = true) /\
    (forall p, In p (all_victims (session_groups (Some d))) -> can_unlink d p = true ->
               exists ts, In (Log INFO (MsgRemoved p ts)) evs2).
Proof.
  intros ND NE Run NA.
  destruct (not_aborted_scan d r s' evs Run NA) as [H U].
  pose proof (session_groups_eq fromisoformat localtime (Some d)) as G.
  cbn [candidates_of] in G. rewrite H in G.
  rewrite scan_phases in Run by exact NE.
  destruct (collect_run fromisoformat localtime (candidates d) [] (Some d))
    as (evs1 & Ec & Q1 & _).
  rewrite Ec in Run. rewrite H in Run. rewrite <- G in Run.
  destruct (dedup_groups_exact (session_groups (Some d)) 0 d (all_victims_NoDup d ND) U)
    as (evs2 & E2 & _ & Err & Rem & Lg).
  rewrite E2 in Run. cbn [Nat.add] in Run.
  injection Run as _ <- <-.
  exists evs1, evs2. refine (conj eq_refl (conj eq_refl (conj Q1 (conj Err (conj Rem Lg))))).
Qed.

Lemma scan_without_candidates d r s' evs :
  candidates d = [] ->
  scan_and_deduplicate (Some d) = (r, s', evs) ->
  s' = Some d /\ evs = [Log INFO MsgNoFiles] /\ session_groups (Some d) = [].
Proof.
  intros Cd Run.
  unfold Dedup.scan_and_deduplicate, try_except, Dedup.scan_body in Run.
  unfold bind at 1 in Run. unfold dir_exists in Run. cbn [negb] in Run.
  unfold bind at 1 in Run. rewrite list_json_files_run, Cd in Run.
  cbv in Run. injection Run as _ <- <-.
  refine (conj eq_refl (conj eq_refl _)).
  rewrite (session_groups_eq fromisoformat localtime). cbn [candidates_of].
  rewrite Cd. reflexivity.
Qed.

Lemma quiet_no_remove_error l evs p e :
  Forall (quiet_about l) evs -> ~ In (Log ERROR (MsgRemoveError p e)) evs.
Proof.
  intros Q H. rewrite Forall_forall in Q. destruct (Q _ H) as (_ & F & _). discriminate.
Qed.

(** X13.  In a scan that is not cut short, every file that loses to a
    newer one is removed if the system allows it; where [unlink] fails
    the file stays, the failure is logged with its name, and the scan
    goes on with the next file. *)
Theorem failed_removals_are_reported d r s' evs :
  NoDup (map name d) ->
  scan_and_deduplicate (Some d) = (r, s', evs) ->
  aborted evs = false ->
  (forall p, present p s' <->
             present p (Some d) /\
             ~ (In p (all_victims (session_groups (Some d))) /\ can_unlink d p = true)) /\
  (forall p e, In (Log ERROR (MsgRemoveError p e)) evs <->
               In p (all_victims (session_groups (Some d))) /\
               can_unlink d p = false /\ e = OSError).
Proof.
  intros ND Run NA.
  destruct (candidates d) as [|c cs] eqn:Cd.
  - destruct (scan_without_candidates d r s' evs Cd Run) as (-> & -> & G).
    rewrite G. cbn [all_victims flat_map]. split.
    + intros p. split; [intros H; split; [exact H|intros [[] _]]|now intros [H _]].
    + intros p e. split; [intros [H|[]]; discriminate|intros [[] _]].
  - assert (NE : candidates d <> []) by (rewrite Cd; discriminate).
    destruct (scan_exact d r s' evs ND NE Run NA)
      as (evs1 & evs2 & -> & -> & Q1 & Err & _).
    split.
    + intros p. unfold present. rewrite (names_remove_names fromisoformat).
      rewrite filter_In. reflexivity.
    + intros p e. rewrite <- Err. rewrite report_events. cbn [snd]. split.
      * intros [H|H]; [discriminate|]. apply in_app_or in H. destruct H as [H|H].
        -- now apply (quiet_no_remove_error _ _ _ _ Q1) in H.
        -- apply in_app_or in H. destruct H as [H|H]; [exact H|].
           destruct (0 <? _)%nat; simpl in H;
             repeat (destruct H as [H|H]; [discriminate|]); destruct H.
      * intros H. right. apply in_or_app. right. apply in_or_app. now left.
Qed.

Lemma removed_count d : forall removed,
  NoDup (map name d) -> NoDup removed -> incl removed (map name d) ->
  (List.length (names (remove_names removed (Some d))) + List.length removed =
   List.length d)%nat.
Proof.
  induction d as [|f d IH]; intros removed ND NR Inc.
  - destruct removed as [|x removed]; [reflexivity|]. destruct (Inc x). now left.
  - cbn [map] in ND. apply NoDup_cons_iff in ND. destruct ND as [Nf ND].
    rewrite remove_names_some in *. cbn [names filter].
    destruct (mentioned (name f) removed) eqn:M; cbn [negb].
    + apply mentioned_In in M. apply in_split in M. destruct M as (r1 & r2 & ->).
      apply NoDup_remove in NR. destruct NR as [NR Nin].
      assert (Inc' : incl (r1 ++ r2) (map name d)).
      { intros x Hx. assert (Hx' : In x (r1 ++ name f :: r2)).
        { apply in_app_or in Hx. apply in_or_app. destruct Hx; [now left|right; now right]. }
        destruct (Inc x Hx') as [E|H]; [|exact H]. subst x. contradiction. }
      specialize (IH (r1 ++ r2) ND NR Inc'). rewrite remove_names_some in IH.
      cbn [names] in IH.
      assert (E : filter (fun g => negb (mentioned (name g) (r1 ++ name f :: r2))) d =
                   filter (fun g => negb (mentioned (name g) (r1 ++ r2))) d).
      { apply filter_ext_in. intros g Hg. f_equal.
        rewrite !mentioned_app. f_equal. simpl.
        destruct (String.eqb_spec (name g) (name f)) as [E|_]; [|reflexivity].
        exfalso. apply Nf. rewrite <- E. now apply in_map. }
      rewrite E. rewrite !length_app in *. simpl. lia.
    + apply mentioned_not_In in M.
      assert (Inc' : incl removed (map name d)).
      { intros x Hx. destruct (Inc x Hx) as [E|H]; [|exact H]. subst x. contradiction. }
      specialize (IH removed ND NR Inc'). rewrite remove_names_some in IH.
      cbn [names] in IH. cbn [map List.length]. lia.
Qed.

(** X14.  The closing report of a scan that is not cut short is exact:
    the number of removed files it gives is the number of files gone
    from the directory, the number of sessions is the number of
    identifier groups, and it says that there were no duplicates exactly
    when nothing was removed. *)
Theorem summary_counts_removed_files d r s' evs :
  NoDup (map name d) ->
  candidates d <> [] ->
  scan_and_deduplicate (Some d) = (r, s', evs) ->
  aborted evs = false ->
  exists total_removed before,
    (List.length (names s') + total_removed = List.length d)%nat /\
    evs = before ++
          (if (0 <? total_removed)%nat
           then [Log INFO MsgSummaryHeader;
                 Log INFO (MsgSummaryUnique (List.length (session_groups (Some d))));
                 Log INFO (MsgSummaryRemoved total_removed);
                 Log INFO MsgSummaryFooter]
           else [Log INFO (MsgNoDuplicates (List.length (session_groups (Some d))))]).
Proof.
  intros ND NE Run NA.
  destruct (scan_exact d r s' evs ND NE Run NA) as (evs1 & evs2 & -> & -> & _).
  exists (List.length (filter (can_unlink d) (all_victims (session_groups (Some d))))),
    (Log INFO (MsgAnalysing (List.length (candidates d))) :: evs1 ++ evs2).
  split.
  - apply removed_count; [exact ND| |].
    + apply NoDup_filter. now apply all_victims_NoDup.
    + intros x Hx. apply filter_In in Hx. destruct Hx as [Hx _].
      apply (candidates_incl fromisoformat).
      apply (session_groups_incl fromisoformat localtime (Some d)).
      now apply all_victims_incl.
  - rewrite report_events. cbn [snd]. simpl. now rewrite <- app_assoc.
Qed.

(** *** The loop left alone *)

Local Abbreviation scan := (Dedup.scan fromisoformat localtime).
Local Abbreviation periodic_loop := (Dedup.periodic_loop fromisoformat localtime).
Local Abbreviation run_periodic_check := (Dedup.run_periodic_check fromisoformat localtime).

Lemma scan_sessions p :
  sessions (scan p) = snd (fst (scan_and_deduplicate (sessions p))).
Proof.
  unfold Dedup.scan. now destruct (scan_and_deduplicate (sessions p)) as [[r s] evs].
Qed.

Lemma periodic_loop_quiet installed arrivals interval_seconds rounds : forall p,
  running p = true ->
  (forall k, arrivals k = None) ->
  exists q,
    periodic_loop installed arrivals interval_seconds rounds p = Sleeping q /\
    running q = true /\
    slept q = (slept p + rounds * interval_seconds)%nat /\
    sessions q =
      Nat.iter rounds (fun s => snd (fst (scan_and_deduplicate s))) (sessions p).
Proof.
  induction rounds as [|rounds IH]; intros p Run Quiet.
  - exists p. cbn. rewrite Nat.add_0_r. auto.
  - cbn [Dedup.periodic_loop]. rewrite Run. cbn [negb].
    destruct (wait_quiet_with installed arrivals interval_seconds p Run)
      as (q1 & -> & R1 & S1 & D1 & _).
    { intros k _. apply Quiet. }
    rewrite R1.
    destruct (scan_keeps fromisoformat localtime (say INFO MsgPeriodicCheck q1)) as [R2 S2].
    destruct (IH (scan (say INFO MsgPeriodicCheck q1))) as (q & -> & Rq & Sq & Dq).
    { rewrite R2. exact R1. }
    { exact Quiet. }
    exists q. refine (conj eq_refl (conj Rq (conj _ _))).
    + rewrite Sq, S2. cbn [say slept]. rewrite S1. simpl. lia.
    + rewrite Dq, scan_sessions. cbn [say sessions]. rewrite D1.
      now rewrite Nat.iter_succ_r.
Qed.

(** X15.  Left without signals, the monitoring never ends by itself:
    after the initial scan it scans once per interval for as long as it
    is observed, sleeping the whole interval in between -- and not
    sleeping at all when the interval is zero or negative. *)
Theorem undisturbed_monitoring_keeps_scanning installed arrivals interval_minutes rounds p :
  running p = true ->
  (forall k, arrivals k = None) ->
  exists q,
    run_periodic_check installed arrivals interval_minutes rounds p = Sleeping q /\
    running q = true /\
    slept q = (slept p + rounds * Z.to_nat (interval_minutes * 60))%nat /\
    sessions q =
      Nat.iter (S rounds) (fun s => snd (fst (scan_and_deduplicate s))) (sessions p) /\
    (interval_minutes <= 0 -> slept q = slept p).
Proof.
  intros Run Quiet. unfold Dedup.run_periodic_check.
  set (p0 := say INFO MsgInitialCheck
               (say INFO MsgPressCtrlC
                  (say INFO MsgMonitoredDirectory
                     (say INFO (MsgMonitoringStarted interval_minutes) p)))).
  destruct (scan_keeps fromisoformat localtime p0) as [R0 S0].
  destruct (periodic_loop_quiet installed arrivals (Z.to_nat (interval_minutes * 60))
              rounds (scan p0)) as (q & E & Rq & Sq & Dq).
  { rewrite R0. exact Run. }
  { exact Quiet. }
  exists q. rewrite E. refine (conj eq_refl (conj Rq (conj _ (conj _ _)))).
  - rewrite Sq, S0. reflexivity.
  - rewrite Dq, scan_sessions. now rewrite Nat.iter_succ_r.
  - intros Neg. rewrite Sq, S0. cbn [p0 say slept].
    replace (Z.to_nat (interval_minutes * 60)) with 0%nat by lia. lia.
Qed.

(** *** How the monitoring ends *)

(** X16.  Started without [--once], the program never returns from the
    monitoring by itself and never reaches its closing log line:
    however signals arrive, it is either still running, flag set, or it
    has left through [sys.exit(0)] with the flag set; the branch that
    calls [stop()] is out of reach. *)
Theorem monitoring_only_ends_by_exit interval directory arrivals rounds :
  match Dedup.main fromisoformat localtime false interval directory arrivals rounds with
  | Finished _ => False
  | Exited code q => code = 0 /\ running q = true
  | Sleeping q => running q = true
  end.
Proof.
  unfold Dedup.main, Dedup.run_periodic_check.
  set (p0 := say INFO MsgInitialCheck
               (say INFO MsgPressCtrlC
                  (say INFO MsgMonitoredDirectory
                     (say INFO (MsgMonitoringStarted interval) (init directory))))).
  pose proof (loop_exit_or_on fromisoformat localtime arrivals
                (Z.to_nat (interval * 60)) rounds (scan p0)) as L.
  destruct (scan_keeps fromisoformat localtime p0) as [R0 _].
  specialize (L R0).
  destruct (Dedup.periodic_loop _ _ _ _ _ _ _); exact L.
Qed.

Lemma wait_raise installed e arrivals seconds : forall p j signum,
  (forall frame, installed signum frame = inl e) ->
  running p = true ->
  (slept p <= j < slept p + seconds)%nat ->
  arrivals j = Some signum ->
  (forall k, (slept p <= k < j)%nat -> arrivals k = None) ->
  exists q, wait installed arrivals seconds p = inl (e, q) /\
            running q = true /\ slept q = j /\
            sessions q = sessions p /\ trace q = trace p.
Proof.
  induction seconds as [|n IH]; intros p j signum Raises R J A Q; [lia|].
  simpl. rewrite R. simpl. unfold sleep_one_second.
  destruct (Nat.eq_dec j (slept p)) as [->|Ne].
  - rewrite A, Raises. exists p. repeat split; auto.
  - rewrite (Q (slept p)) by lia.
    destruct (IH {| running := running p; sessions := sessions p;
                    trace := trace p; slept := S (slept p) |} j signum)
      as (q & -> & Rq & Sq & Dq & Tq); simpl; auto; try lia.
    + intros k Hk. apply Q. lia.
    + exists q. simpl in *. repeat split; auto.
Qed.

(** X17.  Where [KeyboardInterrupt] does reach the loop -- the handler
    Python installs for SIGINT by default raises it -- the sleep is
    abandoned, [stop()] clears the flag and logs that the monitoring
    stops, and the loop returns without another scan. *)
Theorem keyboard_interrupt_stops_the_loop installed arrivals interval_seconds rounds p j signum :
  (forall frame, installed signum frame = inl KeyboardInterrupt) ->
  running p = true ->
  (0 < interval_seconds)%nat ->
  (slept p <= j)%nat ->
  arrivals j = Some signum ->
  (forall k, (slept p <= k < j)%nat -> arrivals k = None) ->
  (j - slept p < rounds * interval_seconds)%nat ->
  exists q before,
    periodic_loop installed arrivals interval_seconds rounds p = Finished q /\
    running q = false /\ slept q = j /\
    trace q = before ++ [Log INFO MsgStopping] /\
    sessions q =
      Nat.iter ((j - slept p) / interval_seconds)
               (fun s => snd (fst (scan_and_deduplicate s))) (sessions p).
Proof.
  intros Raises R I J A Q Far.
  revert p R J Q Far. induction rounds as [|n IH]; intros p R J Q Far; [simpl in Far; lia|].
  cbn [Dedup.periodic_loop]. rewrite R. cbn [negb].
  destruct (Nat.lt_ge_cases j (slept p + interval_seconds)) as [Near|Later].
  - destruct (wait_raise installed KeyboardInterrupt arrivals interval_seconds p j signum
                Raises R (conj J Near) A Q) as (q & -> & Rq & Sq & Dq & Tq).
    exists (stop q), (trace q). cbn [stop say running slept trace sessions].
    refine (conj eq_refl (conj eq_refl (conj Sq (conj eq_refl _)))).
    rewrite Nat.div_small by lia. exact Dq.
  - destruct (wait_quiet_with installed arrivals interval_seconds p R)
      as (q & -> & Rq & Sq & Dq & _).
    { intros k Hk. apply Q. lia. }
    rewrite Rq.
    destruct (scan_keeps fromisoformat localtime (say INFO MsgPeriodicCheck q)) as [Rs Ss].
    simpl in Rs, Ss.
    destruct (IH (scan (say INFO MsgPeriodicCheck q))) as (q' & before & -> & Rq' & Sq' & Tq' & Dq').
    + now rewrite Rs.
    + rewrite Ss. lia.
    + intros k Hk. apply Q. rewrite Ss in Hk. lia.
    + rewrite Ss. simpl in Far. lia.
    + exists q', before. refine (conj eq_refl (conj Rq' (conj Sq' (conj Tq' _)))).
      rewrite Dq', scan_sessions. cbn [say sessions]. rewrite Dq, Ss, Sq.
      replace (j - slept p)%nat with ((j - (slept p + interval_seconds)) + 1 * interval_seconds)%nat
        by lia.
      rewrite Nat.div_add by lia. rewrite Nat.add_1_r. now rewrite Nat.iter_succ_r.
Qed.
End More.

(** ** The statements at work on sample data *)

Local Abbreviation sample_groups d :=
  (session_groups sample_fromisoformat sample_localtime (Some d)).
Local Abbreviation sample_info d p :=
  (info_at sample_fromisoformat sample_localtime (Some d) p).
Local Abbreviation after d := (snd (fst (sample_scan d))).
Local Abbreviation events d := (snd (sample_scan d)).

Lemma crowded_directory_NoDup : NoDup (map name crowded_directory).
Proof.
  repeat constructor; simpl; intuition discriminate.
Qed.

Lemma numeric_directory_NoDup : NoDup (map name numeric_directory).
Proof.
  repeat constructor; simpl; intuition discriminate.
Qed.

Lemma mixed_directory_NoDup : NoDup (map name mixed_directory).
Proof.
  repeat constructor; simpl; intuition discriminate.
Qed.

Lemma scan_only_removes_duplicates_witness :
  fst (fst (sample_scan crowded_directory)) = inr tt /\
  exists removed,
    after crowded_directory = remove_names removed (Some crowded_directory) /\
    (forall n, In n removed ->
       endswith n ".json" = true /\ excluded n = false /\
       exists g, In g (sample_groups crowded_directory) /\
                 (1 < List.length (snd g))%nat /\ In n (map fst (snd g))) /\
    (forall p, present p (after crowded_directory) ->
               find_file p (after crowded_directory) =
               find_file p (Some crowded_directory)).
Proof.
  apply (scan_only_removes_duplicates sample_fromisoformat sample_localtime
           (Some crowded_directory) _ _ (events crowded_directory)).
  vm_compute. reflexivity.
Defined.

Lemma every_group_keeps_a_member_witness :
  exists x,
    In x crowded_versions /\ present (fst x) (after crowded_directory) /\
    (sortable (JStr "x", crowded_versions) -> latest_of crowded_versions x).
Proof.
  apply (every_group_keeps_a_member sample_fromisoformat sample_localtime
           crowded_directory (inr tt) _ (events crowded_directory) (JStr "x")).
  - exact crowded_directory_NoDup.
  - vm_compute. reflexivity.
  - vm_compute. left. reflexivity.
Defined.

Lemma unresolved_file_is_kept_witness :
  (forall g, In g (sample_groups crowded_directory) ->
             ~ In "epoch.json" (map fst (snd g))) /\
  ~ In (Unlink "epoch.json") (events crowded_directory) /\
  find_file "epoch.json" (after crowded_directory) =
  find_file "epoch.json" (Some crowded_directory).
Proof.
  apply (unresolved_file_is_kept sample_fromisoformat sample_localtime
           (Some crowded_directory) "epoch.json" (inr tt)).
  - vm_compute. reflexivity.
  - vm_compute. reflexivity.
Defined.

Lemma other_files_are_ignored_witness :
  ~ In (Open "notes.txt") (events crowded_directory) /\
  ~ In (Stat "notes.txt") (events crowded_directory) /\
  ~ In (Unlink "notes.txt") (events crowded_directory) /\
  find_file "notes.txt" (after crowded_directory) =
  find_file "notes.txt" (Some crowded_directory).
Proof.
  apply (other_files_are_ignored sample_fromisoformat sample_localtime
           (Some crowded_directory) "notes.txt" (inr tt)).
  - reflexivity.
  - vm_compute. reflexivity.
Defined.

Lemma scan_opens_candidates_in_order_witness :
  opened (events crowded_directory) =
    read_prefix sample_fromisoformat sample_localtime (Some crowded_directory)
      (candidates crowded_directory) /\
  (forallb (fun x => hashable (fst x))
     (resolved sample_fromisoformat sample_localtime (Some crowded_directory)
        (candidates crowded_directory)) = true ->
   opened (events crowded_directory) = candidates crowded_directory).
Proof.
  apply (scan_opens_candidates_in_order sample_fromisoformat sample_localtime
           crowded_directory (inr tt) (after crowded_directory)).
  vm_compute. reflexivity.
Defined.

Lemma unhashable_identifier_stops_the_scan_witness :
  after listed_directory = Some listed_directory /\
  (forall q, ~ In (Unlink q) (events listed_directory)) /\
  In (Log ERROR (MsgDedupError TypeError)) (events listed_directory) /\
  completed_successfully (events listed_directory) = false.
Proof.
  apply (unhashable_identifier_stops_the_scan sample_fromisoformat sample_localtime
           listed_directory "l.json" (JArr [JStr "x"])
           {| tz_aware := false; ticks := 1704070000000000 |} (inr tt)).
  - vm_compute. left. reflexivity.
  - vm_compute. reflexivity.
  - reflexivity.
  - vm_compute. reflexivity.
Defined.

Lemma scan_aborts_exactly_when_witness :
  (aborted (events mixed_directory) = true <->
   forallb (fun x => hashable (fst x))
     (resolved sample_fromisoformat sample_localtime (Some mixed_directory)
        (candidates mixed_directory)) = false \/
   exists g, In g (sample_groups mixed_directory) /\ ~ uniform (snd g)) /\
  (aborted (events mixed_directory) = true ->
   In (Log ERROR (MsgDedupError TypeError)) (events mixed_directory)).
Proof.
  apply (scan_aborts_exactly_when sample_fromisoformat sample_localtime
           mixed_directory (inr tt) (after mixed_directory)).
  vm_compute. reflexivity.
Defined.

Lemma mixed_timestamps_keep_every_version_witness :
  In (Log ERROR (MsgDedupError TypeError)) (events mixed_directory) /\
  forall z,
    In z [("a.json", {| tz_aware := true; ticks := 1704067200000000 |});
          ("c.json", {| tz_aware := false; ticks := 1704250000000000 |})] ->
    present (fst z) (after mixed_directory).
Proof.
  apply (mixed_timestamps_keep_every_version sample_fromisoformat sample_localtime
           mixed_directory (inr tt) _ _ (JStr "x") _
           ("a.json", {| tz_aware := true; ticks := 1704067200000000 |})
           ("c.json", {| tz_aware := false; ticks := 1704250000000000 |})).
  - exact mixed_directory_NoDup.
  - vm_compute. reflexivity.
  - vm_compute. left. reflexivity.
  - left. reflexivity.
  - right. left. reflexivity.
  - simpl. discriminate.
Defined.

Lemma same_group_iff_equal_identifier_witness :
  (exists g,
      In g (sample_groups numeric_directory) /\
      In ("one.json", {| tz_aware := false; ticks := 1704070000000000 |}) (snd g) /\
      In ("uno.json", {| tz_aware := false; ticks := 1704160000000000 |}) (snd g)) <->
  key_eqb (JInt 1) (JFloat (FFin 1)) = true.
Proof.
  apply (same_group_iff_equal_identifier sample_fromisoformat sample_localtime
           (Some numeric_directory)).
  - vm_compute. reflexivity.
  - vm_compute. left. reflexivity.
  - vm_compute. right. left. reflexivity.
  - vm_compute. reflexivity.
  - vm_compute. reflexivity.
  - discriminate.
Defined.

(** Two files identified by NaN are one session: the older one goes. *)
Example nan_identifiers_share_a_group :
  sample_groups nan_directory =
    [(JFloat FNan,
      [("n1.json", {| tz_aware := false; ticks := 1704070000000000 |});
       ("n2.json", {| tz_aware := false; ticks := 1704160000000000 |})])] /\
  names (after nan_directory) = ["n2.json"].
Proof. split; vm_compute; reflexivity. Qed.

Lemma fraction_read_as_utc_microseconds_witness :
  normalize_fraction ("2024-01-01T00:00:00" ++ "." ++ "123456" ++ "789+02:00") =
    inr ("2024-01-01T00:00:00" ++ "." ++ "123456" ++ "Z")%string /\
  parse_timestamp sample_fromisoformat
    (JStr ("2024-01-01T00:00:00" ++ "." ++ "123456" ++ "789+02:00")) =
  parse_timestamp sample_fromisoformat
    (JStr ("2024-01-01T00:00:00" ++ "." ++ "123456" ++ "Z")).
Proof.
  apply (fraction_read_as_utc_microseconds sample_fromisoformat
           "2024-01-01T00:00:00" "123456" "789+02:00").
  - reflexivity.
  - reflexivity.
  - reflexivity.
  - reflexivity.
  - left. reflexivity.
Defined.

Lemma non_string_timestamp_skips_the_file_witness :
  get_session_info sample_fromisoformat sample_localtime "epoch.json"
    (Some crowded_directory) =
    (inr None, Some crowded_directory,
     [Open "epoch.json";
      Log ERROR (MsgProcessError "epoch.json"
                   (if hashable (JInt 1704067200) then TypeError else AttributeError))]) /\
  forall g, In g (sample_groups crowded_directory) ->
            ~ In "epoch.json" (map fst (snd g)).
Proof.
  apply (non_string_timestamp_skips_the_file sample_fromisoformat sample_localtime
           (Some crowded_directory) "epoch.json"
           {| name := "epoch.json";
              load := Document (JObj [("sessionId", JStr "x");
                                      ("timestamp", JInt 1704067200)]);
              mtime := 1704070000000000; unlinkable := true |}
           (JObj [("sessionId", JStr "x"); ("timestamp", JInt 1704067200)])
           (JStr "x") (JInt 1704067200)).
  - reflexivity.
  - reflexivity.
  - reflexivity.
  - reflexivity.
  - reflexivity.
  - reflexivity.
  - discriminate.
Defined.

Lemma two_dots_skip_the_file_witness :
  parse_timestamp sample_fromisoformat
    (JStr ("2024" ++ "." ++ "01" ++ "." ++ "01T00:00:00Z")) = inl ValueError /\
  get_session_info sample_fromisoformat sample_localtime "dots.json"
    (Some crowded_directory) =
    (inr None, Some crowded_directory,
     [Open "dots.json"; Log ERROR (MsgProcessError "dots.json" ValueError)]) /\
  forall g, In g (sample_groups crowded_directory) ->
            ~ In "dots.json" (map fst (snd g)).
Proof.
  apply (two_dots_skip_the_file sample_fromisoformat sample_localtime
           (Some crowded_directory) "dots.json"
           {| name := "dots.json";
              load := Document (JObj [("sessionId", JStr "x");
                                      ("updatedAt", JStr "2024.01.01T00:00:00Z")]);
              mtime := 1704070000000000; unlinkable := true |}
           (JObj [("sessionId", JStr "x"); ("updatedAt", JStr "2024.01.01T00:00:00Z")])
           (JStr "x")).
  - reflexivity.
  - reflexivity.
  - reflexivity.
  - reflexivity.
  - reflexivity.
Defined.

Lemma failed_removals_are_reported_witness :
  (forall p, present p (after crowded_directory) <->
             present p (Some crowded_directory) /\
             ~ (In p (all_victims (sample_groups crowded_directory)) /\
                can_unlink crowded_directory p = true)) /\
  (forall p e, In (Log ERROR (MsgRemoveError p e)) (events crowded_directory) <->
               In p (all_victims (sample_groups crowded_directory)) /\
               can_unlink crowded_directory p = false /\ e = OSError).
Proof.
  apply (failed_removals_are_reported sample_fromisoformat sample_localtime
           crowded_directory (inr tt)).
  - exact crowded_directory_NoDup.
  - vm_compute. reflexivity.
  - vm_compute. reflexivity.
Defined.

Lemma summary_counts_removed_files_witness :
  exists total_removed before,
    (List.length (names (after crowded_directory)) + total_removed =
     List.length crowded_directory)%nat /\
    events crowded_directory =
      before ++
      (if (0 <? total_removed)%nat
       then [Log INFO MsgSummaryHeader;
             Log INFO (MsgSummaryUnique
                         (List.length (sample_groups crowded_directory)));
             Log INFO (MsgSummaryRemoved total_removed);
             Log INFO MsgSummaryFooter]
       else [Log INFO (MsgNoDuplicates
                         (List.length (sample_groups crowded_directory)))]).
Proof.
  apply (summary_counts_removed_files sample_fromisoformat sample_localtime
           crowded_directory (inr tt)).
  - exact crowded_directory_NoDup.
  - vm_compute. discriminate.
  - vm_compute. reflexivity.
  - vm_compute. reflexivity.
Defined.

Lemma undisturbed_monitoring_keeps_scanning_witness :
  exists q,
    run_periodic_check sample_fromisoformat sample_localtime signal_handler no_signal
      5 2 (init (Some crowded_directory)) = Sleeping q /\
    running q = true /\
    slept q = (slept (init (Some crowded_directory)) + 2 * Z.to_nat (5 * 60))%nat /\
    sessions q =
      Nat.iter 3
        (fun s => snd (fst (scan_and_deduplicate sample_fromisoformat sample_localtime s)))
        (sessions (init (Some crowded_directory))) /\
    (5 <= 0 -> slept q = slept (init (Some crowded_directory))).
Proof.
  apply (undisturbed_monitoring_keeps_scanning sample_fromisoformat sample_localtime
           signal_handler no_signal 5 2 (init (Some crowded_directory))).
  - reflexivity.
  - reflexivity.
Defined.

Lemma ctrl_c_third_second_quiet k : (0 <= k < 2)%nat -> ctrl_c_third_second k = None.
Proof.
  intros H. destruct k as [|[|k]]; [reflexivity|reflexivity|lia].
Qed.

Lemma keyboard_interrupt_stops_the_loop_witness :
  exists q before,
    periodic_loop sample_fromisoformat sample_localtime default_int_handler
      ctrl_c_third_second 60 1 (init (Some crowded_directory)) = Finished q /\
    running q = false /\ slept q = 2%nat /\
    trace q = before ++ [Log INFO MsgStopping] /\
    sessions q =
      Nat.iter ((2 - slept (init (Some crowded_directory))) / 60)
        (fun s => snd (fst (scan_and_deduplicate sample_fromisoformat sample_localtime s)))
        (sessions (init (Some crowded_directory))).
Proof.
  apply (keyboard_interrupt_stops_the_loop sample_fromisoformat sample_localtime
           default_int_handler ctrl_c_third_second 60 1
           (init (Some crowded_directory)) 2 SIGINT).
  - reflexivity.
  - reflexivity.
  - lia.
  - simpl. lia.
  - reflexivity.
  - exact ctrl_c_third_second_quiet.
  - simpl. lia.
Defined.

End DedupMore.

(* ===================================================================== *)
(** * More about the icon generator                                       *)
(* ===================================================================== *)

Module IconsMore.
Import Icons IconsFacts.

Section More.

Variable truetype_found : string -> bool.
Variable default_font_loads : bool.
Variable textbbox : font -> string -> option (Z * Z * Z * Z).
Variable text_draws : font -> string -> bool.

Local Abbreviation create_icon :=
  (Icons.create_icon truetype_found default_font_loads textbbox text_draws).

(** On the sizes that occur, [int(k * scale)] is an integer division. *)
Lemma py_int_scaled k size :
  0 <= k -> 0 <= size ->
  py_int (inject_Z k * (inject_Z size / 128))%Q = k * size / 128.
Proof.
  intros Hk Hs. unfold py_int, Qdiv, Qmult, Qinv, inject_Z. cbn [Qnum Qden].
  rewrite Z.quot_div_nonneg by lia. f_equal. lia.
Qed.

Lemma gradient_row_colours size y :
  0 <= y < size ->
  gradient_row size y =
    Rectangle 0 y size (y + 1)
      ((102 * size + 16 * y) / size, (126 * size - 51 * y) / size,
       (234 * size - 72 * y) / size, 255).
Proof.
  intros Hy. destruct size as [|p|p]; try lia.
  unfold gradient_row, py_int, Qdiv, Qminus, Qplus, Qmult, Qopp, Qinv, inject_Z.
  cbn [Qnum Qden]. rewrite !Pos.mul_1_l.
  rewrite !Z.quot_div_nonneg by lia.
  replace (102 * Z.pos p + (118 * 1 + - (102) * 1) * y * 1 * 1)
    with (102 * Z.pos p + 16 * y) by lia.
  replace (126 * Z.pos p + - ((126 * 1 + - (75) * 1) * y * 1) * 1)
    with (126 * Z.pos p - 51 * y) by lia.
  replace (234 * Z.pos p + - ((234 * 1 + - (162) * 1) * y * 1) * 1)
    with (234 * Z.pos p - 72 * y) by lia.
  reflexivity.
Qed.

Lemma drawn_fold_draw (A : Type) (f : A -> shape) (l : list A) : forall img,
  drawn (fold_left (fun img a => draw (f a) img) l img) = drawn img ++ map f l.
Proof.
  induction l as [|a l IH]; intros img; simpl.
  - now rewrite app_nil_r.
  - rewrite IH. simpl. now rewrite <- app_assoc.
Qed.

Lemma range_In size y : In y (range size) <-> 0 <= y < size.
Proof.
  unfold range. rewrite in_map_iff. split.
  - intros (n & <- & Hn). apply in_seq in Hn. lia.
  - intros Hy. exists (Z.to_nat y). split; [lia|]. apply in_seq. lia.
Qed.

Lemma drawn_gradient size :
  drawn (draw_gradient size (new_image size)) = map (gradient_row size) (range size).
Proof. unfold draw_gradient. now rewrite drawn_fold_draw. Qed.

(** The key, with its coordinates as integer arithmetic on the size. *)
Lemma drawn_unlabelled size :
  0 <= size ->
  drawn (unlabelled size) =
    map (gradient_row size) (range size) ++
    [Ellipse (size / 2 - 20 * size / 128)
             (size / 2 - 20 * size / 128 - 10 * size / 128)
             (size / 2 + 20 * size / 128)
             (size / 2 + 20 * size / 128 - 10 * size / 128)
             white (4 * size / 128);
     Rectangle (size / 2 - 8 * size / 128 / 2) (size / 2 - 10 * size / 128)
               (size / 2 + 8 * size / 128 / 2) (size / 2 + 30 * size / 128) white;
     Rectangle (size / 2 + 8 * size / 128 / 2)
               (size / 2 + 30 * size / 128 - 10 * size / 128)
               (size / 2 + 8 * size / 128 / 2 + 4 * size / 128)
               (size / 2 + 30 * size / 128 - 10 * size / 128 + 3 * size / 128) white;
     Rectangle (size / 2 + 8 * size / 128 / 2)
               (size / 2 + 30 * size / 128 - 5 * size / 128)
               (size / 2 + 8 * size / 128 / 2 + 4 * size / 128)
               (size / 2 + 30 * size / 128 - 5 * size / 128 + 3 * size / 128) white].
Proof.
  intros Hs. unfold unlabelled, draw_key. cbn [fold_left draw drawn].
  rewrite drawn_gradient.
  change 20%Q with (inject_Z 20). change 4%Q with (inject_Z 4).
  change 10%Q with (inject_Z 10). change 8%Q with (inject_Z 8).
  change 30%Q with (inject_Z 30). change 5%Q with (inject_Z 5).
  change 3%Q with (inject_Z 3).
  rewrite !py_int_scaled by lia.
  rewrite <- !app_assoc. reflexivity.
Qed.

(** X18.  The background is one rectangle per pixel row, each a full
    row wide and one pixel high, and every colour component is a valid
    byte between the two end colours: the top row is exactly
    (102, 126, 234), and red stays below the 118 named for the bottom. *)
Theorem gradient_stays_between_the_end_colours size :
  0 < size ->
  drawn (draw_gradient size (new_image size)) = map (gradient_row size) (range size) /\
  List.length (range size) = Z.to_nat size /\
  gradient_row size 0 = Rectangle 0 0 size 1 (102, 126, 234, 255) /\
  forall y, 0 <= y < size ->
    exists r g b,
      gradient_row size y = Rectangle 0 y size (y + 1) (r, g, b, 255) /\
      102 <= r < 118 /\ 75 <= g <= 126 /\ 162 <= b <= 234.
Proof.
  intros Hs. split; [apply drawn_gradient|]. split.
  { unfold range. now rewrite length_map, length_seq. }
  split.
  { rewrite gradient_row_colours by lia. repeat f_equal.
    - rewrite Z.add_0_r. apply Z.div_mul; lia.
    - rewrite Z.sub_0_r. apply Z.div_mul; lia.
    - rewrite Z.sub_0_r. apply Z.div_mul; lia. }
  intros y Hy. rewrite gradient_row_colours by exact Hy.
  eexists _, _, _. split; [reflexivity|].
  repeat split.
  - apply Z.div_le_lower_bound; lia.
  - apply Z.div_lt_upper_bound; lia.
  - apply Z.div_le_lower_bound; lia.
  - apply Z.div_le_upper_bound; lia.
  - apply Z.div_le_lower_bound; lia.
  - apply Z.div_le_upper_bound; lia.
Qed.

(** X19.  Whatever the size, everything drawn before the label lies on
    the canvas with its corners in order -- the rows of the background,
    the handle, the shaft and the two teeth of the key -- and there are
    exactly [size + 4] such shapes. *)
Theorem key_is_drawn_on_the_canvas size :
  0 < size ->
  forallb (within_canvas size) (drawn (unlabelled size)) = true /\
  List.length (drawn (unlabelled size)) = (Z.to_nat size + 4)%nat.
Proof.
  intros Hs. rewrite drawn_unlabelled by lia. split.
  - rewrite forallb_app. apply andb_true_iff. split.
    + apply forallb_forall. intros sh Hsh. apply in_map_iff in Hsh.
      destruct Hsh as (y & <- & Hy). apply range_In in Hy.
      rewrite gradient_row_colours by exact Hy. cbn [within_canvas].
      repeat (apply andb_true_iff; split); apply Z.leb_le; lia.
    + cbn [forallb within_canvas]. rewrite andb_true_r.
      repeat (apply andb_true_iff; split); apply Z.leb_le;
        Z.to_euclidean_division_equations; lia.
  - rewrite length_app, length_map. unfold range.
    rewrite length_map, length_seq. reflexivity.
Qed.

(** X20.  The outline of the key's handle is requested with width
    [int(4 * size / 128)]: zero for every icon smaller than 32 pixels,
    the 16-pixel icon among them, and at least one from 32 pixels on. *)
Theorem handle_outline_width size name :
  0 < size ->
  exists x0 y0 x1 y1,
    In (Ellipse x0 y0 x1 y1 white (size / 32))
       (drawn (picture (create_icon size name))) /\
    (forall a0 b0 a1 b1 outline line_width,
        In (Ellipse a0 b0 a1 b1 outline line_width)
           (drawn (picture (create_icon size name))) ->
        line_width = size / 32) /\
    (size / 32 = 0 <-> size < 32).
Proof.
  intros Hs.
  assert (W : 4 * size / 128 = size / 32) by (Z.to_euclidean_division_equations; lia).
  assert (U : forall a0 b0 a1 b1 outline line_width,
             In (Ellipse a0 b0 a1 b1 outline line_width) (drawn (unlabelled size)) ->
             line_width = size / 32).
  { intros a0 b0 a1 b1 outline line_width H.
    rewrite drawn_unlabelled in H by lia. apply in_app_or in H. destruct H as [H|H].
    - apply in_map_iff in H. destruct H as (y & E & _). discriminate.
    - destruct H as [H|[H|[H|[H|[]]]]]; try discriminate.
      injection H as _ _ _ _ _ <-. exact W. }
  assert (K : exists x0 y0 x1 y1,
             In (Ellipse x0 y0 x1 y1 white (size / 32)) (drawn (unlabelled size))).
  { rewrite drawn_unlabelled by lia. rewrite W. do 4 eexists.
    apply in_or_app. right. left. reflexivity. }
  rewrite (create_icon_picture truetype_found default_font_loads textbbox text_draws).
  destruct (draw_label_cases truetype_found default_font_loads textbbox text_draws
              size (unlabelled size)) as [[-> _]|(sh & _ & _ & T & ->)].
  - destruct K as (x0 & y0 & x1 & y1 & K). exists x0, y0, x1, y1.
    refine (conj K (conj U _)). Z.to_euclidean_division_equations; lia.
  - destruct K as (x0 & y0 & x1 & y1 & K). exists x0, y0, x1, y1.
    cbn [draw drawn]. split; [apply in_or_app; now left|]. split.
    + intros a0 b0 a1 b1 outline line_width H. apply in_app_or in H.
      destruct H as [H|[H|[]]]; [now apply U in H|]. subst sh. discriminate.
    + Z.to_euclidean_division_equations; lia.
Qed.

End More.

(** ** The statements at work on the 16-pixel icon *)

Lemma gradient_stays_between_the_end_colours_witness :
  drawn (draw_gradient 16 (new_image 16)) = map (gradient_row 16) (range 16) /\
  List.length (range 16) = Z.to_nat 16 /\
  gradient_row 16 0 = Rectangle 0 0 16 1 (102, 126, 234, 255) /\
  forall y, 0 <= y < 16 ->
    exists r g b,
      gradient_row 16 y = Rectangle 0 y 16 (y + 1) (r, g, b, 255) /\
      102 <= r < 118 /\ 75 <= g <= 126 /\ 162 <= b <= 234.
Proof.
  apply (gradient_stays_between_the_end_colours 16). lia.
Defined.

Lemma key_is_drawn_on_the_canvas_witness :
  forallb (within_canvas 16) (drawn (unlabelled 16)) = true /\
  List.length (drawn (unlabelled 16)) = (Z.to_nat 16 + 4)%nat.
Proof.
  apply (key_is_drawn_on_the_canvas 16). lia.
Defined.

Lemma handle_outline_width_witness :
  exists x0 y0 x1 y1,
    In (Ellipse x0 y0 x1 y1 white (16 / 32))
       (drawn (picture (create_icon no_truetype false no_textbbox no_text
                          16 "icon16.png"))) /\
    (forall a0 b0 a1 b1 outline line_width,
        In (Ellipse a0 b0 a1 b1 outline line_width)
           (drawn (picture (create_icon no_truetype false no_textbbox no_text
                              16 "icon16.png"))) ->
        line_width = 16 / 32) /\
    (16 / 32 = 0 <-> 16 < 32).
Proof.
  apply (handle_outline_width no_truetype false no_textbbox no_text 16 "icon16.png").
  lia.
Defined.

End IconsMore.
